(** * GRAO population tables: parsing, disambiguation and merging

    A shallow embedding of [grao_tables_parsing.py] and the properties of
    its core: the name normaliser, the layout classifier, the header state
    machine, the record assembler, the settlement resolver with its retry
    and cache discipline, and the period merger. *)

From Stdlib Require Import ZArith NArith Ascii String.
From stdpp Require Import base option list sorting gmap.

Open Scope Z_scope.

(** ** Python values *)

(** A Python [str] is a sequence of Unicode code points. *)
Abbreviation str := (list N).

Module Utf8.

(** Literals are written in UTF-8 and decoded to code points: [pend] is the
    value read so far from a multi-byte sequence and [need] the number of
    continuation bytes still expected. *)
Fixpoint decode (bs : list N) (pend : N) (need : nat) : str :=
  match bs with
  | [] => []
  | b :: r =>
      match need with
      | O =>
          if (b <? 128)%N then b :: decode r 0%N 0%nat
          else if (b <? 224)%N then decode r (N.land b 31) 1%nat
          else if (b <? 240)%N then decode r (N.land b 15) 2%nat
          else decode r (N.land b 7) 3%nat
      | S O => (pend * 64 + N.land b 63)%N :: decode r 0%N 0%nat
      | S n => decode r (pend * 64 + N.land b 63)%N n
      end
  end.

Definition of_string (s : string) : str :=
  decode (map N_of_ascii (list_ascii_of_string s)) 0%N 0%nat.

End Utf8.

Notation "'u' s" := (Utf8.of_string s%string) (at level 1, s at level 0, only parsing).

(** Exceptions the modelled code can raise, and the result of a call. *)
Inductive exn :=
| ValueError | IndexError | KeyError | AttributeError | UnboundLocalError.

Inductive outcome (A : Type) :=
| Returns (a : A)
| Raises (e : exn).
Arguments Returns {A} a.
Arguments Raises {A} e.

#[global] Instance outcome_ret : MRet outcome := fun A a => Returns a.

#[global] Instance outcome_bind : MBind outcome := fun A B f m =>
  match m with
  | Returns a => f a
  | Raises e => Raises e
  end.

#[global] Instance exn_eq_dec : EqDecision exn.
Proof. solve_decision. Defined.

(** ** String methods *)

Module Str.

Fixpoint startswith (sub s : str) : bool :=
  match sub, s with
  | [], _ => true
  | _ :: _, [] => false
  | a :: sub', b :: s' => (a =? b)%N && startswith sub' s'
  end.

(** [find_at sub s i]: [s] is the part of the string that starts at index
    [i]; the lowest index at which [sub] occurs, or [-1]. *)
Fixpoint find_at (sub s : str) (i : Z) : Z :=
  match s with
  | [] => if startswith sub [] then i else -1
  | _ :: s' => if startswith sub s then i else find_at sub s' (i + 1)
  end.

(** [s.find(sub, start)] for [start >= 0]. *)
Definition find (s sub : str) (start : Z) : Z :=
  if Z.of_nat (length s) <? start then -1
  else find_at sub (drop (Z.to_nat start) s) start.

(** [s.replace(old, new)] where [old] and [new] are one-character strings,
    as at every call of the program. *)
Definition replace (old new : N) (s : str) : str :=
  map (fun c => if (c =? old)%N then new else c) s.

(** [s.split(sep)] for a one-character separator: never empty. *)
Fixpoint split (sep : N) (s : str) : list str :=
  match s with
  | [] => [[]]
  | c :: s' =>
      if (c =? sep)%N then [] :: split sep s'
      else match split sep s' with
           | [] => [[c]]
           | w :: ws => (c :: w) :: ws
           end
  end.

Fixpoint lstrip (sp : N -> bool) (s : str) : str :=
  match s with
  | [] => []
  | c :: s' => if sp c then lstrip sp s' else s
  end.

Definition strip (sp : N -> bool) (s : str) : str :=
  rev (lstrip sp (rev (lstrip sp s))).

Definition eqb (a b : str) : bool := bool_decide (a = b).

End Str.

(** Code points used by the program. *)
Definition HYPHEN : N := 45.
Definition SPACE : N := 32.
Definition DOT : N := 46.
Definition SOFT_SIGN : N := 1068.   (* the letter U+042C *)
Definition HARD_SIGN : N := 1066.   (* the letter U+042A *)
Definition LETTER_O : N := 1054.    (* the letter U+041E *)

(** ** Name normaliser *)

(** The correction table of [fix_names], in source order. *)
Definition names : list (str * str) :=
  [ (u"БОБОВДОЛ", u"БОБОВ ДОЛ");
    (u"ВЪЛЧИДОЛ", u"ВЪЛЧИ ДОЛ");
    (u"КАПИТАН ПЕТКО ВОЙВО", u"КАПИТАН ПЕТКО ВОЙВОДА");
    (u"ДОБРИЧКА", u"ДОБРИЧ-СЕЛСКА");
    (u"ДОБРИЧ СЕЛСКА", u"ДОБРИЧ-СЕЛСКА");
    (u"БЕРАИНЦИ", u"БЕРАЙНЦИ");
    (u"ФЕЛТФЕБЕЛ ДЕНКОВО", u"ФЕЛДФЕБЕЛ ДЕНКОВО");
    (u"УРУЧОВЦИ", u"УРУЧЕВЦИ");
    (u"ПОЛИКРАЙЩЕ", u"ПОЛИКРАИЩЕ");
    (u"КАМЕШИЦА", u"КАМЕЩИЦА");
    (u"БОГДАНОВДОЛ", u"БОГДАНОВ ДОЛ");
    (u"СИНЬО БЬРДО", u"СИНЬО БЪРДО");
    (u"ЗЕЛЕН ДОЛ", u"ЗЕЛЕНДОЛ");
    (u"МАРИКОСТЕНОВО", u"МАРИКОСТИНОВО");
    (u"САНСТЕФАНО", u"САН-СТЕФАНО");
    (u"САН СТЕФАНО", u"САН-СТЕФАНО");
    (u"ПЕТРОВДОЛ", u"ПЕТРОВ ДОЛ");
    (u"ЧАПАЕВО", u"ЦАРСКИ ИЗВОР");
    (u"ЕЛОВДОЛ", u"ЕЛОВ ДОЛ");
    (u"В. ТЪРНОВО", u"ВЕЛИКО ТЪРНОВО");
    (u"В.ТЪРНОВО", u"ВЕЛИКО ТЪРНОВО");
    (u"ГЕНЕРАЛ-ТОШОВО", u"ГЕНЕРАЛ ТОШЕВО");
    (u"ГЕНЕРАЛ ТОШОВО", u"ГЕНЕРАЛ ТОШЕВО");
    (u"ГЕНЕРАЛ-ТОШЕВО", u"ГЕНЕРАЛ ТОШЕВО");
    (u"БЕДЖДЕНЕ", u"БЕДЖЕНЕ");
    (u"ТАЙМИШЕ", u"ТАЙМИЩЕ");
    (u"СТОЯН ЗАИМОВО", u"СТОЯН-ЗАИМОВО");
    (u"ДАСКАЛ АТАНАСОВО", u"ДАСКАЛ-АТАНАСОВО");
    (u"СЛАВЕИНО", u"СЛАВЕЙНО");
    (u"КРАЛЕВДОЛ", u"КРАЛЕВ ДОЛ");
    (u"ФЕЛДФЕБЕЛ ДЯНКОВО", u"ФЕЛДФЕБЕЛ ДЕНКОВО");
    (u"ДЛЪХЧЕВО САБЛЯР", u"ДЛЪХЧЕВО-САБЛЯР");
    (u"СТОЯН ЗАИМОВО", u"СТОЯН-ЗАИМОВО");
    (u"ГОЛЕМ ВЪРБОВНИК", u"ГОЛЯМ ВЪРБОВНИК");
    (u"ПОЛКОВНИК ЖЕЛЕЗОВО", u"ПОЛКОВНИК ЖЕЛЯЗОВО");
    (u"ДОБРИЧ ГРАД", u"ДОБРИЧ");
    (u"ЦАР ПЕТРОВО", u"ЦАР-ПЕТРОВО");
    (u"ВЪЛЧАНДОЛ", u"ВЪЛЧАН ДОЛ");
    (u"ПАНАГЮРСКИ КОЛОНИ", u"ПАНАГЮРСКИ КОЛОНИИ");
    (u"ГОРСКИ ГОРЕН ТРЪМБЕ", u"ГОРСКИ ГОРЕН ТРЪМБЕШ");
    (u"ГОРСКИ ДОЛЕН ТРЪМБЕ", u"ГОРСКИ ДОЛЕН ТРЪМБЕШ");
    (u"ГЕНЕРАЛ-КАНТАРДЖИЕВ", u"ГЕНЕРАЛ КАНТАРДЖИЕВО");
    (u"ГЕНЕРАЛ КАНТАРДЖИЕВ", u"ГЕНЕРАЛ КАНТАРДЖИЕВО");
    (u"АЛЕКСАНДЪР СТАМБОЛИ", u"АЛЕКСАНДЬР СТАМБОЛИЙСКИ");
    (u"ПОЛКОВНИК-ЛАМБРИНОВ", u"ПОЛКОВНИК ЛАМБРИНОВО");
    (u"ПОЛКОВНИК ЛАМБРИНОВ", u"ПОЛКОВНИК ЛАМБРИНОВО");
    (u"ПОЛКОВНИК-СЕРАФИМОВ", u"ПОЛКОВНИК СЕРАФИМОВО");
    (u"ПОЛКОВНИК СЕРАФИМОВ", u"ПОЛКОВНИК СЕРАФИМОВО") ].

(** [d.get(k, default)] on a dict literal: of two entries with the same key
    the later one is the dict's value. *)
Fixpoint dict_get (d : list (str * str)) (k default : str) : str :=
  match d with
  | [] => default
  | (k', v) :: d' => dict_get d' k (if Str.eqb k' k then v else default)
  end.

Definition fix_names (name : str) : str :=
  let prob_pos := Str.find name [SOFT_SIGN] 0 in
  let new_name :=
    if negb (prob_pos =? -1) then
      let o_pos := Str.find name [LETTER_O] prob_pos in
      if negb (o_pos =? prob_pos + 1)
      then Str.replace SOFT_SIGN HARD_SIGN name
      else name
    else name in
  let new_name :=
    if negb (Str.find new_name [HYPHEN] 0 =? -1)
    then Str.replace HYPHEN SPACE new_name
    else new_name in
  dict_get names new_name new_name.


(** ** Interpreter environment *)

(** What the program takes from the interpreter and its libraries and what
    depends on the Unicode character database: the character classes of the
    [regex] module, [str.isspace] as used by [str.strip], [str.lower] and
    the builtin [int] on strings. *)
Class PyEnv := {
  re_Lu : N -> bool;        (* \p{Lu} *)
  re_Ll : N -> bool;        (* \p{Ll} *)
  re_space : N -> bool;     (* \s *)
  re_digit : N -> bool;     (* \d *)
  isspace : N -> bool;
  lower : str -> str;
  int : str -> outcome Z;
  (* datetime.strptime(s, '%d.%m.%Y'), in microseconds since year 1 *)
  strptime : str -> outcome Z;
  (* whether s.encode('windows-1251') succeeds *)
  windows_1251 : str -> bool;
  (* list(set(xs)) for a list of tuples of three strings: the order in
     which the set is iterated *)
  set_order : list (str * str * str) -> list (str * str * str)
}.

(** ** Regular expressions *)

Module Regex.

(** The patterns of the program are sequences of one-character classes, of
    greedy repetitions of a class, and of capturing groups that are not
    nested. *)
Inductive item :=
| Chr (p : N -> bool)
| Many (p : N -> bool) (lo : nat) (hi : option nat)
| Open
| Close.

Definition only (c : N) : N -> bool := fun x => (x =? c)%N.
Definition lit (s : str) : list item := map (fun c => Chr (only c)) s.
Definition star p := Many p 0 None.
Definition plus p := Many p 1 None.
Definition exactly n p := Many p n (Some n).
Definition group (r : list item) : list item := Open :: r ++ [Close].
Fixpoint times (n : nat) (r : list item) : list item :=
  match n with
  | O => []
  | S n' => r ++ times n' r
  end.

(** Greedy repetition with backtracking: one more character is taken first,
    and the continuation [k] is tried on what is left only when that fails. *)
Fixpoint greedy {R} (p : N -> bool) (lo : nat) (hi : option nat)
    (k : str -> option R) (s : str) : option R :=
  let stop := match lo with O => k s | S _ => None end in
  match s with
  | [] => stop
  | c :: s' =>
      if p c && negb (bool_decide (hi = Some O))
      then match greedy p (Nat.pred lo) (Nat.pred <$> hi) k s' with
           | Some r => Some r
           | None => stop
           end
      else stop
  end.

(** [run r opened caps s]: match [r] at the start of [s]; [opened] holds the
    input at the opening of the groups not yet closed, and [caps] the text of
    the groups closed so far, in order. *)
Fixpoint run (r : list item) (opened : list str) (caps : list str) (s : str)
    : option (list str) :=
  match r with
  | [] => Some caps
  | Chr p :: r' =>
      match s with
      | c :: s' => if p c then run r' opened caps s' else None
      | [] => None
      end
  | Many p lo hi :: r' => greedy p lo hi (run r' opened caps) s
  | Open :: r' => run r' (s :: opened) caps s
  | Close :: r' =>
      match opened with
      | o :: os => run r' os (caps ++ [take (length o - length s) o]) s
      | [] => None
      end
  end.

(** [regex.search(r, s)]: the match at the leftmost position that has one;
    [None] when there is none. The result holds groups 1, 2, ... *)
Fixpoint search (r : list item) (s : str) : option (list str) :=
  match run r [] [] s with
  | Some caps => Some caps
  | None => match s with
            | [] => None
            | _ :: s' => search r s'
            end
  end.

(** [m.group(i)] for [i >= 1]. *)
Definition group_text (m : list str) (i : nat) : outcome str :=
  match m !! (i - 1)%nat with
  | Some g => Returns g
  | None => Raises IndexError
  end.

End Regex.

(** ** Type declarations *)

Inductive HeaderEnum := Old | New.
Inductive TableTypeEnum := Quarterly | Yearly.

(** [HeaderEnum(b)] for a boolean [b]: [False] is 0 and [True] is 1. *)
Definition HeaderEnum_of_bool (b : bool) : HeaderEnum := if b then New else Old.

Record DataTuple (A : Type) := mkDataTuple {
  data : A;
  header_type : HeaderEnum;
  table_type : TableTypeEnum
}.
Arguments mkDataTuple {A} _ _ _.
Arguments data {A} _.
Arguments header_type {A} _.
Arguments table_type {A} _.

Record MunicipalityIdentifier := mkMunicipalityIdentifier {
  region : str;
  municipality : str
}.

Record SettlementInfo := mkSettlementInfo {
  name : str;
  permanent_residents : str;
  current_residents : str
}.

Record FullSettlementInfo := mkFullSettlementInfo {
  fsi_region : str;
  fsi_municipality : str;
  fsi_settlement : str;
  fsi_permanent_residents : str;
  fsi_current_residents : str
}.

#[global] Instance FullSettlementInfo_eq_dec : EqDecision FullSettlementInfo.
Proof. solve_decision. Defined.

(** A dict whose iteration order the program relies on: its items in
    insertion order, keys distinct. *)
Definition dict_set {K V} `{EqDecision K} (d : list (K * V)) (k : K) (v : V)
    : list (K * V) :=
  if bool_decide (k ∈ d.*1)
  then map (fun kv => if bool_decide (kv.1 = k) then (k, v) else kv) d
  else d ++ [(k, v)].

Definition dict_item {K V} `{EqDecision K} (d : list (K * V)) (k : K)
    : outcome V :=
  match list_find (fun kv => kv.1 = k) d with
  | Some (_, (_, v)) => Returns v
  | None => Raises KeyError
  end.

Record ParsedLines := mkParsedLines {
  municipality_ids : list (Z * MunicipalityIdentifier);
  settlements_info : list (Z * SettlementInfo)
}.

(** ** RegexPatternWrapper *)

Module RegexPatternWrapper.
Section Patterns.
Context `{PyEnv}.
Import Regex.

Definition cap_letter := re_Lu.
Definition low_letter := re_Ll.
(* [\||\!]\s* *)
Definition separator : list item :=
  [Chr (fun c => only 124 c || only 33 c); star re_space].
Definition number : list item := [plus re_digit].

Definition year_group : list item := group [exactly 4 re_digit].
Definition date_group : list item :=
  group ([exactly 2 re_digit] ++ lit [HYPHEN] ++ [exactly 4 re_digit]).
Definition full_date_group : list item :=
  group ([exactly 2 re_digit] ++ lit [HYPHEN] ++ [exactly 2 re_digit]
         ++ lit [HYPHEN] ++ [exactly 4 re_digit]).

(* [\s|-]*\p{Lu}* *)
Definition name_part : list item :=
  [star (fun c => re_space c || only 124 c || only HYPHEN c); star cap_letter].
(* [\.|\s|-]\p{Lu}* *)
Definition name_part_old : list item :=
  [Chr (fun c => only DOT c || only 124 c || re_space c || only HYPHEN c);
   star cap_letter].
(* \p{Lu}{1,2}\. *)
Definition type_abbr : list item := [Many cap_letter 1 (Some 2%nat); Chr (only DOT)].
Definition name : list item := plus cap_letter :: times 3 name_part.
Definition name_old : list item := plus cap_letter :: times 3 name_part_old.
Definition word : list item := [plus low_letter].
Definition number_group : list item :=
  separator ++ group number ++ [star re_space].

Definition old_reg : list item := lit (u"ОБЛАСТ:") ++ group name_old.
Definition old_mun : list item := lit (u"ОБЩИНА:") ++ group name_old.
Definition region_name_new : list item :=
  word ++ lit [SPACE] ++ group name ++ lit [SPACE] ++ word ++ lit [SPACE]
       ++ group name.
Definition settlement_info_quarterly : list item :=
  group (type_abbr ++ name) ++ [star re_space] ++ times 3 number_group.
Definition settlement_info_yearly : list item :=
  group (type_abbr ++ name) ++ [star re_space] ++ times 6 number_group.

End Patterns.
End RegexPatternWrapper.

(** ** Layout classifier *)

Section Classifier.
Context `{PyEnv}.

(** [Configuration._data_tuple_from_entry]; [None] is the value of a call
    that reaches the end of the body. *)
Definition _data_tuple_from_entry (entry : str)
    : outcome (option (DataTuple str)) :=
  if bool_decide (Regex.search RegexPatternWrapper.date_group entry ≠ None)
  then Returns (Some (mkDataTuple entry New Quarterly))
  else
    match Regex.search RegexPatternWrapper.year_group entry with
    | Some date =>
        g ← Regex.group_text date 1;
        y ← int g;
        Returns (Some (mkDataTuple entry (HeaderEnum_of_bool (2005 <? y)) Yearly))
    | None => Returns None
    end.

(** [Configuration.process_data_configuration] on [self.data]. *)
Fixpoint process_data_configuration (entries : list str)
    : outcome (list (option (DataTuple str))) :=
  match entries with
  | [] => Returns []
  | entry :: rest =>
      t ← _data_tuple_from_entry entry;
      output ← process_data_configuration rest;
      Returns (t :: output)
  end.

End Classifier.

(** ** Table parser *)

Section TableParser.
Context `{PyEnv}.

(** [parse_data_line], nested in [parse_lines]. *)
Definition parse_data_line (line : str) (table_type : TableTypeEnum)
    : outcome (option SettlementInfo) :=
  let '(settlement_info_re, permanent_population_position,
        current_population_position) :=
    match table_type with
    | Quarterly => (RegexPatternWrapper.settlement_info_quarterly, 2%nat, 3%nat)
    | Yearly => (RegexPatternWrapper.settlement_info_yearly, 2%nat, 6%nat)
    end in
  match Regex.search settlement_info_re line with
  | Some settlement_info =>
      name ← Regex.group_text settlement_info 1;
      permanent ← Regex.group_text settlement_info permanent_population_position;
      current ← Regex.group_text settlement_info current_population_position;
      let name_parts := Str.split DOT name in
      match name_parts !! 0%nat, name_parts !! 1%nat with
      | Some abbr, Some rest =>
          let name := abbr ++ [DOT; SPACE] ++ fix_names rest in
          Returns (Some (mkSettlementInfo (Str.strip isspace name) permanent current))
      | _, _ => Raises IndexError
      end
  | None => Returns None
  end.

(** [parse_header_line], nested in [parse_lines]. Its function attribute
    [region] is the first component of the state: the match of the region
    line that waits for its municipality line, or [None]. *)
Definition parse_header_line (region_attr : option (list str)) (line : str)
    (header_type : HeaderEnum)
    : outcome (option MunicipalityIdentifier) * option (list str) :=
  match header_type with
  | New =>
      match Regex.search RegexPatternWrapper.region_name_new line with
      | Some region_gr =>
          (region ← Regex.group_text region_gr 1;
           municipality ← Regex.group_text region_gr 2;
           Returns (Some (mkMunicipalityIdentifier (Str.strip isspace region)
                            (Str.strip isspace municipality))),
           region_attr)
      | None => (Returns None, region_attr)
      end
  | Old =>
      match region_attr with
      | None => (Returns None, Regex.search RegexPatternWrapper.old_reg line)
      | Some region_match =>
          match Regex.search RegexPatternWrapper.old_mun line with
          | Some mun_gr =>
              (region ← Regex.group_text region_match 1;
               municipality ← Regex.group_text mun_gr 1;
               Returns (Some (mkMunicipalityIdentifier
                                (fix_names (Str.strip isspace region))
                                (fix_names (Str.strip isspace municipality)))),
               None)
          | None => (Returns None, None)
          end
      end
  end.

(** The loop of [parse_lines] over [enumerate(data_tuple.data)], from line
    number [line_num]. *)
Fixpoint parse_lines_loop (lines : list str) (line_num : Z)
    (header_type : HeaderEnum) (table_type : TableTypeEnum)
    (region_attr : option (list str))
    (municipality_ids : list (Z * MunicipalityIdentifier))
    (settlements_info : list (Z * SettlementInfo)) : outcome ParsedLines :=
  match lines with
  | [] => Returns (mkParsedLines municipality_ids settlements_info)
  | line :: rest =>
      let '(municipality_id, region_attr') :=
        parse_header_line region_attr line header_type in
      municipality_id ← municipality_id;
      match municipality_id with
      | Some id =>
          parse_lines_loop rest (line_num + 1) header_type table_type
            region_attr' (dict_set municipality_ids line_num id) settlements_info
      | None =>
          settlement_info ← parse_data_line line table_type;
          match settlement_info with
          | Some info =>
              parse_lines_loop rest (line_num + 1) header_type table_type
                region_attr' municipality_ids
                (dict_set settlements_info line_num info)
          | None =>
              parse_lines_loop rest (line_num + 1) header_type table_type
                region_attr' municipality_ids settlements_info
          end
      end
  end.

(** [parse_lines]: the decorator sets the attribute [region] to [None] each
    time the nested function is defined. *)
Definition parse_lines (data_tuple : DataTuple (list str))
    : outcome (DataTuple ParsedLines) :=
  parsed ← parse_lines_loop (data data_tuple) 0 (header_type data_tuple)
             (table_type data_tuple) None [] [];
  Returns (mkDataTuple parsed (header_type data_tuple) (table_type data_tuple)).

End TableParser.

(** ** Record assembler *)

(** The [while] loop of [parssed_lines_to_full_info_list] for one pair of
    headers. [keys_from] is [settlement_keys[sk_index:]]: the loop test reads
    [settlement_keys[sk_index]], which raises when the slice is empty. *)
Fixpoint attach_while (regions : list (Z * MunicipalityIdentifier))
    (settlements_info : list (Z * SettlementInfo))
    (current_mun next_mun : Z) (keys_from : list Z) (sk_index : nat)
    (full_name_settlement_infos : list FullSettlementInfo)
    : outcome (nat * list FullSettlementInfo) :=
  match keys_from with
  | [] => Raises IndexError
  | k :: keys_from' =>
      if (current_mun <? k) && (k <? next_mun) then
        reg ← dict_item regions current_mun;
        set_info ← dict_item settlements_info k;
        let fnsi := mkFullSettlementInfo (fix_names (region reg))
                      (fix_names (municipality reg))
                      (fix_names (name set_info))
                      (permanent_residents set_info)
                      (current_residents set_info) in
        attach_while regions settlements_info current_mun next_mun keys_from'
          (S sk_index) (full_name_settlement_infos ++ [fnsi])
      else Returns (sk_index, full_name_settlement_infos)
  end.

(** The [for] loop over [reg_keys_pairs]. *)
Fixpoint attach_for (regions : list (Z * MunicipalityIdentifier))
    (settlements_info : list (Z * SettlementInfo))
    (settlement_keys : list Z) (reg_keys_pairs : list (Z * Z))
    (sk_index : nat) (full_name_settlement_infos : list FullSettlementInfo)
    : outcome (nat * list FullSettlementInfo) :=
  match reg_keys_pairs with
  | [] => Returns (sk_index, full_name_settlement_infos)
  | (current_mun, next_mun) :: pairs =>
      '(sk_index', infos) ←
        attach_while regions settlements_info current_mun next_mun
          (drop sk_index settlement_keys) sk_index full_name_settlement_infos;
      attach_for regions settlements_info settlement_keys pairs sk_index' infos
  end.

(** [zip(reg_keys[:-1], reg_keys[1:])]. *)
Definition reg_keys_pairs (reg_keys : list Z) : list (Z * Z) :=
  zip (take (length reg_keys - 1) reg_keys) (drop 1 reg_keys).

(** The body of [parssed_lines_to_full_info_list] with the final value of
    the cursor [sk_index] kept beside the list. *)
Definition attach_all (pl : ParsedLines)
    : outcome (nat * list FullSettlementInfo) :=
  let regions := municipality_ids pl in
  let settlements_info := settlements_info pl in
  let reg_keys := regions.*1 in
  let settlement_keys := settlements_info.*1 in
  attach_for regions settlements_info settlement_keys
    (reg_keys_pairs reg_keys) 0 [].

Definition parssed_lines_to_full_info_list (data_tuple : DataTuple ParsedLines)
    : outcome (DataTuple (list FullSettlementInfo)) :=
  '(_, full_name_settlement_infos) ← attach_all (data data_tuple);
  Returns (mkDataTuple full_name_settlement_infos (header_type data_tuple)
             (table_type data_tuple)).

(** ** An environment for Basic Latin and Cyrillic text *)

Module BgEnv.

Definition between (lo hi c : N) : bool := ((lo <=? c) && (c <=? hi))%N.

Definition upper_letter (c : N) : bool := between 65 90 c || between 1024 1071 c.
Definition lower_letter (c : N) : bool := between 97 122 c || between 1072 1119 c.
Definition white (c : N) : bool := between 9 13 c || (c =? 32)%N.
Definition white_or_separator (c : N) : bool := white c || between 28 31 c.
Definition digit (c : N) : bool := between 48 57 c.

Definition lower_char (c : N) : N :=
  if between 65 90 c || between 1040 1071 c then (c + 32)%N
  else if between 1024 1039 c then (c + 80)%N
  else c.

(** [int] on a string of decimal digits. *)
Definition int_digits (s : str) : outcome Z :=
  if bool_decide (s ≠ []) && forallb digit s
  then Returns (fold_left (fun acc c => 10 * acc + (Z.of_N c - 48)) s 0)
  else Raises ValueError.

Definition number (s : str) : option Z :=
  if bool_decide (s ≠ []) && forallb digit s
  then Some (fold_left (fun acc c => 10 * acc + (Z.of_N c - 48)) s 0)
  else None.

Definition leap (y : Z) : bool :=
  ((y mod 4 =? 0) && negb (y mod 100 =? 0)) || (y mod 400 =? 0).

Definition days_in_month (y m : Z) : Z :=
  if m =? 2 then (if leap y then 29 else 28)
  else if (m =? 4) || (m =? 6) || (m =? 9) || (m =? 11) then 30
  else 31.

(** Days from 1 January of year 1 to the first day of month [m] of year [y]. *)
Definition days_before (y m : Z) : Z :=
  let y' := y - 1 in
  365 * y' + y' / 4 - y' / 100 + y' / 400
  + fold_left (fun acc k => acc + days_in_month y (Z.of_nat k)) (seq 1 (Z.to_nat (m - 1))) 0.

(** Dates written [dd.mm.yyyy]. *)
Definition parse_date (s : str) : outcome Z :=
  match Str.split DOT s with
  | [d; m; y] =>
      match number d, number m, number y with
      | Some d, Some m, Some y =>
          if (1 <=? m) && (m <=? 12) && (1 <=? d) && (d <=? days_in_month y m)
             && (1 <=? y) && (y <=? 9999)
          then Returns ((days_before y m + d - 1) * 86400000000)
          else Raises ValueError
      | _, _, _ => Raises ValueError
      end
  | _ => Raises ValueError
  end.

Definition cp1251 (c : N) : bool := (c <? 128)%N || between 1025 1119 c.

Definition env : PyEnv := {|
  re_Lu := upper_letter;
  re_Ll := lower_letter;
  re_space := white;
  re_digit := digit;
  isspace := white_or_separator;
  lower := map lower_char;
  int := int_digits;
  strptime := parse_date;
  windows_1251 := forallb cp1251;
  set_order := remove_dups
|}.

End BgEnv.

(** ** Settlement disambiguation pipeline *)

(** A settlement key: the normalised (region, municipality, settlement). *)
Abbreviation triple := (str * str * str)%type.

Record SettlementDataTuple (A : Type) := mkSettlementDataTuple {
  sdt_key : triple;
  sdt_data : A
}.
Arguments mkSettlementDataTuple {A} _ _.
Arguments sdt_key {A} _.
Arguments sdt_data {A} _.

(** A [datetime], in microseconds since the first instant of year 1. *)
Abbreviation datetime := Z.

Record SettlementNamesData := mkSettlementNamesData {
  snd_name : list str;
  snd_first : datetime;
  snd_last : datetime
}.

(** The candidates of one query: for each code, in the order of the
    response, its name records. *)
Abbreviation candidates := (list (str * list SettlementNamesData)).

Section Matching.
Context `{PyEnv}.

(** [full_name[2].split('.')[-1].strip().lower() == key[2].lower()] *)
Definition settlement_matches (part3 : str) (key : triple) : bool :=
  Str.eqb (lower (Str.strip isspace (List.last (Str.split DOT part3) [])))
          (lower key.2).

(** The three tests of one [all([...])]: the list is built before [all]
    looks at it, so each of the three name parts is read. *)
Definition all_tests (full_name : list str) (region_term : str) (key : triple)
    : outcome bool :=
  match full_name !! 0%nat, full_name !! 1%nat, full_name !! 2%nat with
  | Some part1, Some part2, Some part3 =>
      Returns (negb (Str.find (lower part1) region_term 0 =? -1)
               && negb (Str.find (lower part2) (lower key.1.2) 0 =? -1)
               && settlement_matches part3 key)
  | _, _, _ => Raises IndexError
  end.

(** The body of the inner loop of [mach_key_with_code] for one name record:
    the entries appended to [result_list]. *)
Definition match_record (key : triple) (code : str) (name_data : SettlementNamesData)
    : outcome (list (datetime * SettlementDataTuple str)) :=
  let full_name := snd_name name_data in
  let hit := [(snd_last name_data, mkSettlementDataTuple key code)] in
  let fallback (term : str) : outcome (list (datetime * SettlementDataTuple str)) :=
    ok ← all_tests full_name term key;
    Returns (if ok : bool then hit else []) in
  ok ← all_tests full_name (lower key.1.1) key;
  if ok : bool then Returns hit
  else if Str.eqb (lower key.1.1) (lower (u"СОФИЙСКА")) then fallback (u"софия")
  else if Str.eqb (lower key.1.1) (lower (u"СМОЛЯН")) then fallback (u"пловдивска")
  else if Str.eqb (lower key.1.1) (lower (u"ПАЗАРДЖИК")) then fallback (u"пазарджишки")
  else Returns [].

Fixpoint match_names (key : triple) (code : str)
    (names_list : list SettlementNamesData)
    : outcome (list (datetime * SettlementDataTuple str)) :=
  match names_list with
  | [] => Returns []
  | name_data :: rest =>
      found ← match_record key code name_data;
      more ← match_names key code rest;
      Returns (found ++ more)
  end.

(** [result_list] after the two loops over [data_dict.items()]. *)
Fixpoint result_list (key : triple) (data_dict : candidates)
    : outcome (list (datetime * SettlementDataTuple str)) :=
  match data_dict with
  | [] => Returns []
  | (code, names_list) :: rest =>
      found ← match_names key code names_list;
      more ← result_list key rest;
      Returns (found ++ more)
  end.

(** [mach_key_with_code]. The statement [sorted(result_list)] builds a sorted
    copy that is not bound to anything: [result_list] keeps its order, and
    [result_list[-1]] is the entry appended last. *)
Definition mach_key_with_code (settlement : SettlementDataTuple candidates)
    : outcome (option (SettlementDataTuple str)) :=
  let key := sdt_key settlement in
  let data_dict := sdt_data settlement in
  result_list ← result_list key data_dict;
  match List.last (Some <$> result_list) None with
  | Some entry => Returns (Some entry.2)
  | None => Returns None
  end.

End Matching.

(** ** Data frames *)

(** A value of a column of objects. *)
Inductive cell :=
| CStr (s : str)
| CInt (z : Z)
| CNaN.

#[global] Instance cell_eq_dec : EqDecision cell.
Proof. solve_decision. Defined.

(** The frame of one period as [process_data] leaves it: indexed by
    (region, municipality, settlement), with the two columns
    [permanent_<date_string>] and [current_<date_string>]; a row is the
    index entry with its two values. *)
Record PeriodFrame := mkPeriodFrame {
  pf_date_string : str;
  pf_rows : list FullSettlementInfo
}.

(** The frame of one period as [disambiguate_data] leaves it: indexed by
    [ekatte], with the columns region, municipality, settlement and the two
    count columns. *)
Record CodedFrame := mkCodedFrame {
  cf_date_string : str;
  cf_rows : list (str * FullSettlementInfo)
}.

(** A frame indexed by [ekatte] with any columns. *)
Record WideFrame := mkWideFrame {
  columns : list str;
  wf_rows : list (str * list cell)
}.

(** ** The world outside the program *)

(** A page of the directory service as the parser sees it: its tables in
    document order, each with its rows, each row with the text of its
    cells. *)
Abbreviation page := (list (list (list str))).

Record Response := mkResponse {
  status_code : Z;
  text : page
}.

(** The files of [PickleWrapper], by name; [None] for a file that does not
    exist. *)
Record Pickled := mkPickled {
  triple_to_ekatte : option (gmap triple str);
  ekatte_to_triple : option (gmap str triple);
  failiures : option (gset triple);
  data_frames_list : option (list (DataTuple PeriodFrame));
  data_frames_list_disambiguated : option (list (DataTuple CodedFrame));
  combined_tables : option WideFrame
}.

Record World := mkWorld {
  (* the directory service: its answer to the n-th request, for the name sent *)
  nsi : nat -> str -> Response;
  (* the table site: the lines of the document at a URL *)
  grao : str -> list str;
  (* the names sent to the directory service, the latest last *)
  requested : list str;
  (* the arguments of time.sleep, the latest last *)
  slept : list Z;
  pickled : Pickled;
  (* the files written by to_csv: per period, and combined *)
  csv_tables : list (str * CodedFrame);
  csv_combined : option WideFrame
}.

(** A computation that reads and changes the world and may raise. *)
Definition M (A : Type) : Type := World -> outcome A * World.

#[global] Instance M_ret : MRet M := fun A a w => (Returns a, w).

#[global] Instance M_bind : MBind M := fun A B f m w =>
  match m w with
  | (Returns a, w') => f a w'
  | (Raises e, w') => (Raises e, w')
  end.

Definition lift {A} (o : outcome A) : M A := fun w => (o, w).
Definition raise {A} (e : exn) : M A := lift (Raises e).
Definition get_world : M World := fun w => (Returns w, w).
Definition put_world (w : World) : M unit := fun _ => (Returns tt, w).

(** [try: body except ValueError: handler] *)
Definition try_except_ValueError {A} (body handler : M A) : M A := fun w =>
  match body w with
  | (Raises ValueError, w') => handler w'
  | r => r
  end.

(** The world after the program has slept, and after it has sent requests. *)
Definition after_sleeps (seconds : list Z) (w : World) : World :=
  mkWorld (nsi w) (grao w) (requested w) (slept w ++ seconds) (pickled w)
    (csv_tables w) (csv_combined w).

Definition after_requests (names : list str) (w : World) : World :=
  mkWorld (nsi w) (grao w) (requested w ++ names) (slept w) (pickled w)
    (csv_tables w) (csv_combined w).

(** [time.sleep(seconds)] *)
Definition sleep (seconds : Z) : M unit := fun w =>
  (Returns tt, after_sleeps [seconds] w).

Definition set_pickled (f : Pickled -> Pickled) : M unit := fun w =>
  (Returns tt,
   mkWorld (nsi w) (grao w) (requested w) (slept w) (f (pickled w))
     (csv_tables w) (csv_combined w)).

(** [fetch_raw_data] on the URL of the directory service for [name]. *)
Definition fetch_nsi (name : str) : M Response := fun w =>
  (Returns (nsi w (length (requested w)) name), after_requests [name] w).

Section Disambiguation.
Context `{PyEnv}.

(** The name that [fetch_raw_settlement_data] sends: the part after the
    first hyphen when there is one; a name that cannot be encoded raises
    [UnicodeEncodeError], which is a [ValueError]. *)
Definition request_name (settlement : SettlementDataTuple str) : outcome str :=
  let name := sdt_data settlement in
  name ← (if negb (Str.find name [HYPHEN] 0 =? -1)
          then match Str.split HYPHEN name !! 1%nat with
               | Some part => Returns part
               | None => Raises IndexError
               end
          else Returns name);
  if windows_1251 name then Returns name else Raises ValueError.

Definition fetch_raw_settlement_data (settlement : SettlementDataTuple str)
    : M (SettlementDataTuple Response) :=
  name ← lift (request_name settlement);
  req ← fetch_nsi name;
  if negb (status_code req =? 200) then raise ValueError
  else mret (mkSettlementDataTuple (sdt_key settlement) req).

Definition datetime_max : datetime := 3652059 * 86400000000 - 1.

(** [data[last_key].append(x)] on a [defaultdict(list)]. *)
Definition dict_append (data : candidates) (k : str) (x : SettlementNamesData)
    : candidates :=
  if bool_decide (k ∈ data.*1)
  then map (fun kv => if bool_decide (kv.1 = k) then (k, kv.2 ++ [x]) else kv) data
  else data ++ [(k, [x])].

(** The loop of [parse_raw_settlement_data] over the rows of the table. *)
Fixpoint parse_rows (oldest_record_date : datetime) (rows : list (list str))
    (last_key : str) (data : candidates) : outcome candidates :=
  match rows with
  | [] => Returns data
  | cells :: rest =>
      match cells with
      | [c0; _] => parse_rows oldest_record_date rest c0 data
      | [_; c1; c2] =>
          let dates := Str.split HYPHEN c2 in
          start ← match dates !! 0%nat with
                  | Some d => strptime (Str.strip isspace d)
                  | None => Raises IndexError
                  end;
          d1 ← match dates !! 1%nat with
               | Some d => Returns (Str.strip isspace d)
               | None => Raises IndexError
               end;
          end_ ← (if bool_decide (d1 ≠ []) then strptime d1
                  else Returns datetime_max);
          let name_tuple := map (Str.strip isspace) (rev (Str.split 44 c1)) in
          if (oldest_record_date <? end_) && (2 <? Z.of_nat (length name_tuple))
          then parse_rows oldest_record_date rest last_key
                 (dict_append data last_key
                    (mkSettlementNamesData name_tuple start end_))
          else parse_rows oldest_record_date rest last_key data
      | _ => parse_rows oldest_record_date rest last_key data
      end
  end.

Definition parse_raw_settlement_data (settlement : SettlementDataTuple Response)
    : outcome (SettlementDataTuple candidates) :=
  let req := sdt_data settlement in
  let tables := text req in
  (* soup.find_all('table')[-4] *)
  table ← (if bool_decide (4 ≤ length tables)%nat
           then match tables !! (length tables - 4)%nat with
                | Some t => Returns t
                | None => Raises IndexError
                end
           else Raises IndexError);
  oldest_record_date ← strptime (u"31.12.1899");
  data ← parse_rows oldest_record_date (drop 2 table) [] [];
  Returns (mkSettlementDataTuple (sdt_key settlement) data).

(** The pipeline that [main] stores under ['settlement_disambiguation']. *)
Definition settlement_disambiguation (settlement : SettlementDataTuple str)
    : M (option (SettlementDataTuple str)) :=
  fetched ← fetch_raw_settlement_data settlement;
  parsed ← lift (parse_raw_settlement_data fetched);
  lift (mach_key_with_code parsed).

(** What the pipeline makes of a response that it has fetched. *)
Definition resolve_response (key : triple) (req : Response)
    : outcome (option (SettlementDataTuple str)) :=
  parsed ← parse_raw_settlement_data (mkSettlementDataTuple key req);
  mach_key_with_code parsed.

End Disambiguation.

(** ** Data processing pipeline *)

Section Processing.
Context `{PyEnv}.

(** [fetch_raw_table] followed by [raw_table_to_lines]. *)
Definition raw_table_lines (data_tuple : DataTuple str) : M (DataTuple (list str)) :=
  w ← get_world;
  mret (mkDataTuple (grao w (data data_tuple)) (header_type data_tuple)
          (table_type data_tuple)).

(** [full_info_list_to_data_frame]: a frame built from an empty list has no
    columns, and [set_index] raises on the missing ones. *)
Definition full_info_list_to_data_frame
    (data_tuple : DataTuple (list FullSettlementInfo))
    : outcome (DataTuple (list FullSettlementInfo)) :=
  match data data_tuple with
  | [] => Raises KeyError
  | _ => Returns data_tuple
  end.

(** The pipeline that [main] stores under ['table_parsing']. *)
Definition table_parsing (data_tuple : DataTuple str)
    : M (DataTuple (list FullSettlementInfo)) :=
  lines ← raw_table_lines data_tuple;
  parsed ← lift (parse_lines lines);
  infos ← lift (parssed_lines_to_full_info_list parsed);
  lift (full_info_list_to_data_frame infos).

(** The loop of [process_data]. An entry of [data_source] is [None] when the
    classifier returned nothing for it. *)
Fixpoint process_data_loop
    (parsing_pipeline : DataTuple str -> M (DataTuple (list FullSettlementInfo)))
    (data_source : list (option (DataTuple str)))
    (data_frame_list : list (DataTuple PeriodFrame))
    : M (list (DataTuple PeriodFrame)) :=
  match data_source with
  | [] => mret data_frame_list
  | None :: _ => raise AttributeError        (* data_tuple.table_type *)
  | Some data_tuple :: rest =>
      let date_group :=
        match table_type data_tuple with
        | Quarterly => RegexPatternWrapper.date_group
        | Yearly => RegexPatternWrapper.year_group
        end in
      date_string ← lift (match Regex.search date_group (data data_tuple) with
                          | Some m => g ← Regex.group_text m 1;
                                      Returns (Str.replace HYPHEN 95 g)
                          | None => Raises AttributeError
                          end);
      frame ← parsing_pipeline data_tuple;
      process_data_loop parsing_pipeline rest
        (data_frame_list ++
           [mkDataTuple (mkPeriodFrame date_string (data frame))
              (header_type data_tuple) (table_type data_tuple)])
  end.

Definition process_data
    (parsing_pipeline : DataTuple str -> M (DataTuple (list FullSettlementInfo)))
    (data_source : list (option (DataTuple str)))
    : M (list (DataTuple PeriodFrame)) :=
  data_frame_list ← process_data_loop parsing_pipeline data_source [];
  _ ← set_pickled (fun p =>
        mkPickled (triple_to_ekatte p) (ekatte_to_triple p) (failiures p)
          (Some data_frame_list) (data_frames_list_disambiguated p)
          (combined_tables p));
  mret data_frame_list.

(** The local variables of the first loop of [disambiguate_data]; [val] is
    [None] while the name is not bound. *)
Record Locals := mkLocals {
  processed_sdts : gmap triple str;
  reverse_dict : gmap str triple;
  failed : gset triple;
  val : option (option (SettlementDataTuple str))
}.

(** The key built from an index entry (region, municipality, settlement). *)
Definition key_of_name (name : triple) : outcome triple :=
  match Str.split DOT name.2 !! 1%nat with
  | Some tail =>
      Returns (fix_names (Str.strip isspace name.1.1),
               fix_names (Str.strip isspace name.1.2),
               fix_names (Str.strip isspace tail))
  | None => Raises IndexError
  end.

Definition index_values (frame : PeriodFrame) : list triple :=
  (fun r => (fsi_region r, fsi_municipality r, fsi_settlement r))
    <$> pf_rows frame.

Fixpoint sdts_of_names (names : list triple)
    : outcome (list (SettlementDataTuple str * triple)) :=
  match names with
  | [] => Returns []
  | name :: rest =>
      key ← key_of_name name;
      more ← sdts_of_names rest;
      Returns ((mkSettlementDataTuple key key.2, name) :: more)
  end.

Definition sdt_list_of (data_frame_list : list (DataTuple PeriodFrame))
    : outcome (list (SettlementDataTuple str * triple)) :=
  sdts_of_names (set_order (concat (map (fun dt => index_values (data dt))
                                        data_frame_list))).

(** The nested [try] statements: up to four calls of the pipeline. *)
Definition attempts
    (pipeline : SettlementDataTuple str -> M (option (SettlementDataTuple str)))
    (sdt : SettlementDataTuple str) : M (option (SettlementDataTuple str)) :=
  try_except_ValueError (pipeline sdt)
    (_ ← sleep 10;
     try_except_ValueError (pipeline sdt)
       (_ ← sleep 15;
        try_except_ValueError (pipeline sdt)
          (_ ← sleep 20;
           pipeline sdt))).

Definition pickle_maps (processed : gmap triple str) : M unit :=
  set_pickled (fun p =>
    mkPickled (Some processed) (ekatte_to_triple p) (failiures p)
      (data_frames_list p) (data_frames_list_disambiguated p) (combined_tables p)).

Definition pickle_reverse (reverse : gmap str triple) : M unit :=
  set_pickled (fun p =>
    mkPickled (triple_to_ekatte p) (Some reverse) (failiures p)
      (data_frames_list p) (data_frames_list_disambiguated p) (combined_tables p)).

(** The [finally] block, run with the value of [val] at that point. *)
Definition finally_block (l : Locals) (sdt : SettlementDataTuple str * triple)
    : M Locals :=
  match val l with
  | None => raise UnboundLocalError
  | Some (Some v) =>
      let processed := <[sdt_key v := sdt_data v]> (processed_sdts l) in
      _ ← pickle_maps processed;
      let reverse := <[sdt_data v := sdt.2]> (reverse_dict l) in
      _ ← pickle_reverse reverse;
      mret (mkLocals processed reverse (failed l) (val l))
  | Some None =>
      mret (mkLocals (processed_sdts l) (reverse_dict l)
              ({[sdt_key sdt.1]} ∪ failed l) (val l))
  end.

(** Whether the loop passes over an entry without resolving it. *)
Definition already_resolved (l : Locals) (key : triple) : bool :=
  match processed_sdts l !! key with
  | Some code => bool_decide (is_Some (reverse_dict l !! code))
  | None => false
  end.

(** One iteration of the first loop of [disambiguate_data]. *)
Definition disambiguate_step
    (pipeline : SettlementDataTuple str -> M (option (SettlementDataTuple str)))
    (l : Locals) (sdt : SettlementDataTuple str * triple) : M Locals :=
  if already_resolved l (sdt_key sdt.1) then mret l
  else fun w =>
    match attempts pipeline sdt.1 w with
    | (Returns v, w') =>
        finally_block (mkLocals (processed_sdts l) (reverse_dict l) (failed l)
                         (Some v)) sdt w'
    | (Raises e, w') =>
        (* the exception is raised again after the block, unless the block
           raises one itself *)
        match finally_block l sdt w' with
        | (Returns _, w'') => (Raises e, w'')
        | (Raises e', w'') => (Raises e', w'')
        end
    end.

Fixpoint disambiguate_loop
    (pipeline : SettlementDataTuple str -> M (option (SettlementDataTuple str)))
    (l : Locals) (sdt_list : list (SettlementDataTuple str * triple)) : M Locals :=
  match sdt_list with
  | [] => mret l
  | sdt :: rest =>
      l' ← disambiguate_step pipeline l sdt;
      disambiguate_loop pipeline l' rest
  end.

(** The statements of [disambiguate_data] up to the pickling of the
    failures, for a given [sdt_list]. *)
Definition resolve_all
    (pipeline : SettlementDataTuple str -> M (option (SettlementDataTuple str)))
    (sdt_list : list (SettlementDataTuple str * triple)) : M Locals :=
  w ← get_world;
  let processed_sdts := default ∅ (triple_to_ekatte (pickled w)) in
  let reverse_dict := default ∅ (ekatte_to_triple (pickled w)) in
  l ← disambiguate_loop pipeline (mkLocals processed_sdts reverse_dict ∅ None)
        sdt_list;
  _ ← set_pickled (fun p =>
        mkPickled (triple_to_ekatte p) (ekatte_to_triple p) (Some (failed l))
          (data_frames_list p) (data_frames_list_disambiguated p)
          (combined_tables p));
  mret l.

(** [updt]: a row with the value looked up for its [ekatte] column. *)
Definition updt (processed_sdts : gmap triple str) (x : FullSettlementInfo)
    : outcome (FullSettlementInfo * option str) :=
  key ← key_of_name (fsi_region x, fsi_municipality x, fsi_settlement x);
  Returns (x, processed_sdts !! key).

Fixpoint updt_all (processed_sdts : gmap triple str) (rows : list FullSettlementInfo)
    : outcome (list (FullSettlementInfo * option str)) :=
  match rows with
  | [] => Returns []
  | x :: rest =>
      r ← updt processed_sdts x;
      more ← updt_all processed_sdts rest;
      Returns (r :: more)
  end.

(** [df.dropna()] followed by [df.set_index(['ekatte'])]: of the six columns
    only [ekatte] can hold [None]. *)
Definition dropna (rows : list (FullSettlementInfo * option str))
    : list (str * FullSettlementInfo) :=
  omap (fun r => code ← r.2; Some (code, r.1)) rows.

(** [df.loc[~df.index.duplicated(keep='first')]]; [seen] holds the labels
    of the rows before. *)
Fixpoint keep_first {A} (seen : list str) (rows : list (str * A)) : list (str * A) :=
  match rows with
  | [] => []
  | (code, x) :: rest =>
      if bool_decide (code ∈ seen) then keep_first seen rest
      else (code, x) :: keep_first (code :: seen) rest
  end.

Definition disambiguate_frame (processed_sdts : gmap triple str)
    (dt : DataTuple PeriodFrame) : outcome (DataTuple CodedFrame) :=
  df_list_updated ← updt_all processed_sdts (pf_rows (data dt));
  Returns (mkDataTuple
             (mkCodedFrame (pf_date_string (data dt))
                (keep_first [] (dropna df_list_updated)))
             (header_type dt) (table_type dt)).

Fixpoint disambiguate_frames (processed_sdts : gmap triple str)
    (data_frame_list : list (DataTuple PeriodFrame))
    : outcome (list (DataTuple CodedFrame)) :=
  match data_frame_list with
  | [] => Returns []
  | dt :: rest =>
      df ← disambiguate_frame processed_sdts dt;
      more ← disambiguate_frames processed_sdts rest;
      Returns (df :: more)
  end.

Definition disambiguate_data
    (pipeline : SettlementDataTuple str -> M (option (SettlementDataTuple str)))
    (data_frame_list : list (DataTuple PeriodFrame))
    : M (list (DataTuple CodedFrame)) :=
  sdt_list ← lift (sdt_list_of data_frame_list);
  l ← resolve_all pipeline sdt_list;
  disambiguated_data ← lift (disambiguate_frames (processed_sdts l) data_frame_list);
  _ ← set_pickled (fun p =>
        mkPickled (triple_to_ekatte p) (ekatte_to_triple p) (failiures p)
          (data_frames_list p) (Some disambiguated_data) (combined_tables p));
  mret disambiguated_data.

End Processing.

(** ** Period merger *)

Section Merger.
Context `{PyEnv}.

(** [dt.data.drop(labels=names, axis=1)]: the two count columns stay. *)
Definition drop_names (df : CodedFrame) : WideFrame :=
  mkWideFrame
    [u"permanent_" ++ cf_date_string df; u"current_" ++ cf_date_string df]
    ((fun r : str * FullSettlementInfo =>
        (r.1, [CStr (fsi_permanent_residents r.2);
               CStr (fsi_current_residents r.2)]))
       <$> cf_rows df).

(** Column names of a merge: a name on both sides takes the suffixes
    [_x] and [_y]. *)
Definition merged_columns (left right : list str) : list str :=
  map (fun c => if bool_decide (c ∈ right) then c ++ u"_x" else c) left
  ++ map (fun c => if bool_decide (c ∈ left) then c ++ u"_y" else c) right.

(** Lexicographic order of strings by code point. *)
Fixpoint str_le (a b : str) : bool :=
  match a, b with
  | [], _ => true
  | _ :: _, [] => false
  | x :: a', y :: b' => (x <? y)%N || ((x =? y)%N && str_le a' b')
  end.

Fixpoint insert_sorted (k : str) (l : list str) : list str :=
  match l with
  | [] => [k]
  | x :: l' => if str_le k x then k :: l else x :: insert_sorted k l'
  end.

Definition sorted_labels (l : list str) : list str :=
  foldr insert_sorted [] (remove_dups l).

Definition rows_of (k : str) (rows : list (str * list cell)) : list (list cell) :=
  (filter (fun r => r.1 = k) rows).*2.

(** [left.merge(right, how='outer', left_index=True, right_index=True)]:
    the labels of both sides in sorted order; the rows of a label on one
    side are paired with each of its rows on the other, and with missing
    values where the other side has none. *)
Definition merge_outer (left right : WideFrame) : WideFrame :=
  let nan_left := replicate (length (columns left)) CNaN in
  let nan_right := replicate (length (columns right)) CNaN in
  mkWideFrame (merged_columns (columns left) (columns right))
    (k ← sorted_labels ((wf_rows left).*1 ++ (wf_rows right).*1);
     match rows_of k (wf_rows left), rows_of k (wf_rows right) with
     | [], rs => (fun r => (k, nan_left ++ r)) <$> rs
     | ls, [] => (fun l => (k, l ++ nan_right)) <$> ls
     | ls, rs => l ← ls; (fun r => (k, l ++ r)) <$> rs
     end).

(** [combined.fillna(value=0)] *)
Definition fillna (df : WideFrame) : WideFrame :=
  mkWideFrame (columns df)
    ((fun r : str * list cell =>
        (r.1, (fun c => match c with CNaN => CInt 0 | _ => c end) <$> r.2))
       <$> wf_rows df).

(** [int(x)] for a value of a column; a missing value has no integer. *)
Definition int_cell (c : cell) : outcome cell :=
  match c with
  | CStr s => z ← int s; Returns (CInt z)
  | CInt z => Returns (CInt z)
  | CNaN => Raises ValueError
  end.

(** [combined[column] = combined[column].astype(int)] for the column at
    position [j]. *)
Fixpoint astype_int_column (j : nat) (rows : list (str * list cell))
    : outcome (list (str * list cell)) :=
  match rows with
  | [] => Returns []
  | (k, cells) :: rest =>
      cells' ← match cells !! j with
               | Some c => c' ← int_cell c; Returns (<[j := c']> cells)
               | None => Raises KeyError
               end;
      rest' ← astype_int_column j rest;
      Returns ((k, cells') :: rest')
  end.

Fixpoint astype_int_columns (js : list nat) (rows : list (str * list cell))
    : outcome (list (str * list cell)) :=
  match js with
  | [] => Returns rows
  | j :: js' =>
      rows' ← astype_int_column j rows;
      astype_int_columns js' rows'
  end.

(** The loop of [combine_data]; [combined] is [None] before the first
    table. *)
Fixpoint combine_loop (processed_data : list (DataTuple CodedFrame))
    (combined : option WideFrame) : option WideFrame :=
  match processed_data with
  | [] => combined
  | dt :: rest =>
      combine_loop rest
        (Some match combined with
              | None => drop_names (data dt)
              | Some c => merge_outer c (drop_names (data dt))
              end)
  end.

Definition combine_data (processed_data : list (DataTuple CodedFrame))
    : M (list (DataTuple WideFrame)) :=
  match combine_loop processed_data None with
  | None => raise AttributeError           (* combined.fillna on None *)
  | Some combined =>
      let combined := fillna combined in
      rows ← lift (astype_int_columns (seq 0 (length (columns combined)))
                     (wf_rows combined));
      let combined := mkWideFrame (columns combined) rows in
      _ ← set_pickled (fun p =>
            mkPickled (triple_to_ekatte p) (ekatte_to_triple p) (failiures p)
              (data_frames_list p) (data_frames_list_disambiguated p)
              (Some combined));
      (* DataTuple(combined, 0, 0) *)
      mret [mkDataTuple combined Old Quarterly]
  end.

(** [store_data_list]: one file per table, named after its date. *)
Fixpoint store_data_list (processed_data : list (DataTuple CodedFrame))
    : M (list (DataTuple CodedFrame)) :=
  match processed_data with
  | [] => mret []
  | dt :: rest =>
      _ ← (fun w =>
             (Returns tt,
              mkWorld (nsi w) (grao w) (requested w) (slept w) (pickled w)
                (csv_tables w ++ [(cf_date_string (data dt), data dt)])
                (csv_combined w)));
      rest' ← store_data_list rest;
      mret (dt :: rest')
  end.

Definition store_combined_data (processed_data : list (DataTuple WideFrame))
    : M (list (DataTuple WideFrame)) :=
  match processed_data with
  | [] => raise IndexError                 (* processed_data[0] *)
  | dt :: _ =>
      _ ← (fun w =>
             (Returns tt,
              mkWorld (nsi w) (grao w) (requested w) (slept w) (pickled w)
                (csv_tables w) (Some (data dt))));
      mret processed_data
  end.

(** The processing pipeline of [main], from the entries of the data
    configuration. *)
Definition processing_pipeline (entries : list str) : M (list (DataTuple WideFrame)) :=
  data_source ← lift (process_data_configuration entries);
  frames ← process_data table_parsing data_source;
  coded ← disambiguate_data settlement_disambiguation frames;
  stored ← store_data_list coded;
  combined ← combine_data stored;
  store_combined_data combined.

End Merger.

(** ** Vocabulary of the properties *)


(** The parsed document of the boundary example: headers at lines 2, 10
    and 20, settlement rows at lines 1, 5, 15 and 25. *)
Definition boundary_example : ParsedLines :=
  mkParsedLines
    [ (2, mkMunicipalityIdentifier (u"БЛАГОЕВГРАД") (u"БАНСКО"));
      (10, mkMunicipalityIdentifier (u"БЛАГОЕВГРАД") (u"БЕЛИЦА"));
      (20, mkMunicipalityIdentifier (u"БЛАГОЕВГРАД") (u"ГЪРМЕН")) ]
    [ (1, mkSettlementInfo (u"С. ВСИЧКО") (u"900") (u"800"));
      (5, mkSettlementInfo (u"ГР. БАНСКО") (u"9000") (u"8500"));
      (15, mkSettlementInfo (u"ГР. БЕЛИЦА") (u"3000") (u"2900"));
      (25, mkSettlementInfo (u"С. ГЪРМЕН") (u"2000") (u"1900")) ].

(** The order of Python on the entries of [result_list], pairs of a date
    and a named tuple of a key and a code: by date, then by key, then by
    code, strings being compared by code point. *)
Definition str_lt (a b : str) : bool := str_le a b && negb (Str.eqb a b).

Definition entry_le (a b : datetime * SettlementDataTuple str) : bool :=
  let key_a := sdt_key a.2 in
  let key_b := sdt_key b.2 in
  (a.1 <? b.1)
  || ((a.1 =? b.1)
      && (str_lt key_a.1.1 key_b.1.1
          || (Str.eqb key_a.1.1 key_b.1.1
              && (str_lt key_a.1.2 key_b.1.2
                  || (Str.eqb key_a.1.2 key_b.1.2
                      && (str_lt key_a.2 key_b.2
                          || (Str.eqb key_a.2 key_b.2
                              && str_le (sdt_data a.2) (sdt_data b.2)))))))).

(** The match that the specification asks for: the greatest entry, that
    is the last one of the sorted list. *)
Definition latest_match (entries : list (datetime * SettlementDataTuple str))
    : option (SettlementDataTuple str) :=
  snd <$> foldl (fun best e =>
                   match best with
                   | Some b => if entry_le b e then Some e else Some b
                   | None => Some e
                   end) None entries.

(** A query answered with two codes whose records carry the name of the
    key: the first is valid to this day, the second ended in 1956. *)
Definition resolver_example_key : triple :=
  (u"ВАРНА", u"АВРЕН", u"КАЗАШКА РЕКА").

Definition resolver_example_names : list str :=
  [u"обл. Варна"; u"общ. Аврен"; u"с. Казашка река"].

Definition resolver_example : candidates :=
  [ (u"35376", [mkSettlementNamesData resolver_example_names
                  (713000 * 86400000000) datetime_max]);
    (u"35379", [mkSettlementNamesData resolver_example_names
                  (696000 * 86400000000) (714000 * 86400000000)]) ].

(** The two maps of the loop are the ones in the pickled files. *)
Definition cache_persisted (l : Locals) (w : World) : Prop :=
  default ∅ (triple_to_ekatte (pickled w)) = processed_sdts l
  ∧ default ∅ (ekatte_to_triple (pickled w)) = reverse_dict l.

(** A page of the directory service with one code and one name record,
    in the fourth table from the end, and a world whose directory service
    answers the n-th request with the n-th status of a list (200 beyond
    its end) and that page. *)
Definition example_page : page :=
  [ []; [];
    [ [u"код"; u"име"];
      [u"ЕКАТТЕ"; u"населено място"];
      [u"35376"; u""];
      [u""; u"с. Казашка река, общ. Аврен, обл. Варна"; u"26.12.1978 - "] ];
    []; []; [] ].

Definition example_world (statuses : list Z) : World :=
  mkWorld (fun n _ => mkResponse (nth n statuses 200) example_page)
    (fun _ => []) [] []
    (mkPickled None None None None None None) [] None.

Definition example_sdt : SettlementDataTuple str * triple :=
  (mkSettlementDataTuple resolver_example_key (u"КАЗАШКА РЕКА"),
   (u"ВАРНА", u"АВРЕН", u"С. КАЗАШКА РЕКА")).

(** The first row of a disambiguated frame under a code. *)
Definition coded_row (df : CodedFrame) (c : str) : option FullSettlementInfo :=
  (filter (λ r, r.1 = c) (cf_rows df)).*2 !! 0%nat.

(** The two cells of a period for a code, as the merge leaves them. *)
Definition merged_cells (df : CodedFrame) (c : str) : list cell :=
  match coded_row df c with
  | Some x => [CStr (fsi_permanent_residents x); CStr (fsi_current_residents x)]
  | None => [CNaN; CNaN]
  end.

(** The two counts of a period for a code, as the merged table has them:
    the integers of the first row of the code in that period, and two zeros
    when the period has no row for it. *)
Definition period_counts `{PyEnv} (df : CodedFrame) (c : str) (pq : Z * Z) : Prop :=
  match coded_row df c with
  | Some x => int (fsi_permanent_residents x) = Returns pq.1
              ∧ int (fsi_current_residents x) = Returns pq.2
  | None => pq = (0, 0)
  end.

(** A code has a row in one of the frames of [prefix]. *)
Definition covers (prefix : list CodedFrame) (c : str) : Prop :=
  Exists (λ df, c ∈ (cf_rows df).*1) prefix.

(** [combined] is the merge of the frames of [prefix]: two columns per
    frame, and for every code of one of the frames a single row, made of
    the cells of the code in each frame. *)
Definition merged_so_far (prefix : list CodedFrame) (combined : WideFrame) : Prop :=
  length (columns combined) = (2 * length prefix)%nat
  ∧ ∀ c, rows_of c (wf_rows combined)
         = if decide (covers prefix c)
           then [prefix ≫= (λ df, merged_cells df c)] else [].

(** The cell that [fillna] writes for a cell. *)
Definition filled (c : cell) : cell :=
  match c with CNaN => CInt 0 | _ => c end.

(** [cells'] is [cells] with the cells at the positions [a], ...,
    [a + m - 1] replaced by their integers. *)
Definition coerced_from `{PyEnv} (a m : nat) (cells cells' : list cell) : Prop :=
  length cells' = length cells
  ∧ (∀ i, (a ≤ i < a + m)%nat →
       ∃ c c', cells !! i = Some c ∧ int_cell c = Returns c' ∧ cells' !! i = Some c')
  ∧ (∀ i, ¬ (a ≤ i < a + m)%nat → cells' !! i = cells !! i).


(** A period table with two rows whose keys have the same code. *)
Definition duplicate_example : DataTuple PeriodFrame :=
  mkDataTuple
    (mkPeriodFrame (u"2019")
       [ mkFullSettlementInfo (u"ВАРНА") (u"АВРЕН") (u"С. КАЗАШКА РЕКА")
           (u"120") (u"95");
         mkFullSettlementInfo (u"ВАРНА") (u"АВРЕН") (u"С. КАЗАШКА")
           (u"80") (u"60") ])
    New Yearly.

(** Two period tables: codes 00014 and 00028 in the first, 00028 and 00031
    in the second. *)
Definition merge_example : list (DataTuple CodedFrame) :=
  [ mkDataTuple
      (mkCodedFrame (u"2019")
         [ (u"00014", mkFullSettlementInfo (u"ВАРНА") (u"АВРЕН") (u"С. АВРЕН")
                        (u"1") (u"10"));
           (u"00028", mkFullSettlementInfo (u"ВАРНА") (u"АВРЕН") (u"С. БЕНКОВСКИ")
                        (u"2") (u"20")) ])
      New Yearly;
    mkDataTuple
      (mkCodedFrame (u"2020")
         [ (u"00028", mkFullSettlementInfo (u"ВАРНА") (u"АВРЕН") (u"С. БЕНКОВСКИ")
                        (u"30") (u"3"));
           (u"00031", mkFullSettlementInfo (u"ВАРНА") (u"АВРЕН") (u"С. БЛИЗНАЦИ")
                        (u"40") (u"4")) ])
      New Yearly ].

(** ** The steps of the name normaliser *)

(** [new_name] after the encoding repair of [fix_names]. *)
Definition repair_soft_sign (name : str) : str :=
  let prob_pos := Str.find name [SOFT_SIGN] 0 in
  if negb (prob_pos =? -1) then
    let o_pos := Str.find name [LETTER_O] prob_pos in
    if negb (o_pos =? prob_pos + 1)
    then Str.replace SOFT_SIGN HARD_SIGN name
    else name
  else name.

(** [new_name] when [fix_names] consults its table. *)
Definition fix_names_key (name : str) : str :=
  let new_name := repair_soft_sign name in
  if negb (Str.find new_name [HYPHEN] 0 =? -1)
  then Str.replace HYPHEN SPACE new_name
  else new_name.

(** The value of the table that is spelled with the soft sign. *)
Definition soft_sign_value : str := u"АЛЕКСАНДЬР СТАМБОЛИЙСКИ".

(** ** File names *)

(** [sep.join(parts)] for a one-character separator. *)
Fixpoint str_join (sep : N) (parts : list str) : str :=
  match parts with
  | [] => []
  | a :: rest =>
      match rest with
      | [] => a
      | _ :: _ => a ++ sep :: str_join sep rest
      end
  end.

Definition UNDERSCORE : N := 95.

(** The columns of a frame that [disambiguate_data] returns, the index
    [ekatte] apart. *)
Definition coded_columns (df : CodedFrame) : list str :=
  [ u"region"; u"municipality"; u"settlement";
    u"permanent_" ++ cf_date_string df; u"current_" ++ cf_date_string df ].

(** The name under which [store_data_list] writes a frame with these
    columns, without directory and extension. *)
Definition csv_name (columns : list str) : outcome str :=
  match last columns with
  | Some c =>
      Returns (u"grao_data_" ++ str_join UNDERSCORE (drop 1 (Str.split UNDERSCORE c)))
  | None => Raises IndexError
  end.

(** ** Vocabulary of the parser *)

(** The number of groups of a pattern. *)
Fixpoint group_count (r : list Regex.item) : nat :=
  match r with
  | [] => 0
  | Regex.Close :: r' => S (group_count r')
  | _ :: r' => group_count r'
  end.

(** The pattern with which [parse_data_line] searches a line, and the
    position of the group that it reads the current population from. *)
Definition settlement_info_re `{PyEnv} (table_type : TableTypeEnum)
    : list Regex.item :=
  match table_type with
  | Quarterly => RegexPatternWrapper.settlement_info_quarterly
  | Yearly => RegexPatternWrapper.settlement_info_yearly
  end.

Definition current_population_position (table_type : TableTypeEnum) : nat :=
  match table_type with
  | Quarterly => 3
  | Yearly => 6
  end.

(** The line numbers of a parsed document: ascending among the headers and
    among the rows, none both a header and a row, all from [lo] up to but
    not including [hi]. *)
Definition well_placed (lo hi : Z) (parsed : ParsedLines) : Prop :=
  StronglySorted Z.lt (municipality_ids parsed).*1
  ∧ StronglySorted Z.lt (settlements_info parsed).*1
  ∧ (∀ k, k ∈ (municipality_ids parsed).*1 → k ∉ (settlements_info parsed).*1)
  ∧ ∀ k, k ∈ (municipality_ids parsed).*1 ++ (settlements_info parsed).*1 →
         lo ≤ k < hi.

(** The date string that [process_data] reads from the descriptor of a
    table. *)
Definition period_date_string `{PyEnv} (data_tuple : DataTuple str) : outcome str :=
  let date_group :=
    match table_type data_tuple with
    | Quarterly => RegexPatternWrapper.date_group
    | Yearly => RegexPatternWrapper.year_group
    end in
  match Regex.search date_group (data data_tuple) with
  | Some m => g ← Regex.group_text m 1;
              Returns (Str.replace HYPHEN 95 g)
  | None => Raises AttributeError
  end.

(** ** Vocabulary of the resolver *)

(** Every name record of the candidates has at least three parts. *)
Definition complete_names (data : candidates) : Prop :=
  Forall (λ kv : str * list SettlementNamesData,
            Forall (λ nd, (2 < length (snd_name nd))%nat) kv.2) data.

(** A settlement that the example page does not name. *)
Definition unknown_sdt : SettlementDataTuple str * triple :=
  (mkSettlementDataTuple (u"ВАРНА", u"АВРЕН", u"НИКЪДЕ") (u"НИКЪДЕ"),
   (u"ВАРНА", u"АВРЕН", u"С. НИКЪДЕ")).

(** ** Vocabulary of the assembler and of the pipeline *)

(** [row] is the record that the assembler makes of the settlement row at
    line [k] and of the header at line [cur], for [k] strictly between the
    headers at [cur] and [nxt]. *)
Definition attached (pl : ParsedLines) (cur nxt k : Z) (row : FullSettlementInfo)
    : Prop :=
  cur < k < nxt
  ∧ ∃ reg info,
      dict_item (municipality_ids pl) cur = Returns reg
      ∧ dict_item (settlements_info pl) k = Returns info
      ∧ row = mkFullSettlementInfo (fix_names (region reg))
                (fix_names (municipality reg)) (fix_names (name info))
                (permanent_residents info) (current_residents info).

(** The records of [acc] are made, in order, of the first settlement rows
    of the document, each with a pair of consecutive headers of [pairs]
    around it. *)
Definition rows_attached (pl : ParsedLines) (pairs : list (Z * Z))
    (acc : list FullSettlementInfo) : Prop :=
  ∀ j row, acc !! j = Some row →
    ∃ k cur nxt, (settlements_info pl).*1 !! j = Some k
      ∧ (cur, nxt) ∈ pairs ∧ attached pl cur nxt k row.

(** The boundary example without its row at line 1. *)
Definition trimmed_boundary_example : ParsedLines :=
  mkParsedLines (municipality_ids boundary_example)
    (drop 1 (settlements_info boundary_example)).

(** The frame that [process_data] makes of a descriptor: the types of the
    descriptor, the date string read from it, and the rows that the parsing
    pipeline returned for it. *)
Definition frame_of_descriptor `{PyEnv}
    (parsing_pipeline : DataTuple str → M (DataTuple (list FullSettlementInfo)))
    (src : option (DataTuple str)) (fr : DataTuple PeriodFrame) : Prop :=
  ∃ dt, src = Some dt
    ∧ header_type fr = header_type dt ∧ table_type fr = table_type dt
    ∧ period_date_string dt = Returns (pf_date_string (data fr))
    ∧ ∃ w0 frame w1, parsing_pipeline dt w0 = (Returns frame, w1)
                     ∧ pf_rows (data fr) = data frame.

(** A document with two headers and a row after each, a world whose table
    site serves it at every address and whose directory service answers
    every request with the example page, and a descriptor of a quarterly
    table. *)
Definition example_document : list str :=
  [ u"област ВАРНА община АВРЕН";
    u"|С.КАЗАШКА РЕКА        |   120|    95|     3|";
    u"област ВАРНА община БЯЛА";
    u"|ГР.БЯЛА               |  2100|  1900|    40|" ].

Definition document_world : World :=
  mkWorld (fun _ _ => mkResponse 200 example_page) (fun _ => example_document)
    [] [] (mkPickled None None None None None None) [] None.

Definition example_entry : str := u"https://www.grao.bg/tna/tadr-03-2019.txt".

(** A non-empty string of characters that the class [\d] accepts. *)
Definition digit_string `{PyEnv} (s : str) : Prop :=
  s ≠ [] ∧ Forall (λ c, re_digit c = true) s.

(** The second line of the example document. *)
Definition example_row_line : str :=
  u"|С.КАЗАШКА РЕКА        |   120|    95|     3|".

(** A world whose directory service answers every request with status 200
    and a page of three tables only. *)
Definition short_page_world : World :=
  mkWorld (fun _ _ => mkResponse 200 [[]; []; []]) (fun _ => []) [] []
    (mkPickled None None None None None None) [] None.

(** The two counts of a record are strings of digits. *)
Definition counts_are_digits `{PyEnv} (x : FullSettlementInfo) : Prop :=
  digit_string (fsi_permanent_residents x) ∧ digit_string (fsi_current_residents x).

(** A value of a column that [astype(int)] accepts. *)
Definition convertible `{PyEnv} (c : cell) : Prop := ∃ c', int_cell c = Returns c'.

(** * Properties *)

(** ** Name normaliser *)

(** C5. [fix_names] is not idempotent: the correction table maps the
    truncated name to a spelling that holds the soft sign, which a second
    application repairs to the hard sign. *)
Theorem fix_names_not_idempotent :
  fix_names (u"АЛЕКСАНДЪР СТАМБОЛИ") = u"АЛЕКСАНДЬР СТАМБОЛИЙСКИ"
  ∧ fix_names (fix_names (u"АЛЕКСАНДЪР СТАМБОЛИ")) = u"АЛЕКСАНДЪР СТАМБОЛИЙСКИ"
  ∧ fix_names (fix_names (u"АЛЕКСАНДЪР СТАМБОЛИ"))
    ≠ fix_names (u"АЛЕКСАНДЪР СТАМБОЛИ").
Proof. split_and!; vm_compute; congruence. Qed.

(** ** Layout classifier *)

Section ClassifierFacts.
Context `{PyEnv}.

Lemma process_data_configuration_app (before after : list str) out out' :
  process_data_configuration before = Returns out →
  process_data_configuration after = Returns out' →
  process_data_configuration (before ++ after) = Returns (out ++ out').
Proof.
  revert out. induction before as [|entry before IH]; intros out Hb Ha; simpl in *.
  - by inversion Hb.
  - destruct (_data_tuple_from_entry entry) as [t|e]; simpl in *; [|done].
    destruct (process_data_configuration before) as [o|e]; simpl in *; [|done].
    inversion Hb; subst. by rewrite (IH o eq_refl Ha).
Qed.

Lemma process_data_loop_app pipeline (ok rest : list (option (DataTuple str)))
    done frames w w' :
  process_data_loop pipeline ok done w = (Returns frames, w') →
  process_data_loop pipeline (ok ++ rest) done w
  = process_data_loop pipeline rest frames w'.
Proof.
  revert done w. induction ok as [|t ok IH]; intros done w Hok; simpl in *.
  - by inversion Hok.
  - destruct t as [dt|]; [|done].
    revert Hok. unfold mbind, M_bind at 1 3.
    destruct (lift _ w) as [[ds|e] w1]; [|done].
    unfold mbind, M_bind at 1 2.
    destruct (pipeline dt w1) as [[fr|e] w2]; [|done].
    apply IH.
Qed.

End ClassifierFacts.

(** C6, as the program has it. A descriptor with neither date pattern makes
    the classifier return [None] and raise nothing; the configuration pass
    keeps that [None] in its output; the run stops when [process_data]
    reaches it and reads its table type, with an [AttributeError]. *)
Theorem unclassified_descriptor_returns_none `{PyEnv} (entry : str) :
  Regex.search RegexPatternWrapper.date_group entry = None →
  Regex.search RegexPatternWrapper.year_group entry = None →
  _data_tuple_from_entry entry = Returns None
  ∧ (∀ before after out out',
       process_data_configuration before = Returns out →
       process_data_configuration after = Returns out' →
       process_data_configuration (before ++ entry :: after)
       = Returns (out ++ None :: out'))
  ∧ (∀ pipeline ok rest frames w w',
       process_data_loop pipeline ok [] w = (Returns frames, w') →
       process_data pipeline (ok ++ None :: rest) w = (Raises AttributeError, w')).
Proof.
  intros Hd Hy.
  assert (Hnone : _data_tuple_from_entry entry = Returns None).
  { unfold _data_tuple_from_entry. rewrite Hd, Hy.
    by rewrite bool_decide_eq_false_2 by (intros Hne; by apply Hne). }
  split_and!; [done| |].
  - intros before after out out' Hb Ha.
    apply process_data_configuration_app; [done|].
    simpl. by rewrite Hnone, Ha.
  - intros pipeline ok rest frames w w' Hok.
    unfold process_data, mbind, M_bind at 1.
    by rewrite (process_data_loop_app _ _ _ _ _ _ _ Hok).
Qed.

Lemma unclassified_descriptor_returns_none_witness :
  _data_tuple_from_entry (H := BgEnv.env) (u"https://www.grao.bg/tna/index.html")
  = Returns None.
Proof.
  apply (unclassified_descriptor_returns_none (H := BgEnv.env)
           (u"https://www.grao.bg/tna/index.html")); vm_compute; reflexivity.
Defined.

(** C6 as stated fails: on a descriptor without a date the classifier
    returns a value, [None], and raises no error. *)
Lemma classifier_raises_nothing :
  Regex.search (RegexPatternWrapper.date_group (H := BgEnv.env))
    (u"https://www.grao.bg/tna/index.html") = None
  ∧ Regex.search (RegexPatternWrapper.year_group (H := BgEnv.env))
      (u"https://www.grao.bg/tna/index.html") = None
  ∧ ¬ ∃ e, _data_tuple_from_entry (H := BgEnv.env)
             (u"https://www.grao.bg/tna/index.html") = Raises e.
Proof.
  split_and!; [vm_compute; reflexivity ..|].
  intros [e He]. vm_compute in He. discriminate.
Qed.

(** ** Table parser *)



(** ** Record assembler *)





Section Assembler.
Variable regions : list (Z * MunicipalityIdentifier).
Variable infos : list (Z * SettlementInfo).





End Assembler.



(** C1, at the boundary example of the specification: the row at line 1
    comes before the first header, the cursor never moves past it, and no
    row is attached to any header; rows 5 and 15 are lost with rows 1
    and 25. *)
Theorem boundary_example_attaches_nothing :
  (municipality_ids boundary_example).*1 = [2; 10; 20]
  ∧ (settlements_info boundary_example).*1 = [1; 5; 15; 25]
  ∧ attach_all boundary_example = Returns (0%nat, [])
  ∧ parssed_lines_to_full_info_list (mkDataTuple boundary_example New Quarterly)
    = Returns (mkDataTuple [] New Quarterly).
Proof. split_and!; vm_compute; reflexivity. Qed.

(** The same document without the row at line 1: rows 5 and 15 go to the
    headers at lines 2 and 10, and the cursor stops on row 25. *)
Example boundary_example_without_leading_row :
  attach_all (mkParsedLines (municipality_ids boundary_example)
                (drop 1 (settlements_info boundary_example)))
  = Returns (2%nat,
      [ mkFullSettlementInfo (u"БЛАГОЕВГРАД") (u"БАНСКО") (u"ГР. БАНСКО")
          (u"9000") (u"8500");
        mkFullSettlementInfo (u"БЛАГОЕВГРАД") (u"БЕЛИЦА") (u"ГР. БЕЛИЦА")
          (u"3000") (u"2900") ]).
Proof. vm_compute. reflexivity. Qed.





(** ** Settlement resolver *)

Section ResolverFacts.
Context `{PyEnv}.

(** No record passes the tests: the resolver returns [None] and raises
    nothing. *)
Lemma mach_key_with_code_no_match (settlement : SettlementDataTuple candidates) :
  result_list (sdt_key settlement) (sdt_data settlement) = Returns [] →
  mach_key_with_code settlement = Returns None.
Proof. unfold mach_key_with_code. by intros ->. Qed.

(** Otherwise it returns the entry that was appended last. *)
Lemma mach_key_with_code_last (settlement : SettlementDataTuple candidates)
    entries entry :
  result_list (sdt_key settlement) (sdt_data settlement)
  = Returns (entries ++ [entry]) →
  mach_key_with_code settlement = Returns (Some entry.2).
Proof.
  unfold mach_key_with_code. intros ->. unfold mbind, outcome_bind.
  rewrite fmap_app. change (Some <$> [entry]) with [Some entry].
  by rewrite List.last_last.
Qed.

End ResolverFacts.

(** C2, at a query answered with two matching codes: both records pass the
    tests, the first with the later end of validity; the resolver returns
    the code of the second, the one appended last, where the latest match
    is the first. *)
Theorem mach_key_with_code_ignores_validity :
  let settlement := mkSettlementDataTuple resolver_example_key resolver_example in
  result_list (H := BgEnv.env) resolver_example_key resolver_example
  = Returns [ (datetime_max, mkSettlementDataTuple resolver_example_key (u"35376"));
              (714000 * 86400000000,
               mkSettlementDataTuple resolver_example_key (u"35379")) ]
  ∧ mach_key_with_code (H := BgEnv.env) settlement
    = Returns (Some (mkSettlementDataTuple resolver_example_key (u"35379")))
  ∧ latest_match [ (datetime_max, mkSettlementDataTuple resolver_example_key (u"35376"));
                   (714000 * 86400000000,
                    mkSettlementDataTuple resolver_example_key (u"35379")) ]
    = Some (mkSettlementDataTuple resolver_example_key (u"35376")).
Proof. split_and!; vm_compute; reflexivity. Qed.

(** ** Retry schedule and cache *)

Section PipelineFacts.
Context `{PyEnv}.

(** One call of the pipeline: no request when the name cannot be sent,
    otherwise one request, and [ValueError] unless the status is 200. *)
Lemma pipeline_run (sdt : SettlementDataTuple str) (w : World) :
  settlement_disambiguation sdt w =
  match request_name sdt with
  | Raises e => (Raises e, w)
  | Returns name =>
      let req := nsi w (length (requested w)) name in
      (if negb (status_code req =? 200) then Raises ValueError
       else resolve_response (sdt_key sdt) req,
       after_requests [name] w)
  end.
Proof.
  unfold settlement_disambiguation, fetch_raw_settlement_data, resolve_response.
  unfold mbind at 1 2 3 4, M_bind, lift, raise, fetch_nsi.
  destruct (request_name sdt) as [name|e]; [|done]. simpl.
  destruct (negb _); simpl; [done|].
  unfold mret, M_ret, mbind, outcome_bind.
  by destruct (parse_raw_settlement_data _).
Qed.


Lemma pipeline_answers (sdt : SettlementDataTuple str) name (w : World) :
  request_name sdt = Returns name →
  status_code (nsi w (length (requested w)) name) = 200 →
  settlement_disambiguation sdt w
  = (resolve_response (sdt_key sdt) (nsi w (length (requested w)) name),
     after_requests [name] w).
Proof.
  intros Hn Hs. rewrite pipeline_run, Hn. simpl. by rewrite Hs.
Qed.

(** The [finally] block changes the pickled files only. *)
Lemma finally_block_world (l : Locals) sdt (w : World) r w' :
  finally_block l sdt w = (r, w') →
  nsi w' = nsi w ∧ requested w' = requested w ∧ slept w' = slept w.
Proof.
  unfold finally_block. destruct (val l) as [[v|]|].
  - unfold mbind, M_bind, pickle_maps, pickle_reverse, set_pickled, mret, M_ret.
    simpl. by intros [= <- <-].
  - unfold mret, M_ret. by intros [= <- <-].
  - unfold raise, lift. by intros [= <- <-].
Qed.

End PipelineFacts.


Section CacheFacts.
Context `{PyEnv}.

Lemma match_record_key key code name_data entries :
  match_record key code name_data = Returns entries →
  ∀ e, e ∈ entries → sdt_key e.2 = key.
Proof.
  unfold match_record.
  destruct (all_tests _ (lower key.1.1) key) as [[|]|]; simpl; [| |done].
  { intros [= <-] e ->%list_elem_of_singleton. done. }
  repeat case_match;
    try (destruct (all_tests _ _ key) as [[|]|]; simpl; [| |done]);
    intros [= <-] e He; try by apply elem_of_nil in He.
  all: by apply list_elem_of_singleton in He as ->.
Qed.

Lemma match_names_key key code names_list entries :
  match_names key code names_list = Returns entries →
  ∀ e, e ∈ entries → sdt_key e.2 = key.
Proof.
  revert entries. induction names_list as [|nd rest IH]; intros entries; simpl.
  - intros [= <-] e He. by apply elem_of_nil in He.
  - destruct (match_record key code nd) as [found|] eqn:Hf; simpl; [|done].
    destruct (match_names key code rest) as [more|]; simpl; [|done].
    intros [= <-] e [He|He]%elem_of_app.
    + by eapply match_record_key.
    + by eapply IH.
Qed.

Lemma result_list_key key data_dict entries :
  result_list key data_dict = Returns entries →
  ∀ e, e ∈ entries → sdt_key e.2 = key.
Proof.
  revert entries. induction data_dict as [|[code nl] rest IH]; intros entries; simpl.
  - intros [= <-] e He. by apply elem_of_nil in He.
  - destruct (match_names key code nl) as [found|] eqn:Hf; simpl; [|done].
    destruct (result_list key rest) as [more|]; simpl; [|done].
    intros [= <-] e [He|He]%elem_of_app.
    + by eapply match_names_key.
    + by eapply IH.
Qed.

(** The value that the resolver returns carries the key it was asked. *)
Lemma mach_key_with_code_key (settlement : SettlementDataTuple candidates) v :
  mach_key_with_code settlement = Returns (Some v) →
  sdt_key v = sdt_key settlement.
Proof.
  unfold mach_key_with_code.
  destruct (result_list _ _) as [entries|] eqn:Hr; simpl; [|done].
  destruct entries as [|e0 entries _] using rev_ind; simpl; [done|].
  rewrite fmap_app. change (Some <$> [e0]) with [Some e0].
  rewrite List.last_last. intros [= <-].
  eapply result_list_key; [done|]. apply elem_of_app. right. by left.
Qed.

Lemma parse_raw_settlement_data_key (settlement : SettlementDataTuple Response) parsed :
  parse_raw_settlement_data settlement = Returns parsed →
  sdt_key parsed = sdt_key settlement.
Proof.
  unfold parse_raw_settlement_data.
  destruct (if bool_decide _ then _ else _) as [table|]; simpl; [|done].
  destruct (strptime _) as [oldest|]; simpl; [|done].
  destruct (parse_rows _ _ _ _) as [rows|]; simpl; [|done].
  by intros [= <-].
Qed.

Lemma resolve_response_key key req v :
  resolve_response key req = Returns (Some v) → sdt_key v = key.
Proof.
  unfold resolve_response.
  destruct (parse_raw_settlement_data _) as [parsed|] eqn:Hp; simpl; [|done].
  intros Hm. apply mach_key_with_code_key in Hm. rewrite Hm.
  by apply parse_raw_settlement_data_key in Hp.
Qed.

(** The effect of one call of the pipeline on the world. *)
Lemma pipeline_effect (sdt : SettlementDataTuple str) (w : World) r w' :
  settlement_disambiguation sdt w = (r, w') →
  nsi w' = nsi w ∧ pickled w' = pickled w
  ∧ (∃ extra, requested w' = requested w ++ extra
              ∧ ∀ x, x ∈ extra → request_name sdt = Returns x)
  ∧ ∀ v, r = Returns (Some v) → sdt_key v = sdt_key sdt.
Proof.
  rewrite pipeline_run. destruct (request_name sdt) as [name|e].
  - simpl. intros [= <- <-]. split_and!; [done..| |].
    + exists [name]. split; [done|]. by intros x ->%list_elem_of_singleton.
    + intros v. destruct (negb _); [done|]. apply resolve_response_key.
  - intros [= <- <-]. split_and!; [done..| |done].
    exists []. split; [by rewrite app_nil_r|]. intros x Hx. by apply elem_of_nil in Hx.
Qed.

Lemma attempts_effect (sdt : SettlementDataTuple str) (w : World) r w' :
  attempts settlement_disambiguation sdt w = (r, w') →
  nsi w' = nsi w ∧ pickled w' = pickled w
  ∧ (∃ extra, requested w' = requested w ++ extra
              ∧ ∀ x, x ∈ extra → request_name sdt = Returns x)
  ∧ ∀ v, r = Returns (Some v) → sdt_key v = sdt_key sdt.
Proof.
  assert (Hstep : ∀ (rest : M (option (SettlementDataTuple str))) seconds w r w',
    (∀ w r w', rest w = (r, w') →
       nsi w' = nsi w ∧ pickled w' = pickled w
       ∧ (∃ extra, requested w' = requested w ++ extra
                   ∧ ∀ x, x ∈ extra → request_name sdt = Returns x)
       ∧ ∀ v, r = Returns (Some v) → sdt_key v = sdt_key sdt) →
    try_except_ValueError (settlement_disambiguation sdt)
      (_ ← sleep seconds; rest) w = (r, w') →
    nsi w' = nsi w ∧ pickled w' = pickled w
    ∧ (∃ extra, requested w' = requested w ++ extra
                ∧ ∀ x, x ∈ extra → request_name sdt = Returns x)
    ∧ ∀ v, r = Returns (Some v) → sdt_key v = sdt_key sdt).
  { clear. intros rest seconds w r w' Hrest. unfold try_except_ValueError.
    destruct (settlement_disambiguation sdt w) as [r1 w1] eqn:H1.
    destruct (pipeline_effect _ _ _ _ H1) as (Hn1 & Hp1 & (ex1 & Hr1 & Hx1) & Hk1).
    assert (Hdirect : (r1, w1) = (r, w') →
      nsi w' = nsi w ∧ pickled w' = pickled w
      ∧ (∃ extra, requested w' = requested w ++ extra
                  ∧ ∀ x, x ∈ extra → request_name sdt = Returns x)
      ∧ ∀ v, r = Returns (Some v) → sdt_key v = sdt_key sdt).
    { intros [= <- <-]. split_and!; [done..| |done]. by exists ex1. }
    destruct r1 as [v1|[]]; try exact Hdirect.
    unfold mbind, M_bind, sleep. intros H2.
    destruct (Hrest _ _ _ H2) as (Hn2 & Hp2 & (ex2 & Hr2 & Hx2) & Hk2).
    simpl in *. split_and!; [congruence..| |done].
    exists (ex1 ++ ex2). split; [by rewrite Hr2, Hr1, app_assoc|].
    intros x [?|?]%elem_of_app; auto. }
  unfold attempts. intros Ha.
  eapply Hstep; [|exact Ha]. intros w1 r1 w1' H1.
  eapply Hstep; [|exact H1]. intros w2 r2 w2' H2.
  eapply Hstep; [|exact H2]. intros w3 r3 w3' H3.
  by apply pipeline_effect.
Qed.

Lemma already_resolved_true (l : Locals) (key : triple) :
  already_resolved l key = true ↔
  ∃ code, processed_sdts l !! key = Some code ∧ is_Some (reverse_dict l !! code).
Proof.
  unfold already_resolved. destruct (processed_sdts l !! key) as [code|].
  - rewrite bool_decide_eq_true. split; [intros ?; by exists code|].
    by intros (c & [= <-] & ?).
  - split; [done|]. by intros (c & ? & _).
Qed.

(** An entry with both directions in the maps is passed over: the pipeline
    is not called, and neither the variables nor the world change. *)
Lemma step_skips pipeline (l : Locals) (sdt : SettlementDataTuple str * triple)
    (w : World) :
  already_resolved l (sdt_key sdt.1) = true →
  disambiguate_step pipeline l sdt w = (Returns l, w).
Proof. unfold disambiguate_step. by intros ->. Qed.

End CacheFacts.

Section CacheRuns.
Context `{PyEnv}.

Lemma finally_block_returns (l : Locals) sdt (w : World) l' w' :
  finally_block l sdt w = (Returns l', w') →
  match val l with
  | Some (Some v) =>
      processed_sdts l' = <[sdt_key v := sdt_data v]> (processed_sdts l)
      ∧ reverse_dict l' = <[sdt_data v := sdt.2]> (reverse_dict l)
      ∧ failed l' = failed l
      ∧ triple_to_ekatte (pickled w') = Some (processed_sdts l')
      ∧ ekatte_to_triple (pickled w') = Some (reverse_dict l')
  | Some None =>
      processed_sdts l' = processed_sdts l
      ∧ reverse_dict l' = reverse_dict l
      ∧ failed l' = {[sdt_key sdt.1]} ∪ failed l
      ∧ pickled w' = pickled w
  | None => False
  end.
Proof.
  unfold finally_block. destruct (val l) as [[v|]|].
  - unfold mbind, M_bind, pickle_maps, pickle_reverse, set_pickled, mret, M_ret.
    simpl. by intros [= <- <-].
  - unfold mret, M_ret. by intros [= <- <-].
  - unfold raise, lift. by intros [= ].
Qed.

(** What one iteration that ends normally does to the variables. *)
Lemma step_state (l : Locals) sdt (w : World) l' w' :
  disambiguate_step settlement_disambiguation l sdt w = (Returns l', w') →
  (∀ K, already_resolved l K = true → already_resolved l' K = true)
  ∧ (cache_persisted l w → cache_persisted l' w')
  ∧ (already_resolved l' (sdt_key sdt.1) = true ∨ sdt_key sdt.1 ∈ failed l')
  ∧ failed l ⊆ failed l'.
Proof.
  unfold disambiguate_step.
  destruct (already_resolved l (sdt_key sdt.1)) eqn:Hnew.
  { intros [= <- <-]. split_and!; auto. }
  destruct (attempts _ _ w) as [[v|e] w1] eqn:Ha.
  - destruct (attempts_effect _ _ _ _ Ha) as (_ & Hp & _ & Hkey).
    intros Hfin. apply finally_block_returns in Hfin. simpl in Hfin.
    destruct v as [v|].
    + destruct Hfin as (Hproc & Hrev & Hfail & Hpp & Hpr).
      rewrite (Hkey v eq_refl) in Hproc.
      split_and!.
      * intros K HK. apply already_resolved_true in HK as (code & Hc & Hr).
        apply already_resolved_true. exists code.
        assert (K ≠ sdt_key sdt.1).
        { intros ->. assert (already_resolved l (sdt_key sdt.1) = true)
            by (apply already_resolved_true; eauto). congruence. }
        rewrite Hproc, Hrev, lookup_insert_ne by done.
        split; [done|]. rewrite lookup_insert_is_Some.
        destruct (decide (sdt_data v = code)); auto.
      * intros _. unfold cache_persisted. by rewrite Hpp, Hpr.
      * left. apply already_resolved_true. exists (sdt_data v).
        rewrite Hproc, Hrev, !lookup_insert_eq. eauto.
      * by rewrite Hfail.
    + destruct Hfin as (Hproc & Hrev & Hfail & Hpp).
      split_and!.
      * intros K HK. apply already_resolved_true in HK as (code & Hc & Hr).
        apply already_resolved_true. exists code. by rewrite Hproc, Hrev.
      * unfold cache_persisted. by rewrite Hpp, Hp, Hproc, Hrev.
      * right. rewrite Hfail. set_solver.
      * rewrite Hfail. set_solver.
  - by destruct (finally_block l sdt w1) as [[?|?] ?].
Qed.

(** The requests of one iteration, however it ends, are requests for its
    own key, which was not resolved. *)
Lemma step_requests (l : Locals) sdt (w : World) r w' :
  disambiguate_step settlement_disambiguation l sdt w = (r, w') →
  ∃ extra, requested w' = requested w ++ extra
    ∧ ∀ x, x ∈ extra →
        already_resolved l (sdt_key sdt.1) = false
        ∧ request_name sdt.1 = Returns x.
Proof.
  unfold disambiguate_step.
  destruct (already_resolved l (sdt_key sdt.1)) eqn:Hnew.
  { intros [= <- <-]. exists []. split; [by rewrite app_nil_r|].
    intros x Hx. by apply elem_of_nil in Hx. }
  destruct (attempts _ _ w) as [[v|e] w1] eqn:Ha;
    destruct (attempts_effect _ _ _ _ Ha) as (_ & _ & (extra & Hreq & Hx) & _).
  - intros Hfin. apply finally_block_world in Hfin as (_ & Hr & _).
    exists extra. split; [congruence|auto].
  - destruct (finally_block l sdt w1) as [rf wf] eqn:Hfin.
    apply finally_block_world in Hfin as (_ & Hr & _).
    intros Heq. assert (w' = wf) as -> by (by destruct rf; inversion Heq).
    exists extra. split; [congruence|auto].
Qed.

Lemma loop_state (sdts : list (SettlementDataTuple str * triple)) :
  ∀ (l : Locals) (w : World) l' w',
  disambiguate_loop settlement_disambiguation l sdts w = (Returns l', w') →
  (∀ K, already_resolved l K = true → already_resolved l' K = true)
  ∧ (cache_persisted l w → cache_persisted l' w')
  ∧ (∀ sdt, sdt ∈ sdts →
       already_resolved l' (sdt_key sdt.1) = true ∨ sdt_key sdt.1 ∈ failed l')
  ∧ failed l ⊆ failed l'.
Proof.
  induction sdts as [|sdt rest IH]; intros l w l' w'; cbn [disambiguate_loop].
  - intros [= <- <-]. split_and!; auto. intros sdt Hs. by apply elem_of_nil in Hs.
  - unfold mbind, M_bind.
    destruct (disambiguate_step _ l sdt w) as [[l1|e] w1] eqn:Hstep; [|done].
    intros Hrest.
    destruct (step_state _ _ _ _ _ Hstep) as (Hm1 & Hp1 & Hk1 & Hf1).
    destruct (IH _ _ _ _ Hrest) as (Hm2 & Hp2 & Hk2 & Hf2).
    split_and!; [auto|auto| |set_solver].
    intros s [->|Hs]%elem_of_cons; [|auto].
    destruct Hk1 as [?|?]; [left; auto|right; set_solver].
Qed.

Lemma loop_requests (sdts : list (SettlementDataTuple str * triple)) :
  ∀ (l : Locals) (w : World) r w',
  disambiguate_loop settlement_disambiguation l sdts w = (r, w') →
  ∃ extra, requested w' = requested w ++ extra
    ∧ ∀ x, x ∈ extra →
        ∃ sdt, sdt ∈ sdts ∧ already_resolved l (sdt_key sdt.1) = false
               ∧ request_name sdt.1 = Returns x.
Proof.
  induction sdts as [|sdt rest IH]; intros l w r w'; cbn [disambiguate_loop].
  - intros [= <- <-]. exists []. split; [by rewrite app_nil_r|].
    intros x Hx. by apply elem_of_nil in Hx.
  - unfold mbind, M_bind.
    destruct (disambiguate_step _ l sdt w) as [[l1|e] w1] eqn:Hstep.
    + intros Hrest.
      destruct (step_requests _ _ _ _ _ Hstep) as (ex1 & Hr1 & Hx1).
      destruct (step_state _ _ _ _ _ Hstep) as (Hm1 & _).
      destruct (IH _ _ _ _ Hrest) as (ex2 & Hr2 & Hx2).
      exists (ex1 ++ ex2). split; [by rewrite Hr2, Hr1, app_assoc|].
      intros x [Hx|Hx]%elem_of_app.
      * exists sdt. split; [by left|auto].
      * destruct (Hx2 x Hx) as (s & Hs & Hnew & Hn).
        exists s. split_and!; [by right| |done].
        destruct (already_resolved l (sdt_key s.1)) eqn:E; [|done].
        apply Hm1 in E. congruence.
    + intros [= <- <-].
      destruct (step_requests _ _ _ _ _ Hstep) as (ex1 & Hr1 & Hx1).
      exists ex1. split; [done|]. intros x Hx. exists sdt. split; [by left|auto].
Qed.

(** A run of the resolver that ends normally leaves its two maps in the
    pickled files, and every key of its list is resolved or recorded as a
    failure. *)
Lemma resolve_all_state sdts (w : World) l w' :
  resolve_all settlement_disambiguation sdts w = (Returns l, w') →
  cache_persisted l w'
  ∧ ∀ sdt, sdt ∈ sdts →
      already_resolved l (sdt_key sdt.1) = true ∨ sdt_key sdt.1 ∈ failed l.
Proof.
  unfold resolve_all, mbind, M_bind, get_world.
  destruct (disambiguate_loop _ _ sdts w) as [[l1|e] w1] eqn:Hloop; [|done].
  unfold set_pickled, mret, M_ret. intros [= <- <-].
  destruct (loop_state _ _ _ _ _ Hloop) as (_ & Hp & Hk & _).
  split; [|done]. apply Hp. by split.
Qed.

Lemma resolve_all_requests sdts (w : World) r w' :
  resolve_all settlement_disambiguation sdts w = (r, w') →
  ∃ extra, requested w' = requested w ++ extra
    ∧ ∀ x, x ∈ extra →
        ∃ sdt, sdt ∈ sdts
          ∧ already_resolved
              (mkLocals (default ∅ (triple_to_ekatte (pickled w)))
                 (default ∅ (ekatte_to_triple (pickled w))) ∅ None)
              (sdt_key sdt.1) = false
          ∧ request_name sdt.1 = Returns x.
Proof.
  unfold resolve_all, mbind, M_bind, get_world.
  destruct (disambiguate_loop _ _ sdts w) as [rl w1] eqn:Hloop.
  destruct (loop_requests _ _ _ _ _ Hloop) as (extra & Hr & Hx).
  intros Heq. exists extra. split; [|done].
  destruct rl; unfold set_pickled, mret, M_ret in Heq; inversion Heq; by subst.
Qed.

End CacheRuns.

(** C3. An entry whose key is in the key-to-code map and whose code is in
    the code-to-key map is skipped without any call of the pipeline. After
    a run that ends normally every key of its list is resolved in the
    persisted maps or recorded as a failure; a second run that starts from
    the world the first has left, over any list, sends requests only for
    keys that the first run has not resolved, and none at all when every
    key of its list is resolved. *)
Theorem cache_skips_resolved_keys `{PyEnv} :
  (∀ pipeline (l : Locals) (sdt : SettlementDataTuple str * triple) (w : World) code,
     processed_sdts l !! sdt_key sdt.1 = Some code →
     is_Some (reverse_dict l !! code) →
     disambiguate_step pipeline l sdt w = (Returns l, w))
  ∧ (∀ sdts1 (w0 : World) l1 w1,
     resolve_all settlement_disambiguation sdts1 w0 = (Returns l1, w1) →
     (∀ sdt, sdt ∈ sdts1 →
        already_resolved l1 (sdt_key sdt.1) = true ∨ sdt_key sdt.1 ∈ failed l1)
     ∧ ∀ sdts2 r2 w2,
         resolve_all settlement_disambiguation sdts2 w1 = (r2, w2) →
         ∃ extra, requested w2 = requested w1 ++ extra
           ∧ (∀ x, x ∈ extra →
                ∃ sdt, sdt ∈ sdts2 ∧ already_resolved l1 (sdt_key sdt.1) = false
                       ∧ request_name sdt.1 = Returns x)
           ∧ ((∀ sdt, sdt ∈ sdts2 → already_resolved l1 (sdt_key sdt.1) = true) →
              requested w2 = requested w1)).
Proof.
  split.
  - intros pipeline l sdt w code Hc Hr. apply step_skips.
    apply already_resolved_true. eauto.
  - intros sdts1 w0 l1 w1 Hrun1.
    destruct (resolve_all_state _ _ _ _ Hrun1) as ([Hpp Hpr] & Hkeys).
    split; [done|]. intros sdts2 r2 w2 Hrun2.
    destruct (resolve_all_requests _ _ _ _ Hrun2) as (extra & Hreq & Hx).
    rewrite Hpp, Hpr in Hx.
    assert (Hx' : ∀ x, x ∈ extra →
              ∃ sdt, sdt ∈ sdts2 ∧ already_resolved l1 (sdt_key sdt.1) = false
                     ∧ request_name sdt.1 = Returns x).
    { intros x Hin. destruct (Hx x Hin) as (s & Hs & Hnew & Hn).
      exists s. split_and!; [done| |done]. exact Hnew. }
    exists extra. split_and!; [done..|].
    intros Hall. destruct extra as [|x extra]; [by rewrite Hreq, app_nil_r|].
    destruct (Hx' x ltac:(by left)) as (s & Hs & Hnew & _).
    rewrite (Hall s Hs) in Hnew. done.
Qed.


Lemma cache_skips_resolved_keys_witness :
  ∃ l1 w1,
    resolve_all (settlement_disambiguation (H := BgEnv.env)) [example_sdt]
      (example_world []) = (Returns l1, w1)
    ∧ requested w1 = [u"КАЗАШКА РЕКА"]
    ∧ ∀ r2 w2,
        resolve_all (settlement_disambiguation (H := BgEnv.env)) [example_sdt] w1
        = (r2, w2) →
        requested w2 = requested w1.
Proof.
  assert (Hfirst :
    match resolve_all (settlement_disambiguation (H := BgEnv.env)) [example_sdt]
            (example_world []) with
    | (Returns l1, w1) =>
        already_resolved l1 (sdt_key example_sdt.1)
        && bool_decide (requested w1 = [u"КАЗАШКА РЕКА"])
    | _ => false
    end = true) by (vm_compute; reflexivity).
  destruct (resolve_all (settlement_disambiguation (H := BgEnv.env)) [example_sdt]
              (example_world [])) as [[l1|e] w1] eqn:Hrun; [|done].
  apply andb_true_iff in Hfirst as [Hresolved Hsent%bool_decide_eq_true].
  exists l1, w1. split_and!; [reflexivity|done|].
  intros r2 w2 Hrun2.
  destruct (proj2 (cache_skips_resolved_keys (H := BgEnv.env)) _ _ _ _ Hrun)
    as [_ Hsecond].
  destruct (Hsecond _ _ _ Hrun2) as (extra & _ & _ & Hnone).
  apply Hnone. by intros s ->%list_elem_of_singleton.
Defined.

(** ** Disambiguated frames and the period merger *)

Section KeepFirst.
Context {A : Type}.
Implicit Types rows : list (str * A).

Lemma keep_first_elem seen rows r :
  r ∈ keep_first seen rows → r ∈ rows ∧ r.1 ∉ seen.
Proof.
  revert seen. induction rows as [|[code x] rows IH]; intros seen; simpl.
  - by intros ?%elem_of_nil.
  - case_bool_decide as Hseen.
    + intros [? ?]%IH. split; [by right|done].
    + intros [->|Hr]%elem_of_cons; [split; [by left|done]|].
      apply IH in Hr as [? Hn]. split; [by right|].
      intros ?. apply Hn. by right.
Qed.

Lemma keep_first_keys seen rows k :
  k ∈ (keep_first seen rows).*1 ↔ k ∈ rows.*1 ∧ k ∉ seen.
Proof.
  revert seen. induction rows as [|[code x] rows IH]; intros seen; simpl.
  - rewrite elem_of_nil. tauto.
  - case_bool_decide as Hseen; simpl; rewrite ?elem_of_cons, IH, ?elem_of_cons.
    + split; [tauto|]. intros [[->|?] ?]; tauto.
    + destruct (decide (k = code)) as [->|Hne]; tauto.
Qed.

Lemma keep_first_NoDup seen rows : NoDup (keep_first seen rows).*1.
Proof.
  revert seen. induction rows as [|[code x] rows IH]; intros seen; simpl.
  - constructor.
  - case_bool_decide as Hseen; [apply IH|]. simpl.
    apply NoDup_cons. split; [|apply IH].
    rewrite keep_first_keys, elem_of_cons. tauto.
Qed.

(** Of the rows with one label the first is kept, and only it. *)
Lemma keep_first_filter seen rows (c : str) :
  filter (λ r, r.1 = c) (keep_first seen rows)
  = if decide (c ∈ seen) then [] else take 1 (filter (λ r, r.1 = c) rows).
Proof.
  revert seen. induction rows as [|[code x] rows IH]; intros seen; simpl.
  - by destruct (decide _).
  - case_bool_decide as Hseen.
    + rewrite IH. destruct (decide (c ∈ seen)) as [|Hc]; [done|].
      rewrite filter_cons_False; [done|]. simpl. by intros ->.
    + destruct (decide (code = c)) as [->|Hne].
      * rewrite !filter_cons_True by done. rewrite IH.
        rewrite decide_True by (by left). by rewrite decide_False by done.
      * rewrite !filter_cons_False by done. rewrite IH.
        destruct (decide (c ∈ seen)) as [Hc|Hc].
        -- rewrite decide_True; [done|by right].
        -- rewrite decide_False; [done|].
           intros [?|?]%elem_of_cons; congruence.
Qed.

End KeepFirst.

Section FrameFacts.
Context `{PyEnv}.

Lemma updt_all_rows processed rows updated :
  updt_all processed rows = Returns updated →
  Forall2 (λ x r, r.1 = x
             ∧ ∃ key, key_of_name (fsi_region x, fsi_municipality x,
                                   fsi_settlement x) = Returns key
                      ∧ r.2 = processed !! key) rows updated.
Proof.
  revert updated. induction rows as [|x rows IH]; intros updated; simpl.
  - intros [= <-]. constructor.
  - unfold updt at 1.
    destruct (key_of_name _) as [key|] eqn:Hkey; simpl; [|done].
    destruct (updt_all processed rows) as [more|]; simpl; [|done].
    intros [= <-]. constructor; [|by apply IH].
    split; [done|]. by exists key.
Qed.

Lemma dropna_elem (updated : list (FullSettlementInfo * option str)) code x :
  (code, x) ∈ dropna updated ↔ (x, Some code) ∈ updated.
Proof.
  unfold dropna. rewrite list_elem_of_omap. split.
  - intros ([x' [c|]] & Hin & Heq); simpl in Heq; [|done].
    by inversion Heq; subst.
  - intros Hin. by exists (x, Some code).
Qed.

(** The rows of a disambiguated frame: rows of the period frame, each
    under the code that the map gives to its key; no label twice. *)
Lemma disambiguate_frame_rows processed (dt : DataTuple PeriodFrame) out :
  disambiguate_frame processed dt = Returns out →
  cf_date_string (data out) = pf_date_string (data dt)
  ∧ NoDup (cf_rows (data out)).*1
  ∧ ∀ code x, (code, x) ∈ cf_rows (data out) →
      x ∈ pf_rows (data dt)
      ∧ ∃ key, key_of_name (fsi_region x, fsi_municipality x, fsi_settlement x)
               = Returns key
               ∧ processed !! key = Some code.
Proof.
  unfold disambiguate_frame.
  destruct (updt_all _ _) as [updated|] eqn:Hu; simpl; [|done].
  intros [= <-]. simpl. split_and!; [done|apply keep_first_NoDup|].
  intros code x [Hin _]%keep_first_elem. apply dropna_elem in Hin.
  apply updt_all_rows in Hu.
  apply list_elem_of_lookup in Hin as [i Hi].
  destruct (Forall2_lookup_r _ _ _ _ _ Hu Hi) as (x' & Hx' & Heq & key & Hkey & Hcode).
  simpl in *. subst x'. split; [by eapply list_elem_of_lookup_2|].
  exists key. by rewrite <- Hcode.
Qed.

Lemma disambiguate_frames_rows processed frames coded :
  disambiguate_frames processed frames = Returns coded →
  Forall2 (λ dt out, disambiguate_frame processed dt = Returns out) frames coded.
Proof.
  revert coded. induction frames as [|dt frames IH]; intros coded; simpl.
  - intros [= <-]. constructor.
  - destruct (disambiguate_frame processed dt) as [df|] eqn:Hdf; simpl; [|done].
    destruct (disambiguate_frames processed frames) as [more|]; simpl; [|done].
    intros [= <-]. constructor; [done|by apply IH].
Qed.

End FrameFacts.

Section MergeFacts.
Implicit Types rows : list (str * list cell).

Lemma insert_sorted_elem (k x : str) (l : list str) :
  x ∈ insert_sorted k l ↔ x = k ∨ x ∈ l.
Proof.
  induction l as [|y l IH]; simpl.
  - rewrite list_elem_of_singleton, elem_of_nil. tauto.
  - destruct (str_le k y); rewrite !elem_of_cons, ?IH; tauto.
Qed.

Lemma insert_sorted_NoDup (k : str) (l : list str) :
  k ∉ l → NoDup l → NoDup (insert_sorted k l).
Proof.
  induction l as [|y l IH]; simpl; intros Hk Hl.
  - apply NoDup_singleton.
  - apply NoDup_cons in Hl as [Hy Hl].
    destruct (str_le k y).
    + apply NoDup_cons. split; [done|]. by apply NoDup_cons.
    + apply NoDup_cons. split.
      * rewrite insert_sorted_elem. intros [->|?]; [|done]. apply Hk. by left.
      * apply IH; [|done]. intros ?. apply Hk. by right.
Qed.

Lemma foldr_insert_sorted (l : list str) :
  NoDup l →
  NoDup (foldr insert_sorted [] l) ∧ ∀ x, x ∈ foldr insert_sorted [] l ↔ x ∈ l.
Proof.
  induction l as [|k l IH]; simpl; intros Hl.
  - split; [constructor|done].
  - apply NoDup_cons in Hl as [Hk Hl]. destruct (IH Hl) as [Hn He].
    split.
    + apply insert_sorted_NoDup; [by rewrite He|done].
    + intros x. by rewrite insert_sorted_elem, He, elem_of_cons.
Qed.

Lemma sorted_labels_NoDup (l : list str) : NoDup (sorted_labels l).
Proof. apply foldr_insert_sorted, NoDup_remove_dups. Qed.

Lemma sorted_labels_elem (l : list str) x : x ∈ sorted_labels l ↔ x ∈ l.
Proof.
  unfold sorted_labels.
  rewrite (proj2 (foldr_insert_sorted _ (NoDup_remove_dups l))).
  apply elem_of_remove_dups.
Qed.

Lemma filter_all {A} (P : A → Prop) `{∀ x, Decision (P x)} (l : list A) :
  (∀ x, x ∈ l → P x) → filter P l = l.
Proof.
  induction l as [|x l IH]; intros Hall; [done|].
  rewrite filter_cons_True by (apply Hall; by left).
  f_equal. apply IH. intros y Hy. apply Hall. by right.
Qed.

Lemma filter_none {A} (P : A → Prop) `{∀ x, Decision (P x)} (l : list A) :
  (∀ x, x ∈ l → ¬ P x) → filter P l = [].
Proof.
  induction l as [|x l IH]; intros Hall; [done|].
  rewrite filter_cons_False by (apply Hall; by left).
  apply IH. intros y Hy. apply Hall. by right.
Qed.

Lemma rows_of_nil rows (c : str) : rows_of c rows = [] ↔ c ∉ rows.*1.
Proof.
  unfold rows_of. split.
  - intros Hnil [[c' cells] [-> Hin]]%list_elem_of_fmap.
    apply fmap_nil_inv in Hnil.
    by apply (filter_nil_not_elem_of _ _ (c', cells) Hnil).
  - intros Hc. rewrite filter_none; [done|].
    intros [c' cells] Hin ?. simpl in *. subst c'.
    apply Hc. by apply (list_elem_of_fmap_2 fst) in Hin.
Qed.

Lemma rows_of_elem rows (c : str) cells :
  cells ∈ rows_of c rows ↔ (c, cells) ∈ rows.
Proof.
  unfold rows_of. rewrite list_elem_of_fmap. split.
  - intros ([c' cells'] & -> & [Heq Hin]%list_elem_of_filter).
    simpl in *. by subst.
  - intros Hin. exists (c, cells). split; [done|].
    by apply list_elem_of_filter.
Qed.

Lemma rows_of_cons rows (c k : str) cells :
  rows_of c ((k, cells) :: rows)
  = if decide (k = c) then cells :: rows_of c rows else rows_of c rows.
Proof.
  unfold rows_of. destruct (decide (k = c)) as [->|Hne].
  - by rewrite filter_cons_True.
  - by rewrite filter_cons_False.
Qed.

(** No label twice: every label has at most one row. *)
Lemma NoDup_rows_of rows :
  NoDup rows.*1 ↔ ∀ c, (length (rows_of c rows) ≤ 1)%nat.
Proof.
  induction rows as [|[k cells] rows IH]; simpl.
  - split; [intros _ c; simpl; lia|constructor].
  - rewrite NoDup_cons, IH. split.
    + intros [Hk Hall] c. rewrite rows_of_cons.
      destruct (decide (k = c)) as [->|]; [|done].
      apply rows_of_nil in Hk. rewrite Hk. simpl. lia.
    + intros Hall. split.
      * apply rows_of_nil. specialize (Hall k).
        rewrite rows_of_cons, decide_True in Hall by done.
        destruct (rows_of k rows); [done|simpl in Hall; lia].
      * intros c. specialize (Hall c). rewrite rows_of_cons in Hall.
        destruct (decide (k = c)); simpl in Hall; lia.
Qed.

Lemma rows_of_bind (labels : list str) (f : str → list (str * list cell)) c :
  NoDup labels →
  (∀ k r, r ∈ f k → r.1 = k) →
  rows_of c (labels ≫= f) = if decide (c ∈ labels) then (f c).*2 else [].
Proof.
  intros Hnd Hf. unfold rows_of.
  induction Hnd as [|k labels Hk Hnd IH]; [done|].
  rewrite bind_cons, filter_app, fmap_app, IH.
  destruct (decide (k = c)) as [->|Hne].
  - destruct (decide (c ∈ c :: labels)) as [_|Hn]; [|destruct Hn; by left].
    destruct (decide (c ∈ labels)); [done|].
    rewrite app_nil_r, filter_all; [done|]. intros r Hr. by apply Hf.
  - rewrite filter_none.
    2:{ intros r Hr ?. apply Hne. by rewrite <- (Hf k r Hr). }
    simpl. destruct (decide (c ∈ labels)) as [Hc|Hc];
      destruct (decide (c ∈ k :: labels)) as [Hc'|Hc']; try done.
    + destruct Hc'. by right.
    + apply elem_of_cons in Hc' as [?|?]; congruence.
Qed.

(** The rows of a label in a merge, from its rows on the two sides. *)
Lemma merge_rows_of (left right : WideFrame) (c : str) :
  rows_of c (wf_rows (merge_outer left right))
  = match rows_of c (wf_rows left), rows_of c (wf_rows right) with
    | [], rs => (λ r, replicate (length (columns left)) CNaN ++ r) <$> rs
    | ls, [] => (λ l, l ++ replicate (length (columns right)) CNaN) <$> ls
    | ls, rs => l ← ls; (λ r, l ++ r) <$> rs
    end.
Proof.
  unfold merge_outer. cbn [wf_rows].
  rewrite rows_of_bind; [|apply sorted_labels_NoDup|].
  - destruct (decide (c ∈ _)) as [Hc|Hc].
    + destruct (rows_of c (wf_rows left)) as [|l ls],
               (rows_of c (wf_rows right)) as [|r rs].
      * done.
      * rewrite <- list_fmap_compose. by apply list_fmap_ext.
      * rewrite <- list_fmap_compose. by apply list_fmap_ext.
      * generalize (l :: ls). intros ls'. induction ls' as [|l' ls' IH]; [done|].
        rewrite !bind_cons, fmap_app, IH. f_equal.
        rewrite <- list_fmap_compose. by apply list_fmap_ext.
    + rewrite sorted_labels_elem, elem_of_app in Hc.
      rewrite (proj2 (rows_of_nil (wf_rows left) c)) by tauto.
      by rewrite (proj2 (rows_of_nil (wf_rows right) c)) by tauto.
  - intros k r.
    destruct (rows_of k (wf_rows left)) as [|l ls],
             (rows_of k (wf_rows right)) as [|r0 rs].
    + by intros ?%elem_of_nil.
    + by intros (? & -> & _)%list_elem_of_fmap.
    + by intros (? & -> & _)%list_elem_of_fmap.
    + intros (l' & Hr & _)%list_elem_of_bind.
      by apply list_elem_of_fmap in Hr as (? & -> & _).
Qed.

End MergeFacts.

Lemma bind_singleton {A B} (f : A → list B) (x : A) : [x] ≫= f = f x.
Proof. rewrite bind_cons. apply app_nil_r. Qed.

Lemma bind_snoc {A B} (f : A → list B) (l : list A) (x : A) :
  (l ++ [x]) ≫= f = (l ≫= f) ++ f x.
Proof. by rewrite bind_app, bind_singleton. Qed.

Section CombineFacts.
Context `{PyEnv}.

Lemma drop_names_keys (df : CodedFrame) :
  (wf_rows (drop_names df)).*1 = (cf_rows df).*1.
Proof.
  unfold drop_names. cbn [wf_rows]. rewrite <- list_fmap_compose.
  by apply list_fmap_ext.
Qed.

Lemma rows_of_drop_names (df : CodedFrame) (c : str) :
  rows_of c (wf_rows (drop_names df))
  = (λ x, [CStr (fsi_permanent_residents x); CStr (fsi_current_residents x)])
    <$> (filter (λ r, r.1 = c) (cf_rows df)).*2.
Proof.
  unfold drop_names, rows_of. cbn [wf_rows].
  induction (cf_rows df) as [|[k x] rows IH]; [done|].
  rewrite fmap_cons. destruct (decide (k = c)) as [->|Hne].
  - rewrite !filter_cons_True by done. rewrite !fmap_cons. by rewrite IH.
  - by rewrite !filter_cons_False by done.
Qed.

Lemma coded_row_None (df : CodedFrame) (c : str) :
  coded_row df c = None ↔ c ∉ (cf_rows df).*1.
Proof.
  unfold coded_row. split.
  - intros Hnone [[c' x] [-> Hin]]%list_elem_of_fmap.
    destruct (filter _ _) as [|r rs] eqn:Hf; [|done].
    by apply (filter_nil_not_elem_of _ _ (c', x) Hf).
  - intros Hc. rewrite filter_none; [done|].
    intros [c' x] Hin ?. simpl in *. subst c'.
    apply Hc. by apply (list_elem_of_fmap_2 fst) in Hin.
Qed.

(** With no label twice, the rows of a code in a period frame stripped of
    its name columns are its two cells, or nothing. *)
Lemma rows_of_drop_names_NoDup (df : CodedFrame) (c : str) :
  NoDup (cf_rows df).*1 →
  rows_of c (wf_rows (drop_names df))
  = match coded_row df c with
    | Some _ => [merged_cells df c]
    | None => []
    end.
Proof.
  intros Hnd. rewrite <- drop_names_keys in Hnd.
  pose proof (proj1 (NoDup_rows_of _) Hnd c) as Hlen.
  rewrite rows_of_drop_names in Hlen |- *.
  unfold merged_cells, coded_row.
  destruct ((filter _ (cf_rows df)).*2) as [|x [|y l]]; simpl in *; [done..|lia].
Qed.

Lemma merged_cells_uncovered (prefix : list CodedFrame) (c : str) :
  ¬ covers prefix c →
  prefix ≫= (λ df, merged_cells df c) = replicate (2 * length prefix) CNaN.
Proof.
  unfold covers. induction prefix as [|df prefix IH]; intros Hc; [done|].
  rewrite bind_cons, IH.
  2:{ intros ?. apply Hc. by right. }
  unfold merged_cells. rewrite (proj2 (coded_row_None df c)).
  2:{ intros ?. apply Hc. by left. }
  simpl. by rewrite Nat.add_0_r, <- plus_n_Sm.
Qed.

Lemma merged_columns_length (left right : list str) :
  length (merged_columns left right) = (length left + length right)%nat.
Proof. unfold merged_columns. by rewrite length_app, !length_map. Qed.

Lemma merged_so_far_first (df : CodedFrame) :
  NoDup (cf_rows df).*1 → merged_so_far [df] (drop_names df).
Proof.
  intros Hnd. split; [done|]. intros c.
  rewrite rows_of_drop_names_NoDup by done. unfold covers.
  destruct (coded_row df c) as [x|] eqn:Hrow.
  - rewrite decide_True; [by rewrite bind_singleton|].
    left. apply dec_stable. intros Hc. apply coded_row_None in Hc. congruence.
  - rewrite decide_False; [done|].
    intros [Hc|[]%Exists_nil]%Exists_cons. by apply coded_row_None in Hrow.
Qed.

Lemma merged_so_far_step (prefix : list CodedFrame) combined (df : CodedFrame) :
  merged_so_far prefix combined → NoDup (cf_rows df).*1 →
  merged_so_far (prefix ++ [df]) (merge_outer combined (drop_names df)).
Proof.
  intros [Hcols Hrows] Hnd. split.
  - cbn [merge_outer columns]. rewrite merged_columns_length, Hcols, length_app.
    simpl. lia.
  - intros c. rewrite merge_rows_of, Hrows, rows_of_drop_names_NoDup by done.
    rewrite Hcols. unfold covers in *. rewrite bind_snoc.
    destruct (decide (Exists _ prefix)) as [Hp|Hp];
      destruct (coded_row df c) as [x|] eqn:Hrow.
    + rewrite decide_True by (apply Exists_app; by left).
      simpl. by rewrite ?app_nil_r.
    + rewrite decide_True by (apply Exists_app; by left).
      simpl. unfold merged_cells. by rewrite Hrow.
    + rewrite decide_True.
      2:{ apply Exists_app. right. left. apply dec_stable. intros Hc.
          apply coded_row_None in Hc. congruence. }
      simpl. by rewrite merged_cells_uncovered.
    + rewrite decide_False; [done|].
      intros [?|[Hc|[]%Exists_nil]%Exists_cons]%Exists_app; [done|].
      by apply coded_row_None in Hrow.
Qed.

Lemma combine_loop_merged (rest : list (DataTuple CodedFrame)) :
  ∀ prefix combined,
  merged_so_far prefix combined →
  Forall (λ dt, NoDup (cf_rows (data dt)).*1) rest →
  ∃ combined', combine_loop rest (Some combined) = Some combined'
               ∧ merged_so_far (prefix ++ (data <$> rest)) combined'.
Proof.
  induction rest as [|dt rest IH]; intros prefix combined Hm Hnd; simpl.
  - exists combined. by rewrite app_nil_r.
  - apply Forall_cons in Hnd as [Hdt Hnd].
    destruct (IH (prefix ++ [data dt]) _ (merged_so_far_step _ _ _ Hm Hdt) Hnd)
      as (combined' & Hc & Hm').
    exists combined'. split; [done|]. by rewrite <- app_assoc in Hm'.
Qed.

End CombineFacts.

Section CoercionFacts.
Context `{PyEnv}.

Lemma rows_of_fillna (df : WideFrame) (c : str) :
  rows_of c (wf_rows (fillna df))
  = (λ cells : list cell, filled <$> cells) <$> rows_of c (wf_rows df).
Proof.
  unfold fillna, rows_of. cbn [wf_rows].
  induction (wf_rows df) as [|[k cells] rows IH]; [done|].
  rewrite fmap_cons. destruct (decide (k = c)) as [->|Hne].
  - rewrite !filter_cons_True by done. rewrite !fmap_cons. by rewrite IH.
  - by rewrite !filter_cons_False by done.
Qed.

Lemma astype_int_column_rows (j : nat) rows rows' :
  astype_int_column j rows = Returns rows' →
  Forall2 (λ r r', r'.1 = r.1
             ∧ ∃ c c', r.2 !! j = Some c ∧ int_cell c = Returns c'
                       ∧ r'.2 = <[j := c']> r.2) rows rows'.
Proof.
  revert rows'. induction rows as [|[k cells] rows IH]; intros rows'; simpl.
  - intros [= <-]. constructor.
  - destruct (cells !! j) as [c|] eqn:Hc; simpl; [|done].
    destruct (int_cell c) as [c'|] eqn:Hint; simpl; [|done].
    destruct (astype_int_column j rows) as [rest|]; simpl; [|done].
    intros [= <-]. constructor; [|by apply IH].
    split; [done|]. by exists c, c'.
Qed.

(** After the columns [a], ..., [a + m - 1] have been coerced, their cells
    are the integers of the cells before, and the other cells are as
    before. *)
Lemma astype_int_columns_rows (m : nat) :
  ∀ (a : nat) rows rows',
  astype_int_columns (seq a m) rows = Returns rows' →
  Forall2 (λ r r', r'.1 = r.1 ∧ coerced_from a m r.2 r'.2) rows rows'.
Proof.
  induction m as [|m IH]; intros a rows rows'; simpl.
  - intros [= <-]. apply Forall2_same_length_lookup_2; [done|].
    intros i r r' Hr Hr'. simplify_eq. split; [done|].
    split_and!; [done| |done]. lia.
  - destruct (astype_int_column a rows) as [mid|] eqn:Hcol; simpl; [|done].
    intros Hrest. apply astype_int_column_rows in Hcol. apply IH in Hrest.
    eapply Forall2_trans; [|exact Hcol|exact Hrest].
    intros r rm r' (Hk1 & c & c' & Hc & Hint & Hrm) (Hk2 & Hlen & Hin & Hout).
    rewrite Hrm in *. rewrite length_insert in Hlen.
    split; [congruence|]. split_and!; [done| |].
    + intros i Hi. destruct (decide (i = a)) as [->|Hne].
      * exists c, c'. split_and!; [done..|].
        rewrite Hout by lia. apply list_lookup_insert_eq.
        by eapply lookup_lt_Some.
      * destruct (Hin i ltac:(lia)) as (d & d' & Hd & Hdint & Hd').
        rewrite list_lookup_insert_ne in Hd by done. by exists d, d'.
    + intros i Hi. rewrite Hout by lia. apply list_lookup_insert_ne. lia.
Qed.

Lemma Forall2_rows_of (R : list cell → list cell → Prop) rows rows' (c : str) :
  Forall2 (λ r r' : str * list cell, r'.1 = r.1 ∧ R r.2 r'.2) rows rows' →
  Forall2 R (rows_of c rows) (rows_of c rows').
Proof.
  induction 1 as [|[k cells] [k' cells'] rows rows' [Hk HR] _ IH]; [constructor|].
  simpl in *. subst k'. rewrite !rows_of_cons.
  destruct (decide (k = c)); [by constructor|done].
Qed.

Lemma Forall2_keys (R : list cell → list cell → Prop) rows rows' :
  Forall2 (λ r r' : str * list cell, r'.1 = r.1 ∧ R r.2 r'.2) rows rows' →
  rows'.*1 = rows.*1.
Proof.
  induction 1 as [|r r' rows rows' [Hk _] _ IH]; [done|].
  by rewrite !fmap_cons, Hk, IH.
Qed.

(** The coerced cells of a row of the merge are the counts of the code,
    period after period. *)
Lemma coerced_cells (prefix : list CodedFrame) (c : str) (cells' : list cell) :
  Forall2 (λ x x', int_cell x = Returns x')
    (filled <$> (prefix ≫= (λ df, merged_cells df c))) cells' →
  ∃ counts : list (Z * Z),
    Forall2 (λ df pq, period_counts df c pq) prefix counts
    ∧ cells' = counts ≫= (λ pq, [CInt pq.1; CInt pq.2]).
Proof.
  revert cells'. induction prefix as [|df prefix IH]; intros cells'.
  - intros ->%Forall2_nil_inv_l. exists []. split; [constructor|done].
  - rewrite bind_cons, fmap_app.
    intros (k1 & k2 & H1 & H2 & ->)%Forall2_app_inv_l.
    destruct (IH _ H2) as (counts & Hcounts & ->).
    unfold merged_cells in H1.
    destruct (coded_row df c) as [x|] eqn:Hrow; simpl in H1.
    + apply Forall2_cons_inv_l in H1 as (p' & k1' & Hp & H1 & ->).
      apply Forall2_cons_inv_l in H1 as (q' & k1'' & Hq & ->%Forall2_nil_inv_l & ->).
      simpl in Hp, Hq.
      destruct (int (fsi_permanent_residents x)) as [p|] eqn:Hpi; simpl in Hp; [|done].
      destruct (int (fsi_current_residents x)) as [q|] eqn:Hqi; simpl in Hq; [|done].
      simplify_eq. exists ((p, q) :: counts). split; [|done].
      constructor; [|done]. unfold period_counts. by rewrite Hrow.
    + apply Forall2_cons_inv_l in H1 as (p' & k1' & Hp & H1 & ->).
      apply Forall2_cons_inv_l in H1 as (q' & k1'' & Hq & ->%Forall2_nil_inv_l & ->).
      simpl in Hp, Hq. simplify_eq.
      exists ((0, 0) :: counts). split; [|done].
      constructor; [|done]. unfold period_counts. by rewrite Hrow.
Qed.

Lemma merged_cells_length (prefix : list CodedFrame) (c : str) :
  length (prefix ≫= (λ df, merged_cells df c)) = (2 * length prefix)%nat.
Proof.
  induction prefix as [|df prefix IH]; [done|].
  rewrite bind_cons, length_app, IH. unfold merged_cells.
  destruct (coded_row df c); simpl; lia.
Qed.

(** The table that [combine_data] returns and pickles: one row for each
    code of one of the tables, and in it the counts of the code, period
    after period. *)
Lemma combine_data_rows (processed_data : list (DataTuple CodedFrame))
    (w : World) out w' :
  Forall (λ dt, NoDup (cf_rows (data dt)).*1) processed_data →
  combine_data processed_data w = (Returns out, w') →
  ∃ combined,
    out = [mkDataTuple combined Old Quarterly]
    ∧ combined_tables (pickled w') = Some combined
    ∧ csv_tables w' = csv_tables w ∧ csv_combined w' = csv_combined w
    ∧ NoDup (wf_rows combined).*1
    ∧ (∀ c, c ∈ (wf_rows combined).*1 ↔
            ∃ dt, dt ∈ processed_data ∧ c ∈ (cf_rows (data dt)).*1)
    ∧ ∀ c cells, (c, cells) ∈ wf_rows combined →
        ∃ counts : list (Z * Z),
          Forall2 (λ dt pq, period_counts (data dt) c pq) processed_data counts
          ∧ cells = counts ≫= (λ pq, [CInt pq.1; CInt pq.2]).
Proof.
  intros Hnd. unfold combine_data.
  destruct processed_data as [|dt rest]; [done|].
  apply Forall_cons in Hnd as [Hdt Hrest].
  destruct (combine_loop_merged rest [data dt] _ (merged_so_far_first _ Hdt) Hrest)
    as (merged & Hloop & Hcols & Hrows).
  cbn [combine_loop]. rewrite Hloop.
  change ([data dt] ++ (data <$> rest)) with (data <$> (dt :: rest)) in *.
  set (frames := data <$> dt :: rest) in *.
  cbv zeta. unfold mbind, M_bind, lift.
  change (columns (fillna merged)) with (columns merged).
  destruct (astype_int_columns _ (wf_rows (fillna merged))) as [rows|] eqn:Hast;
    [|done].
  unfold set_pickled, mret, M_ret. intros [= <- <-]. cbn.
  eexists. split; [reflexivity|]. split; [reflexivity|].
  split; [reflexivity|]. split; [reflexivity|]. cbn [wf_rows].
  apply astype_int_columns_rows in Hast.
  assert (Hrow : ∀ c, rows_of c rows = [] ∧ ¬ covers frames c
                      ∨ ∃ cells', rows_of c rows = [cells'] ∧ covers frames c
                          ∧ Forall2 (λ x x', int_cell x = Returns x')
                              (filled <$> (frames ≫= (λ df, merged_cells df c)))
                              cells').
  { intros c. pose proof (Forall2_rows_of (coerced_from 0 (length (columns merged))) _ _ c Hast) as Hc.
    rewrite rows_of_fillna, Hrows in Hc.
    destruct (decide (covers frames c)) as [Hcov|Hcov].
    - right. simpl in Hc.
      apply Forall2_cons_inv_l in Hc as (cells' & k & (Hlen & Hin & _) & ->%Forall2_nil_inv_l & Heq).
      exists cells'. split_and!; [done..|].
      apply Forall2_same_length_lookup_2; [done|].
      intros i x x' Hx Hx'.
      assert (i < length (columns merged))%nat as Hi.
      { apply lookup_lt_Some in Hx.
        by rewrite length_fmap, merged_cells_length, <- Hcols in Hx. }
      destruct (Hin i ltac:(lia)) as (d & d' & Hd & Hdint & Hd').
      assert (Some d = Some x) as [= ->] by (rewrite <- Hx; exact (eq_sym Hd)).
      congruence.
    - left. simpl in Hc. by apply Forall2_nil_inv_l in Hc. }
  split_and!.
  - apply NoDup_rows_of. intros c.
    destruct (Hrow c) as [[-> _]|(cells' & -> & _)]; simpl; lia.
  - intros c.
    assert (c ∈ rows.*1 ↔ covers frames c) as ->.
    { destruct (Hrow c) as [[Hn Hc]|(cells' & Hn & Hc & _)].
      - apply rows_of_nil in Hn. tauto.
      - split; [done|]. intros _. apply dec_stable. intros Hnot.
        apply rows_of_nil in Hnot. congruence. }
    unfold covers, frames. rewrite Exists_exists. split.
    + intros (df & (dt' & -> & Hdt')%list_elem_of_fmap & Hc). by exists dt'.
    + intros (dt' & Hdt' & Hc). exists (data dt').
      split; [by apply list_elem_of_fmap_2|done].
  - intros c cells Hin. apply rows_of_elem in Hin.
    destruct (Hrow c) as [[Hn _]|(cells' & Hn & _ & Hconv)];
      rewrite Hn in Hin; [by apply elem_of_nil in Hin|].
    apply list_elem_of_singleton in Hin as ->.
    destruct (coerced_cells _ _ _ Hconv) as (counts & Hcounts & ->).
    exists counts. split; [|done]. unfold frames in Hcounts.
    by apply Forall2_fmap_l in Hcounts.
Qed.

End CoercionFacts.

Section OutputFacts.
Context `{PyEnv}.

(** [store_data_list] writes each table under its date and returns its
    argument. *)
Lemma store_data_list_run (processed_data : list (DataTuple CodedFrame)) (w : World) :
  store_data_list processed_data w
  = (Returns processed_data,
     mkWorld (nsi w) (grao w) (requested w) (slept w) (pickled w)
       (csv_tables w ++ ((λ dt, (cf_date_string (data dt), data dt)) <$> processed_data))
       (csv_combined w)).
Proof.
  revert w. induction processed_data as [|dt rest IH]; intros w.
  - simpl. unfold mret, M_ret. rewrite app_nil_r. by destruct w.
  - cbn [store_data_list]. unfold mbind, M_bind at 1. simpl.
    unfold mbind, M_bind. rewrite IH. unfold mret, M_ret. simpl.
    by rewrite <- app_assoc.
Qed.

(** The parts of a run of [disambiguate_data] that ends normally. *)
Lemma disambiguate_data_returns pipeline
    (data_frame_list : list (DataTuple PeriodFrame)) (w : World) coded w' :
  disambiguate_data pipeline data_frame_list w = (Returns coded, w') →
  ∃ sdt_list l w1,
    sdt_list_of data_frame_list = Returns sdt_list
    ∧ resolve_all pipeline sdt_list w = (Returns l, w1)
    ∧ disambiguate_frames (processed_sdts l) data_frame_list = Returns coded
    ∧ data_frames_list_disambiguated (pickled w') = Some coded
    ∧ csv_tables w' = csv_tables w1 ∧ csv_combined w' = csv_combined w1.
Proof.
  unfold disambiguate_data. unfold mbind at 1, M_bind, lift.
  destruct (sdt_list_of data_frame_list) as [sdt_list|]; [|done].
  unfold mbind at 1, M_bind.
  destruct (resolve_all pipeline sdt_list w) as [[l|] w1] eqn:Hres; [|done].
  unfold mbind at 1, M_bind.
  destruct (disambiguate_frames _ _) as [frames|] eqn:Hfr; [|done].
  unfold mbind, M_bind, set_pickled, mret, M_ret. intros [= <- <-].
  by exists sdt_list, l, w1.
Qed.

End OutputFacts.


(** C8. The frame of a period keeps, for each code, the first of the rows
    that have it and no other; the combined table has one row for each
    code of one of the period tables, and in it, period after period, the
    integers of the two counts of the code, or two zeros when the period has
    no row for the code. *)
Theorem period_merge `{PyEnv} :
  (∀ processed (dt : DataTuple PeriodFrame) out,
     disambiguate_frame processed dt = Returns out →
     ∃ updated,
       updt_all processed (pf_rows (data dt)) = Returns updated
       ∧ NoDup (cf_rows (data out)).*1
       ∧ ∀ c, filter (λ r, r.1 = c) (cf_rows (data out))
              = take 1 (filter (λ r, r.1 = c) (dropna updated)))
  ∧ (∀ (processed_data : list (DataTuple CodedFrame)) (w : World) out w',
     Forall (λ dt, NoDup (cf_rows (data dt)).*1) processed_data →
     combine_data processed_data w = (Returns out, w') →
     ∃ combined,
       out = [mkDataTuple combined Old Quarterly]
       ∧ combined_tables (pickled w') = Some combined
       ∧ NoDup (wf_rows combined).*1
       ∧ (∀ c, c ∈ (wf_rows combined).*1 ↔
               ∃ dt, dt ∈ processed_data ∧ c ∈ (cf_rows (data dt)).*1)
       ∧ ∀ c cells, (c, cells) ∈ wf_rows combined →
           ∃ counts : list (Z * Z),
             Forall2 (λ dt pq, period_counts (data dt) c pq) processed_data counts
             ∧ cells = counts ≫= (λ pq, [CInt pq.1; CInt pq.2])).
Proof.
  split.
  - intros processed dt out. unfold disambiguate_frame.
    destruct (updt_all _ _) as [updated|]; simpl; [|done].
    intros [= <-]. exists updated. simpl.
    split_and!; [done|apply keep_first_NoDup|].
    intros c. by rewrite keep_first_filter.
  - intros processed_data w out w' Hnd Hcomb.
    destruct (combine_data_rows _ _ _ _ Hnd Hcomb)
      as (combined & ? & ? & _ & _ & ? & ? & ?).
    by exists combined.
Qed.


Lemma period_merge_witness :
  (∃ out,
     disambiguate_frame (H := BgEnv.env)
       {[ (u"ВАРНА", u"АВРЕН", u"КАЗАШКА РЕКА") := u"35376";
          (u"ВАРНА", u"АВРЕН", u"КАЗАШКА") := u"35376" ]}
       duplicate_example = Returns out
     ∧ cf_rows (data out)
       = [(u"35376", mkFullSettlementInfo (u"ВАРНА") (u"АВРЕН")
                       (u"С. КАЗАШКА РЕКА") (u"120") (u"95"))]
     ∧ NoDup (cf_rows (data out)).*1)
  ∧ ∃ combined w',
      combine_data (H := BgEnv.env) merge_example (example_world [])
      = (Returns [mkDataTuple combined Old Quarterly], w')
      ∧ wf_rows combined
        = [ (u"00014", [CInt 1; CInt 10; CInt 0; CInt 0]);
            (u"00028", [CInt 2; CInt 20; CInt 30; CInt 3]);
            (u"00031", [CInt 0; CInt 0; CInt 40; CInt 4]) ]
      ∧ NoDup (wf_rows combined).*1.
Proof.
  split.
  - assert (Hrows :
      match disambiguate_frame (H := BgEnv.env)
              {[ (u"ВАРНА", u"АВРЕН", u"КАЗАШКА РЕКА") := u"35376";
                 (u"ВАРНА", u"АВРЕН", u"КАЗАШКА") := u"35376" ]}
              duplicate_example with
      | Returns out =>
          bool_decide (cf_rows (data out)
                       = [(u"35376", mkFullSettlementInfo (u"ВАРНА") (u"АВРЕН")
                                       (u"С. КАЗАШКА РЕКА") (u"120") (u"95"))])
      | _ => false
      end = true) by (vm_compute; reflexivity).
    destruct (disambiguate_frame (H := BgEnv.env) _ duplicate_example)
      as [out|e] eqn:Hframe; [|done].
    apply bool_decide_eq_true in Hrows.
    destruct (proj1 (period_merge (H := BgEnv.env)) _ _ _ Hframe)
      as (updated & _ & Hnodup & _).
    exists out. split_and!; [reflexivity|exact Hrows|exact Hnodup].
  - assert (Hrows :
      match combine_data (H := BgEnv.env) merge_example (example_world []) with
      | (Returns [dt], _) =>
          bool_decide (wf_rows (data dt)
                       = [ (u"00014", [CInt 1; CInt 10; CInt 0; CInt 0]);
                           (u"00028", [CInt 2; CInt 20; CInt 30; CInt 3]);
                           (u"00031", [CInt 0; CInt 0; CInt 40; CInt 4]) ])
      | _ => false
      end = true) by (vm_compute; reflexivity).
    destruct (combine_data (H := BgEnv.env) merge_example (example_world []))
      as [[out|e] w'] eqn:Hrun; [|done].
    assert (Hnd : Forall (λ dt, NoDup (cf_rows (data dt)).*1) merge_example)
      by (refine (proj1 (bool_decide_eq_true _) _); vm_compute; reflexivity).
    destruct (proj2 (period_merge (H := BgEnv.env)) _ _ _ _ Hnd Hrun)
      as (combined & -> & _ & Hnodup & _).
    apply bool_decide_eq_true in Hrows. exists combined, w'.
    split_and!; [reflexivity|exact Hrows|exact Hnodup].
Defined.

(** ** Strings *)

Ltac by_evaluation := apply (bool_decide_unpack _); vm_compute; exact I.

Section StrFacts.
Implicit Types s pre rest : str.

Lemma find_at_cons (c x : N) s (i : Z) :
  Str.find_at [c] (x :: s) i = if (c =? x)%N then i else Str.find_at [c] s (i + 1).
Proof. simpl. by rewrite andb_true_r. Qed.

Lemma find_at_map (f : N → N) (c : N) s (i : Z) :
  (∀ x, (c =? f x)%N = (c =? x)%N) →
  Str.find_at [c] (map f s) i = Str.find_at [c] s i.
Proof.
  intros Hf. revert i. induction s as [|x s IH]; intros i; [done|].
  change (map f (x :: s)) with (f x :: map f s).
  rewrite !find_at_cons, Hf. by destruct (c =? x)%N.
Qed.

Lemma find_at_absent (c : N) s (i : Z) : c ∉ s → Str.find_at [c] s i = -1.
Proof.
  revert i. induction s as [|x s IH]; intros i Hc; [done|].
  apply not_elem_of_cons in Hc as [Hne Hc]. rewrite find_at_cons.
  destruct (N.eqb_spec c x); [done|]. by apply IH.
Qed.

Lemma find_at_first (c : N) pre rest (i : Z) :
  c ∉ pre → Str.find_at [c] (pre ++ c :: rest) i = i + Z.of_nat (length pre).
Proof.
  revert i. induction pre as [|x pre IH]; intros i Hc.
  - change ([] ++ c :: rest) with (c :: rest).
    rewrite find_at_cons, N.eqb_refl. simpl. lia.
  - apply not_elem_of_cons in Hc as [Hne Hc].
    change ((x :: pre) ++ c :: rest) with (x :: (pre ++ c :: rest)).
    rewrite find_at_cons. destruct (N.eqb_spec c x); [done|].
    rewrite IH by done. simpl length. lia.
Qed.

Lemma find_at_bound (c : N) s (i : Z) :
  Str.find_at [c] s i = -1 ∨ i ≤ Str.find_at [c] s i.
Proof.
  revert i. induction s as [|x s IH]; intros i; [by left|].
  rewrite find_at_cons. destruct (c =? x)%N; [right; lia|].
  destruct (IH (i + 1)) as [->|?]; [by left|right; lia].
Qed.

Lemma find_at_present (c : N) s (i : Z) :
  c ∈ s → 0 ≤ i → Str.find_at [c] s i ≠ -1.
Proof.
  intros (pre & rest & -> & Hpre)%list_elem_of_split_l Hi.
  rewrite find_at_first by done. lia.
Qed.

Lemma find_from_start (c : N) s : Str.find s [c] 0 = Str.find_at [c] s 0.
Proof.
  unfold Str.find. by destruct (Z.ltb_spec (Z.of_nat (length s)) 0); [lia|].
Qed.

Lemma find_from (c : N) pre rest :
  Str.find (pre ++ rest) [c] (Z.of_nat (length pre))
  = Str.find_at [c] rest (Z.of_nat (length pre)).
Proof.
  unfold Str.find. rewrite length_app.
  destruct (Z.ltb_spec (Z.of_nat (length pre + length rest)) (Z.of_nat (length pre)));
    [lia|].
  by rewrite Nat2Z.id, drop_app_length.
Qed.

Lemma replace_cons (a b c : N) s :
  Str.replace a b (c :: s) = (if (c =? a)%N then b else c) :: Str.replace a b s.
Proof. done. Qed.

Lemma replace_app (a b : N) s rest :
  Str.replace a b (s ++ rest) = Str.replace a b s ++ Str.replace a b rest.
Proof. apply List.map_app. Qed.

Lemma replace_absent (a b : N) s : a ∉ s → Str.replace a b s = s.
Proof.
  induction s as [|x s IH]; intros Ha; [done|].
  apply not_elem_of_cons in Ha as [Hne Ha]. rewrite replace_cons, IH by done.
  by destruct (N.eqb_spec x a).
Qed.

Lemma replace_keeps (a b c : N) s : c ≠ b → c ∉ s → c ∉ Str.replace a b s.
Proof.
  intros Hb. induction s as [|x s IH]; intros Hc; [done|].
  apply not_elem_of_cons in Hc as [Hne Hc]. rewrite replace_cons.
  apply not_elem_of_cons. split; [|by apply IH].
  by destruct (x =? a)%N.
Qed.

Lemma replace_removes (a b : N) s : a ≠ b → a ∉ Str.replace a b s.
Proof.
  intros Hab. induction s as [|x s IH]; [by intros ?%elem_of_nil|].
  rewrite replace_cons. apply not_elem_of_cons. split; [|done].
  by destruct (N.eqb_spec x a).
Qed.

Lemma replace_idem (a b : N) s :
  Str.replace a b (Str.replace a b s) = Str.replace a b s.
Proof.
  induction s as [|x s IH]; [done|]. rewrite !replace_cons, IH. f_equal.
  destruct (N.eqb_spec x a) as [->|Hx]; [|by destruct (N.eqb_spec x a)].
  by destruct (b =? a)%N.
Qed.

Lemma split_nonempty (sep : N) s : Str.split sep s ≠ [].
Proof.
  induction s as [|c s IH]; simpl; [done|].
  destruct (c =? sep)%N; [done|]. by destruct (Str.split sep s).
Qed.

Lemma split_first (sep : N) pre rest :
  sep ∉ pre → Str.split sep (pre ++ sep :: rest) = pre :: Str.split sep rest.
Proof.
  induction pre as [|c pre IH]; intros Hpre.
  - simpl. by rewrite N.eqb_refl.
  - apply not_elem_of_cons in Hpre as [Hne Hpre]. simpl.
    destruct (N.eqb_spec c sep); [done|]. by rewrite IH.
Qed.

Lemma split_absent (sep : N) s : sep ∉ s → Str.split sep s = [s].
Proof.
  induction s as [|c s IH]; intros Hs; [done|].
  apply not_elem_of_cons in Hs as [Hne Hs]. simpl.
  destruct (N.eqb_spec c sep); [done|]. by rewrite IH.
Qed.

Lemma split_parts (sep : N) s : Forall (λ w, sep ∉ w) (Str.split sep s).
Proof.
  induction s as [|c s IH]; simpl.
  - constructor; [by intros ?%elem_of_nil|constructor].
  - destruct (N.eqb_spec c sep) as [->|Hne].
    + constructor; [by intros ?%elem_of_nil|done].
    + destruct (Str.split sep s) as [|w ws] eqn:Hsplit;
        [by apply split_nonempty in Hsplit|].
      apply Forall_cons in IH as [Hw Hws]. constructor; [|done].
      apply not_elem_of_cons. split; [congruence|done].
Qed.

Lemma join_split (sep : N) s : str_join sep (Str.split sep s) = s.
Proof.
  induction s as [|c s IH]; [done|]. simpl Str.split.
  destruct (Str.split sep s) as [|w ws] eqn:Hsplit; [by apply split_nonempty in Hsplit|].
  destruct (N.eqb_spec c sep) as [->|Hne].
  - change (str_join sep ([] :: w :: ws)) with (sep :: str_join sep (w :: ws)).
    by rewrite IH.
  - destruct ws as [|w' ws]; simpl in *; by rewrite <- IH.
Qed.

End StrFacts.

(** ** Name normaliser *)

Lemma repair_soft_sign_absent (s : str) : SOFT_SIGN ∉ s → repair_soft_sign s = s.
Proof.
  intros Hs. unfold repair_soft_sign. cbv zeta.
  by rewrite find_from_start, find_at_absent.
Qed.

Lemma repair_soft_sign_before_o (pre rest : str) :
  SOFT_SIGN ∉ pre →
  repair_soft_sign (pre ++ SOFT_SIGN :: LETTER_O :: rest)
  = pre ++ SOFT_SIGN :: LETTER_O :: rest.
Proof.
  intros Hpre. unfold repair_soft_sign. cbv zeta.
  rewrite find_from_start, find_at_first by done.
  replace (0 + Z.of_nat (length pre)) with (Z.of_nat (length pre)) by lia.
  rewrite find_from, !find_at_cons.
  change (LETTER_O =? SOFT_SIGN)%N with false. rewrite N.eqb_refl. cbv iota.
  rewrite Z.eqb_refl. simpl.
  by destruct (Z.eqb_spec (Z.of_nat (length pre)) (-1)).
Qed.

Lemma repair_soft_sign_elsewhere (pre rest : str) :
  SOFT_SIGN ∉ pre → head rest ≠ Some LETTER_O →
  repair_soft_sign (pre ++ SOFT_SIGN :: rest)
  = Str.replace SOFT_SIGN HARD_SIGN (pre ++ SOFT_SIGN :: rest).
Proof.
  intros Hpre Hrest. unfold repair_soft_sign. cbv zeta.
  rewrite find_from_start, find_at_first by done.
  replace (0 + Z.of_nat (length pre)) with (Z.of_nat (length pre)) by lia.
  rewrite find_from, find_at_cons.
  change (LETTER_O =? SOFT_SIGN)%N with false. cbv iota.
  assert (Str.find_at [LETTER_O] rest (Z.of_nat (length pre) + 1)
          ≠ Z.of_nat (length pre) + 1) as Hpos.
  { destruct rest as [|x rest]; [simpl; lia|]. rewrite find_at_cons.
    destruct (N.eqb_spec LETTER_O x) as [<-|_]; [by destruct Hrest|].
    destruct (find_at_bound LETTER_O rest (Z.of_nat (length pre) + 1 + 1)); lia. }
  destruct (Z.eqb_spec (Z.of_nat (length pre)) (-1)); [lia|].
  by destruct (Z.eqb_spec (Str.find_at [LETTER_O] rest (Z.of_nat (length pre) + 1))
                 (Z.of_nat (length pre) + 1)).
Qed.

Lemma repair_soft_sign_cases (s : str) :
  ((SOFT_SIGN ∉ s) ∧ repair_soft_sign s = s)
  ∨ (∃ pre rest, s = pre ++ SOFT_SIGN :: LETTER_O :: rest ∧ (SOFT_SIGN ∉ pre)
                 ∧ repair_soft_sign s = s)
  ∨ SOFT_SIGN ∉ repair_soft_sign s.
Proof.
  destruct (decide (SOFT_SIGN ∈ s)) as [Hin|Hnot];
    [|left; split; [done|by apply repair_soft_sign_absent]].
  apply list_elem_of_split_l in Hin as (pre & rest & -> & Hpre). right.
  destruct (decide (head rest = Some LETTER_O)) as [Ho|Ho].
  - left. destruct rest as [|x rest]; [done|]. simpl in Ho. simplify_eq.
    exists pre, rest. split_and!; [done..|]. by apply repair_soft_sign_before_o.
  - right. rewrite repair_soft_sign_elsewhere by done.
    by apply replace_removes.
Qed.

Lemma fix_names_key_replace (s : str) :
  fix_names_key s = Str.replace HYPHEN SPACE (repair_soft_sign s).
Proof.
  unfold fix_names_key. cbv zeta. rewrite find_from_start.
  destruct (decide (HYPHEN ∈ repair_soft_sign s)) as [Hin|Hnot].
  - pose proof (find_at_present _ _ 0 Hin ltac:(lia)) as Hpos.
    by destruct (Z.eqb_spec (Str.find_at [HYPHEN] (repair_soft_sign s) 0) (-1)).
  - rewrite find_at_absent, replace_absent by done. done.
Qed.

Lemma fix_names_key_no_hyphen (s : str) : HYPHEN ∉ fix_names_key s.
Proof. rewrite fix_names_key_replace. by apply replace_removes. Qed.

Lemma fix_names_key_idem (s : str) :
  fix_names_key (fix_names_key s) = fix_names_key s.
Proof.
  rewrite !fix_names_key_replace.
  assert (repair_soft_sign (Str.replace HYPHEN SPACE (repair_soft_sign s))
          = Str.replace HYPHEN SPACE (repair_soft_sign s)) as ->.
  { destruct (repair_soft_sign_cases s)
      as [[Hs ->] | [(pre & rest & -> & Hpre & ->) | Hs]].
    - by apply repair_soft_sign_absent, replace_keeps.
    - rewrite replace_app, !replace_cons.
      change (SOFT_SIGN =? HYPHEN)%N with false.
      change (LETTER_O =? HYPHEN)%N with false. cbv iota.
      by apply repair_soft_sign_before_o, replace_keeps.
    - by apply repair_soft_sign_absent, replace_keeps. }
  apply replace_idem.
Qed.

Lemma dict_get_cases (d : list (str * str)) (k default : str) :
  dict_get d k default = default ∨ dict_get d k default ∈ d.*2.
Proof.
  revert default. induction d as [|[k' v] d IH]; intros default; simpl; [by left|].
  destruct (IH (if Str.eqb k' k then v else default)) as [->|Hin].
  - destruct (Str.eqb k' k); [right; by left|by left].
  - right. by right.
Qed.

Lemma fix_names_lookup (s : str) :
  fix_names s = dict_get names (fix_names_key s) (fix_names_key s).
Proof. reflexivity. Qed.

(** X1. The normaliser is idempotent at every name that it does not map to
    the value of its table that is spelled with the soft sign. *)
Theorem fix_names_idempotent_elsewhere (name : str) :
  fix_names name ≠ soft_sign_value →
  fix_names (fix_names name) = fix_names name.
Proof.
  intros Hne.
  assert (Hvalues : Forall (λ v, v = soft_sign_value ∨ fix_names v = v) names.*2)
    by by_evaluation.
  destruct (dict_get_cases names (fix_names_key name) (fix_names_key name))
    as [Hk|Hv].
  - rewrite (fix_names_lookup name), Hk.
    by rewrite fix_names_lookup, fix_names_key_idem.
  - rewrite Forall_forall in Hvalues.
    by destruct (Hvalues (fix_names name) Hv).
Qed.

Lemma fix_names_idempotent_elsewhere_witness :
  fix_names (u"ГЕНЕРАЛ-ТОШОВО") = u"ГЕНЕРАЛ ТОШЕВО"
  ∧ fix_names (fix_names (u"ГЕНЕРАЛ-ТОШОВО")) = fix_names (u"ГЕНЕРАЛ-ТОШОВО").
Proof.
  split; [by vm_compute|].
  apply fix_names_idempotent_elsewhere. by vm_compute.
Defined.

(** X2. The table is consulted with a string that holds no hyphen: an entry
    whose key is written with a hyphen is never selected, and a hyphen in
    the result comes from a value of the table. *)
Theorem hyphenated_keys_are_dead (name : str) :
  fix_names name = dict_get names (fix_names_key name) (fix_names_key name)
  ∧ (HYPHEN ∉ fix_names_key name)
  ∧ (∀ k v, (k, v) ∈ names → HYPHEN ∈ k → fix_names_key name ≠ k)
  ∧ (HYPHEN ∈ fix_names name → fix_names name ∈ names.*2).
Proof.
  split_and!.
  - apply fix_names_lookup.
  - apply fix_names_key_no_hyphen.
  - intros k v _ Hk <-. by apply (fix_names_key_no_hyphen name).
  - intros Hin. rewrite fix_names_lookup in *.
    destruct (dict_get_cases names (fix_names_key name) (fix_names_key name))
      as [Hk|Hv]; [|done].
    rewrite Hk in Hin. by apply fix_names_key_no_hyphen in Hin.
Qed.

Lemma hyphenated_keys_are_dead_witness :
  fix_names_key (u"ПОЛКОВНИК-ЛАМБРИНОВ") ≠ u"ПОЛКОВНИК-ЛАМБРИНОВ"
  ∧ fix_names (u"САН СТЕФАНО") ∈ names.*2.
Proof.
  split.
  - apply (proj1 (proj2 (proj2 (hyphenated_keys_are_dead (u"ПОЛКОВНИК-ЛАМБРИНОВ"))))
             (u"ПОЛКОВНИК-ЛАМБРИНОВ") (u"ПОЛКОВНИК ЛАМБРИНОВО")); by_evaluation.
  - apply (proj2 (proj2 (proj2 (hyphenated_keys_are_dead (u"САН СТЕФАНО"))))).
    by_evaluation.
Defined.

(** X3. The encoding repair looks at the first soft sign only: when the
    letter after it is not [О] every soft sign of the name is replaced, and
    when it is [О] none is, also not a later one that stands before another
    letter. *)
Theorem soft_sign_repair_reads_first_only (pre rest : str) :
  SOFT_SIGN ∉ pre →
  (head rest ≠ Some LETTER_O →
     (SOFT_SIGN ∉ fix_names_key (pre ++ SOFT_SIGN :: rest))
     ∧ fix_names_key (pre ++ SOFT_SIGN :: rest)
       = Str.replace HYPHEN SPACE
           (Str.replace SOFT_SIGN HARD_SIGN (pre ++ SOFT_SIGN :: rest)))
  ∧ fix_names_key (pre ++ SOFT_SIGN :: LETTER_O :: rest)
    = Str.replace HYPHEN SPACE (pre ++ SOFT_SIGN :: LETTER_O :: rest).
Proof.
  intros Hpre. split.
  - intros Hrest. rewrite fix_names_key_replace, repair_soft_sign_elsewhere by done.
    split; [|done]. apply replace_keeps; [done|]. by apply replace_removes.
  - by rewrite fix_names_key_replace, repair_soft_sign_before_o.
Qed.

Lemma soft_sign_repair_reads_first_only_witness :
  (SOFT_SIGN ∉ fix_names_key (u"СИНЬ БЬРДО"))
  ∧ fix_names_key (u"СИНЬО БЬРДО") = u"СИНЬО БЬРДО".
Proof.
  assert (Hpre : SOFT_SIGN ∉ u"СИН") by by_evaluation.
  split.
  - refine (proj1 (proj1 (soft_sign_repair_reads_first_only (u"СИН") (u" БЬРДО") Hpre) _)).
    by vm_compute.
  - exact (proj2 (soft_sign_repair_reads_first_only (u"СИН") (u" БЬРДО") Hpre)).
Defined.

(** ** Requests of the resolver *)

(** X4. The name that [fetch_raw_settlement_data] sends holds no hyphen: a
    name without one is sent as it is, and of a name with hyphens only the
    part between the first and the second is sent. No request is made for a
    name that cannot be encoded, and one request otherwise. *)
Theorem request_name_drops_before_hyphen `{PyEnv} (sdt : SettlementDataTuple str) :
  (∀ name, request_name sdt = Returns name →
     (HYPHEN ∉ name) ∧ windows_1251 name = true)
  ∧ (HYPHEN ∉ sdt_data sdt → windows_1251 (sdt_data sdt) = true →
     request_name sdt = Returns (sdt_data sdt))
  ∧ (∀ a b c, sdt_data sdt = a ++ HYPHEN :: b ++ c →
       HYPHEN ∉ a → HYPHEN ∉ b → c = [] ∨ head c = Some HYPHEN →
       request_name sdt = if windows_1251 b then Returns b else Raises ValueError)
  ∧ (∀ w r w', fetch_raw_settlement_data sdt w = (r, w') →
       match request_name sdt with
       | Returns name =>
           requested w' = requested w ++ [name]
           ∧ (r = Raises ValueError
              ↔ status_code (nsi w (length (requested w)) name) ≠ 200)
       | Raises e => requested w' = requested w ∧ r = Raises e
       end).
Proof.
  assert (Hsecond : ∀ a b c, sdt_data sdt = a ++ HYPHEN :: b ++ c →
       HYPHEN ∉ a → HYPHEN ∉ b → c = [] ∨ head c = Some HYPHEN →
       request_name sdt = if windows_1251 b then Returns b else Raises ValueError).
  { intros a b c Hdata Ha Hb Hc. unfold request_name. cbv zeta.
    rewrite Hdata, find_from_start, find_at_first, split_first by done.
    destruct (Z.eqb_spec (0 + Z.of_nat (length a)) (-1)); [lia|]. simpl negb. cbv iota.
    assert (Str.split HYPHEN (b ++ c) !! 0%nat = Some b) as Hhead.
    { destruct Hc as [->|Hc].
      - by rewrite app_nil_r, split_absent.
      - destruct c as [|x c]; [done|]. simpl in Hc. simplify_eq.
        by rewrite split_first. }
    change ((a :: Str.split HYPHEN (b ++ c)) !! 1%nat)
      with (Str.split HYPHEN (b ++ c) !! 0%nat).
    by rewrite Hhead. }
  assert (Hfirst : HYPHEN ∉ sdt_data sdt →
     request_name sdt
     = if windows_1251 (sdt_data sdt) then Returns (sdt_data sdt)
       else Raises ValueError).
  { intros Hno. unfold request_name. cbv zeta.
    by rewrite find_from_start, find_at_absent. }
  split_and!.
  - intros name Hname.
    destruct (decide (HYPHEN ∈ sdt_data sdt)) as [Hin|Hno].
    + apply list_elem_of_split_l in Hin as (a & rest & Hdata & Ha).
      pose proof (split_parts HYPHEN rest) as Hparts.
      destruct (decide (HYPHEN ∈ rest)) as [Hin|Hno].
      * apply list_elem_of_split_l in Hin as (b & c & -> & Hb).
        rewrite (Hsecond a b (HYPHEN :: c)) in Hname by (by auto).
        destruct (windows_1251 b) eqn:Hb'; by simplify_eq.
      * rewrite (Hsecond a rest []) in Hname by (by rewrite ?app_nil_r; auto).
        destruct (windows_1251 rest) eqn:Hb'; by simplify_eq.
    + rewrite Hfirst in Hname by done.
      destruct (windows_1251 (sdt_data sdt)) eqn:Hb'; by simplify_eq.
  - intros Hno Henc. by rewrite Hfirst, Henc.
  - exact Hsecond.
  - intros w r w'. unfold fetch_raw_settlement_data.
    unfold mbind at 1, M_bind, lift.
    destruct (request_name sdt) as [name|e]; [|by intros [= <- <-]].
    unfold mbind, M_bind, fetch_nsi, raise, lift, mret, M_ret. simpl.
    destruct (Z.eqb_spec (status_code (nsi w (length (requested w)) name)) 200)
      as [Hok|Hbad]; simpl; intros [= <- <-]; (split; [done|]); split; done.
Qed.

Lemma request_name_drops_before_hyphen_witness :
  request_name (H := BgEnv.env)
    (mkSettlementDataTuple (u"ВАРНА", u"ВАРНА", u"САН-СТЕФАНО") (u"САН-СТЕФАНО"))
  = Returns (u"СТЕФАНО").
Proof.
  refine (proj1 (proj2 (proj2 (request_name_drops_before_hyphen (H := BgEnv.env)
            (mkSettlementDataTuple (u"ВАРНА", u"ВАРНА", u"САН-СТЕФАНО")
               (u"САН-СТЕФАНО")))))
            (u"САН") (u"СТЕФАНО") [] _ _ _ _); [by vm_compute|by_evaluation..|by left].
Defined.

(** ** File names *)

(** X5. The file of a period table is named after the date string of its
    columns, underscores included: joining what follows the first piece of
    the last column name gives the date string back. *)
Theorem csv_name_is_date_string (df : CodedFrame) :
  csv_name (coded_columns df) = Returns (u"grao_data_" ++ cf_date_string df)
  ∧ ∀ s, str_join UNDERSCORE (Str.split UNDERSCORE s) = s.
Proof.
  split; [|apply join_split].
  unfold csv_name, coded_columns. cbn [last].
  change (u"current_" ++ cf_date_string df)
    with (u"current" ++ UNDERSCORE :: cf_date_string df).
  rewrite split_first by by_evaluation. cbn [skipn]. rewrite drop_0.
  by rewrite join_split.
Qed.

(** ** Regular expressions *)

Section RegexFacts.
Import Regex.

Lemma greedy_inv {R} (p : N → bool) (k : str → option R) (s : str) :
  ∀ lo hi r, greedy p lo hi k s = Some r → ∃ n, k (drop n s) = Some r.
Proof.
  induction s as [|c s IH]; intros lo hi r; cbn [greedy].
  - destruct lo; [|done]. intros Hk. by exists 0%nat.
  - assert (Hstop : match lo with O => k (c :: s) | S _ => None end = Some r →
                    ∃ n, k (drop n (c :: s)) = Some r).
    { destruct lo; [|done]. intros Hk. by exists 0%nat. }
    destruct (p c && negb (bool_decide (hi = Some 0%nat))); [|exact Hstop].
    destruct (greedy p (Nat.pred lo) (Nat.pred <$> hi) k s) as [r'|] eqn:Hg;
      [|exact Hstop].
    intros [= <-]. destruct (IH _ _ _ Hg) as [n Hn]. by exists (S n).
Qed.

(** A match adds one text for each group of the pattern to the texts of the
    groups closed before. *)
Lemma run_prefix (r : list item) :
  ∀ opened caps s res, run r opened caps s = Some res →
  ∃ new, res = caps ++ new ∧ length new = group_count r.
Proof.
  induction r as [|i r IH]; intros opened caps s res; cbn [run group_count].
  - intros [= <-]. exists []. by rewrite app_nil_r.
  - destruct i as [p|p lo hi| |].
    + destruct s as [|c s]; [done|]. destruct (p c); [|done]. apply IH.
    + intros (n & Hn)%greedy_inv. by eapply IH.
    + apply IH.
    + destruct opened as [|o os]; [done|]. intros Hr.
      destruct (IH _ _ _ _ Hr) as (new & -> & Hlen).
      exists (take (length o - length s) o :: new).
      split; [by rewrite <- app_assoc|]. simpl. lia.
Qed.

Lemma search_inv (r : list item) (s : str) res :
  search r s = Some res → ∃ n, run r [] [] (drop n s) = Some res.
Proof.
  induction s as [|c s IH]; cbn [search].
  - destruct (run r [] [] []) eqn:Hr; [|done]. intros [= <-]. by exists 0%nat.
  - destruct (run r [] [] (c :: s)) eqn:Hr.
    + intros [= <-]. by exists 0%nat.
    + intros (n & Hn)%IH. by exists (S n).
Qed.

Lemma search_groups (r : list item) (s : str) m :
  search r s = Some m → length m = group_count r.
Proof.
  intros (n & Hn)%search_inv.
  by destruct (run_prefix _ _ _ _ _ Hn) as (new & -> & ?).
Qed.

(** Items outside groups only move the position forward. *)
Lemma run_plain (r1 : list item) :
  Forall (λ i, match i with Open | Close => False | _ => True end) r1 →
  ∀ r2 opened caps s res, run (r1 ++ r2) opened caps s = Some res →
  ∃ n, run r2 opened caps (drop n s) = Some res.
Proof.
  induction 1 as [|i r1 Hi _ IH]; intros r2 opened caps s res.
  - intros Hr. by exists 0%nat.
  - change ((i :: r1) ++ r2) with (i :: (r1 ++ r2)). cbn [run].
    destruct i as [p|p lo hi| |]; [| |done..].
    + destruct s as [|c s]; [done|]. destruct (p c); [|done].
      intros (n & Hn)%IH. by exists (S n).
    + intros (n1 & Hn)%greedy_inv. apply IH in Hn as (n2 & Hn).
      exists (n1 + n2)%nat. by rewrite <- drop_drop.
Qed.

(** The first group of the two patterns for settlement rows holds the dot
    of the abbreviation of the kind of settlement. *)
Lemma first_group_has_dot `{PyEnv} (tail : list item) (line : str) m :
  search (group (RegexPatternWrapper.type_abbr ++ RegexPatternWrapper.name) ++ tail)
    line = Some m →
  ∃ g, m !! 0%nat = Some g ∧ DOT ∈ g ∧ length m = S (group_count tail).
Proof.
  intros (n & Hrun)%search_inv. revert Hrun. generalize (drop n line). intros s0.
  change (group (RegexPatternWrapper.type_abbr ++ RegexPatternWrapper.name) ++ tail)
    with (Open :: Many RegexPatternWrapper.cap_letter 1 (Some 2%nat)
            :: Chr (only DOT) :: (RegexPatternWrapper.name ++ Close :: tail)).
  cbn [run]. intros (n1 & Hrun)%greedy_inv.
  destruct (drop n1 s0) as [|ch s2] eqn:Hs2; [done|].
  unfold only in Hrun at 1.
  destruct (N.eqb_spec ch DOT) as [->|_]; [|done].
  apply run_plain in Hrun as (n2 & Hrun); [|by repeat constructor].
  cbn [run] in Hrun.
  destruct (run_prefix _ _ _ _ _ Hrun) as (new & -> & Hnew).
  eexists. split; [done|]. split; [|simpl; lia].
  assert (s0 !! n1 = Some DOT) as Hdot.
  { by rewrite <- (Nat.add_0_r n1), <- lookup_drop, Hs2. }
  assert (length (drop n1 s0) = S (length s2)) as Hlen by (by rewrite Hs2).
  rewrite length_drop in Hlen.
  pose proof (length_drop s2 n2) as Hlen2.
  apply (list_elem_of_lookup_2 _ n1). rewrite lookup_take_lt; [done|]. lia.
Qed.

End RegexFacts.

(** ** Table parser *)

Section ParserFacts.
Context `{PyEnv}.

Lemma settlement_info_re_groups (table_type : TableTypeEnum) :
  ∃ tail,
    settlement_info_re table_type
    = Regex.group (RegexPatternWrapper.type_abbr ++ RegexPatternWrapper.name) ++ tail
    ∧ (current_population_position table_type ≤ group_count tail)%nat
    ∧ (2 ≤ group_count tail)%nat.
Proof.
  destruct table_type; eexists; (split; [reflexivity|]); simpl; lia.
Qed.

(** What [parse_data_line] returns for a line that its pattern matches. *)
Lemma parse_data_line_matched (line : str) (table_type : TableTypeEnum) m :
  Regex.search (settlement_info_re table_type) line = Some m →
  ∃ g abbr rest permanent current,
    m !! 0%nat = Some g
    ∧ Str.split DOT g !! 0%nat = Some abbr ∧ Str.split DOT g !! 1%nat = Some rest
    ∧ m !! 1%nat = Some permanent
    ∧ m !! (current_population_position table_type - 1)%nat = Some current
    ∧ parse_data_line line table_type
      = Returns (Some (mkSettlementInfo
                         (Str.strip isspace (abbr ++ [DOT; SPACE] ++ fix_names rest))
                         permanent current)).
Proof.
  intros Hm. destruct (settlement_info_re_groups table_type) as (tail & Hre & Hcur & H2).
  pose proof Hm as Hm'. rewrite Hre in Hm'.
  apply first_group_has_dot in Hm' as (g & Hg & Hdot & Hlen).
  apply list_elem_of_split_l in Hdot as (abbr & after & -> & Habbr).
  destruct (Str.split DOT after) as [|rest parts] eqn:Hafter;
    [by apply split_nonempty in Hafter|].
  destruct (lookup_lt_is_Some_2 m 1) as [permanent Hp]; [lia|].
  destruct (lookup_lt_is_Some_2 m (current_population_position table_type - 1))
    as [current Hc]; [destruct table_type; simpl in *; lia|].
  exists (abbr ++ DOT :: after), abbr, rest, permanent, current.
  rewrite split_first, Hafter by done.
  split_and!; [done..|].
  unfold parse_data_line.
  destruct table_type; unfold settlement_info_re in Hm; rewrite Hm;
    unfold Regex.group_text; cbn [Nat.sub]; simpl in Hc; rewrite Hg, Hp, Hc;
    cbn [mbind outcome_bind]; by rewrite split_first, Hafter.
Qed.

Lemma parse_data_line_unmatched (line : str) (table_type : TableTypeEnum) :
  Regex.search (settlement_info_re table_type) line = None →
  parse_data_line line table_type = Returns None.
Proof.
  unfold parse_data_line.
  by destruct table_type; unfold settlement_info_re; intros ->.
Qed.

Lemma parse_data_line_returns (line : str) (table_type : TableTypeEnum) :
  ∃ r, parse_data_line line table_type = Returns r.
Proof.
  destruct (Regex.search (settlement_info_re table_type) line) as [m|] eqn:Hm.
  - apply parse_data_line_matched in Hm as (? & ? & ? & ? & ? & _ & _ & _ & _ & _ & ->).
    eauto.
  - rewrite parse_data_line_unmatched by done. eauto.
Qed.

(** The match kept in the attribute of [parse_header_line] has a group. *)
Lemma parse_header_line_returns (region_attr : option (list str)) (line : str)
    (header_type : HeaderEnum) :
  (∀ m, region_attr = Some m → m ≠ []) →
  ∃ r region_attr',
    parse_header_line region_attr line header_type = (Returns r, region_attr')
    ∧ ∀ m, region_attr' = Some m → m ≠ [].
Proof.
  intros Hattr. unfold parse_header_line. destruct header_type.
  - destruct region_attr as [region_match|].
    + destruct (Regex.search RegexPatternWrapper.old_mun line) as [mun_gr|] eqn:Hmun;
        [|by eexists _, _].
      apply search_groups in Hmun.
      destruct region_match as [|region tl]; [by destruct (Hattr [])|].
      destruct mun_gr as [|municipality tl']; [done|].
      by eexists _, _.
    + eexists _, _. split; [done|].
      intros m Hm%search_groups ->. done.
  - destruct (Regex.search RegexPatternWrapper.region_name_new line)
      as [region_gr|] eqn:Hnew; [|by eexists _, _].
    apply search_groups in Hnew.
    destruct region_gr as [|region [|municipality tl]]; [done..|].
    by eexists _, _.
Qed.

Lemma strongly_sorted_snoc (l : list Z) (k : Z) :
  StronglySorted Z.lt l → (∀ x, x ∈ l → x < k) → StronglySorted Z.lt (l ++ [k]).
Proof.
  induction 1 as [|x l Hl IH Hx]; intros Hk; simpl.
  - repeat constructor.
  - constructor.
    + apply IH. intros y Hy. apply Hk. by right.
    + apply Forall_app. split; [done|]. constructor; [|done]. apply Hk. by left.
Qed.

Lemma dict_set_new {V} (d : list (Z * V)) (k : Z) (v : V) :
  k ∉ d.*1 → dict_set d k v = d ++ [(k, v)].
Proof. intros Hk. unfold dict_set. by rewrite bool_decide_eq_false_2. Qed.

(** The loop of [parse_lines] raises nothing, and it files every line under
    its own number, after the numbers filed before. *)
Lemma parse_lines_loop_returns (lines : list str) :
  ∀ (line_num : Z) header_type table_type region_attr municipality_ids
    settlements_info,
  0 ≤ line_num →
  (∀ m, region_attr = Some m → m ≠ []) →
  well_placed 0 line_num (mkParsedLines municipality_ids settlements_info) →
  ∃ parsed,
    parse_lines_loop lines line_num header_type table_type region_attr
      municipality_ids settlements_info = Returns parsed
    ∧ well_placed 0 (line_num + Z.of_nat (length lines)) parsed.
Proof.
  induction lines as [|line rest IH];
    intros n ht tt attr mids sinfos Hn Hattr (Hm & Hs & Hdisj & Hrange).
  - eexists. split; [done|]. split_and!; [done..|].
    intros k Hk. apply Hrange in Hk. simpl. lia.
  - simpl in Hm, Hs, Hdisj, Hrange. cbn [parse_lines_loop].
    destruct (parse_header_line_returns attr line ht Hattr)
      as (r & attr' & -> & Hattr').
    cbn [mbind outcome_bind].
    assert (Hheader : ∀ k, k ∈ mids.*1 → 0 ≤ k < n)
      by (intros k Hk; apply Hrange, elem_of_app; by left).
    assert (Hrow : ∀ k, k ∈ sinfos.*1 → 0 ≤ k < n)
      by (intros k Hk; apply Hrange, elem_of_app; by right).
    assert (Hnew_header : n ∉ mids.*1) by (intros Hk%Hheader; lia).
    assert (Hnew_row : n ∉ sinfos.*1) by (intros Hk%Hrow; lia).
    replace (n + Z.of_nat (length (line :: rest)))
      with (n + 1 + Z.of_nat (length rest)) by (simpl; lia).
    destruct r as [id|].
    + apply IH; [lia|done|]. rewrite dict_set_new by done.
      unfold well_placed. cbn [municipality_ids settlements_info].
      rewrite fmap_app. split_and!.
      * apply strongly_sorted_snoc; [done|]. intros x Hx%Hheader. simpl. lia.
      * done.
      * intros k [Hk|Hk%list_elem_of_singleton]%elem_of_app; [by apply Hdisj|].
        by subst k.
      * intros k [[Hk%Hheader|Hk%list_elem_of_singleton]%elem_of_app|Hk%Hrow]%elem_of_app;
          simpl in *; lia.
    + destruct (parse_data_line_returns line tt) as [info ->].
      cbn [mbind outcome_bind]. destruct info as [info|].
      * apply IH; [lia|done|]. rewrite dict_set_new by done.
        unfold well_placed. cbn [municipality_ids settlements_info].
        rewrite fmap_app. split_and!.
        -- done.
        -- apply strongly_sorted_snoc; [done|]. intros x Hx%Hrow. simpl. lia.
        -- intros k Hk [Hk'|Hk'%list_elem_of_singleton]%elem_of_app;
             [by apply (Hdisj k)|].
           by subst k.
        -- intros k [Hk%Hheader|[Hk%Hrow|Hk%list_elem_of_singleton]%elem_of_app]%elem_of_app;
             simpl in *; lia.
      * apply IH; [lia|done|]. split_and!; [done..|].
        intros k Hk%Hrange. lia.
Qed.

End ParserFacts.

(** X6. [parse_data_line] raises nothing: it returns [None] for a line that
    its pattern does not match; for a line that it matches, the first group
    holds a dot, and the row is made of the text before the first dot, the
    normalised text between the first dot and the second, and the groups at
    the two positions of the layout. *)
Theorem parse_data_line_never_raises `{PyEnv} (line : str) (table_type : TableTypeEnum) :
  match Regex.search (settlement_info_re table_type) line with
  | None => parse_data_line line table_type = Returns None
  | Some m =>
      ∃ g abbr rest permanent current,
        m !! 0%nat = Some g
        ∧ Str.split DOT g !! 0%nat = Some abbr
        ∧ Str.split DOT g !! 1%nat = Some rest
        ∧ m !! 1%nat = Some permanent
        ∧ m !! (current_population_position table_type - 1)%nat = Some current
        ∧ parse_data_line line table_type
          = Returns (Some (mkSettlementInfo
                             (Str.strip isspace (abbr ++ [DOT; SPACE] ++ fix_names rest))
                             permanent current))
  end.
Proof.
  destruct (Regex.search (settlement_info_re table_type) line) as [m|] eqn:Hm.
  - by apply parse_data_line_matched.
  - by apply parse_data_line_unmatched.
Qed.

(** X7. [parse_lines] raises nothing for any document. The line numbers
    under which it files headers and rows are numbers of lines of the
    document, each list is in ascending order, and no line is filed both as
    a header and as a row. *)
Theorem parse_lines_places_lines `{PyEnv} (data_tuple : DataTuple (list str)) :
  ∃ parsed,
    parse_lines data_tuple = Returns parsed
    ∧ header_type parsed = header_type data_tuple
    ∧ table_type parsed = table_type data_tuple
    ∧ well_placed 0 (Z.of_nat (length (data data_tuple))) (data parsed).
Proof.
  unfold parse_lines.
  destruct (parse_lines_loop_returns (data data_tuple) 0 (header_type data_tuple)
              (table_type data_tuple) None [] [])
    as (parsed & -> & Hplaced); [done|done| |].
  { split_and!; [constructor..| |]; intros k Hk; by apply elem_of_nil in Hk. }
  eexists. split; [done|]. by rewrite Z.add_0_l in Hplaced.
Qed.

(** X8. A descriptor that the classifier accepts has the date that
    [process_data] looks for: the search for the date of its layout
    succeeds, the date string holds no hyphen, and the loop goes on to the
    parsing pipeline. *)
Theorem classified_entry_has_date_string `{PyEnv} (entry : str) (dt : DataTuple str) :
  _data_tuple_from_entry entry = Returns (Some dt) →
  ∃ date_string,
    period_date_string dt = Returns date_string
    ∧ (HYPHEN ∉ date_string)
    ∧ ∀ parsing_pipeline rest data_frame_list w,
        process_data_loop parsing_pipeline (Some dt :: rest) data_frame_list w
        = (frame ← parsing_pipeline dt;
           process_data_loop parsing_pipeline rest
             (data_frame_list ++
                [mkDataTuple (mkPeriodFrame date_string (data frame))
                   (header_type dt) (table_type dt)])) w.
Proof.
  unfold _data_tuple_from_entry. intros Hentry.
  assert (∃ m g, Regex.search
                   match table_type dt with
                   | Quarterly => RegexPatternWrapper.date_group
                   | Yearly => RegexPatternWrapper.year_group
                   end (data dt) = Some m
                 ∧ Regex.group_text m 1 = Returns g) as (m & g & Hm & Hg).
  { case_bool_decide as Hdate.
    - simplify_eq. simpl.
      destruct (Regex.search RegexPatternWrapper.date_group entry) as [m|] eqn:Hm;
        [|done].
      pose proof (search_groups _ _ _ Hm) as Hlen.
      destruct m as [|g tl]; [done|]. by exists (g :: tl), g.
    - destruct (Regex.search RegexPatternWrapper.year_group entry) as [m|] eqn:Hm;
        [|done].
      pose proof (search_groups _ _ _ Hm) as Hlen.
      destruct m as [|g tl]; [done|]. simpl in Hentry.
      destruct (int g); simpl in Hentry; [|done]. simplify_eq. simpl.
      by exists (g :: tl), g. }
  exists (Str.replace HYPHEN 95 g). split_and!.
  - unfold period_date_string. cbv zeta. rewrite Hm, Hg. done.
  - by apply replace_removes.
  - intros parsing_pipeline rest data_frame_list w. cbn [process_data_loop].
    cbv zeta. rewrite Hm, Hg. done.
Qed.

Lemma classified_entry_has_date_string_witness :
  ∃ date_string,
    period_date_string (H := BgEnv.env)
      (mkDataTuple (u"https://www.grao.bg/tna/tadr-03-2019.txt") New Quarterly)
    = Returns date_string
    ∧ (HYPHEN ∉ date_string).
Proof.
  destruct (classified_entry_has_date_string (H := BgEnv.env)
              (u"https://www.grao.bg/tna/tadr-03-2019.txt")
              (mkDataTuple (u"https://www.grao.bg/tna/tadr-03-2019.txt") New Quarterly))
    as (date_string & Hdate & Hhyphen & _); [by vm_compute|].
  by exists date_string.
Defined.

(** ** Candidates of the resolver *)

Section CandidateFacts.
Context `{PyEnv}.

Lemma all_tests_returns (full_name : list str) (region_term : str) (key : triple) :
  (2 < length full_name)%nat →
  ∃ ok, all_tests full_name region_term key = Returns ok.
Proof.
  destruct full_name as [|part1 [|part2 [|part3 tl]]]; simpl; try lia.
  intros _. unfold all_tests. simpl. eauto.
Qed.

(** A record with three name parts is appended once or not at all. *)
Lemma match_record_cases (key : triple) (code : str) (nd : SettlementNamesData) :
  (2 < length (snd_name nd))%nat →
  match_record key code nd = Returns []
  ∨ match_record key code nd = Returns [(snd_last nd, mkSettlementDataTuple key code)].
Proof.
  intros Hlen. unfold match_record. cbv zeta.
  destruct (all_tests_returns (snd_name nd) (lower key.1.1) key Hlen) as [ok ->].
  simpl. destruct ok; [by right|].
  repeat case_match; try (by left);
    match goal with
    | |- context [all_tests ?f ?t ?k] =>
        destruct (all_tests_returns f t k Hlen) as [ok ->]
    end; simpl; destruct ok; auto.
Qed.

Lemma match_names_spec (key : triple) (code : str)
    (names_list : list SettlementNamesData) :
  Forall (λ nd, (2 < length (snd_name nd))%nat) names_list →
  ∃ entries,
    match_names key code names_list = Returns entries
    ∧ (∀ e, e ∈ entries →
         e.2 = mkSettlementDataTuple key code
         ∧ ∃ nd, nd ∈ names_list ∧ match_record key code nd = Returns [e])
    ∧ (entries = [] →
         ∀ nd, nd ∈ names_list → match_record key code nd = Returns []).
Proof.
  induction 1 as [|nd rest Hnd _ (more & Hmore & Hin & Hnone)]; cbn [match_names].
  - exists []. split_and!; [done| |];
      [by intros ? ?%elem_of_nil|by intros _ ? ?%elem_of_nil].
  - rewrite Hmore.
    destruct (match_record_cases key code nd Hnd) as [Hr|Hr]; rewrite Hr; simpl.
    + exists more. split_and!; [done| |].
      * intros e [? (nd' & ? & ?)]%Hin. split; [done|]. exists nd'. split; [by right|done].
      * intros Hempty nd' [->|?]%elem_of_cons; [done|by apply Hnone].
    + eexists. split_and!; [done| |done].
      intros e [->|He]%elem_of_cons.
      * split; [done|]. exists nd. split; [by left|done].
      * apply Hin in He as [? (nd' & ? & ?)]. split; [done|].
        exists nd'. split; [by right|done].
Qed.

Lemma result_list_spec (key : triple) (data_dict : candidates) :
  complete_names data_dict →
  ∃ entries,
    result_list key data_dict = Returns entries
    ∧ (∀ e, e ∈ entries →
         sdt_key e.2 = key
         ∧ ∃ names_list nd, (sdt_data e.2, names_list) ∈ data_dict ∧ nd ∈ names_list
             ∧ match_record key (sdt_data e.2) nd = Returns [e])
    ∧ (entries = [] →
         ∀ code names_list nd, (code, names_list) ∈ data_dict → nd ∈ names_list →
           match_record key code nd = Returns []).
Proof.
  induction 1 as [|[code names_list] rest Hnames _ (more & Hmore & Hin & Hnone)];
    cbn [result_list].
  - exists []. split_and!; [done| |]; [by intros ? ?%elem_of_nil|].
    by intros _ ? ? ? ?%elem_of_nil.
  - rewrite Hmore.
    destruct (match_names_spec key code names_list Hnames)
      as (found & -> & Hfound & Hnofound).
    simpl. exists (found ++ more). split_and!; [done| |].
    + intros e [He|He]%elem_of_app.
      * apply Hfound in He as [He (nd & Hnd & Hr)]. rewrite He. simpl.
        split; [done|]. exists names_list, nd. split_and!; [by left|done|].
        exact Hr.
      * apply Hin in He as [? (nl & nd & ? & ? & ?)]. split; [done|].
        exists nl, nd. split_and!; [by right|done..].
    + intros [-> ->]%app_eq_nil code' nl nd [[= -> ->]|Hcode]%elem_of_cons Hnd.
      * by apply Hnofound.
      * by eapply Hnone.
Qed.

Lemma dict_append_elem (data : candidates) (k : str) (x : SettlementNamesData)
    (c : str) :
  c ∈ (dict_append data k x).*1 → c ∈ data.*1 ∨ c = k.
Proof.
  unfold dict_append. case_bool_decide as Hk.
  - intros Hc. left. clear Hk. revert Hc.
    induction data as [|[k' v] data IH]; [done|]. simpl.
    intros [Hc|Hc]%elem_of_cons; apply elem_of_cons; [left|right; by apply IH].
    rewrite Hc. case_bool_decide; simpl; congruence.
  - rewrite fmap_app. intros [?|Hc%list_elem_of_singleton]%elem_of_app; auto.
Qed.

Lemma dict_append_complete (data : candidates) (k : str) (x : SettlementNamesData) :
  complete_names data → (2 < length (snd_name x))%nat →
  complete_names (dict_append data k x).
Proof.
  intros Hdata Hx. unfold dict_append. case_bool_decide as Hk.
  - clear Hk. induction Hdata as [|[k' v] data Hv _ IH]; [constructor|].
    simpl. constructor; [|done].
    case_bool_decide; simpl; [|done]. apply Forall_app. by repeat constructor.
  - apply Forall_app. split; [done|]. by repeat constructor.
Qed.

(** The loop over the rows of the page keeps records with three name parts
    only, under codes that are the first cell of a row of two cells. *)
Lemma parse_rows_spec (oldest : datetime) (rows : list (list str)) :
  ∀ last_key data res,
  parse_rows oldest rows last_key data = Returns res →
  complete_names data →
  complete_names res
  ∧ ∀ c, c ∈ res.*1 → c ∈ data.*1 ∨ c = last_key ∨ ∃ c1, [c; c1] ∈ rows.
Proof.
  induction rows as [|cells rest IH]; intros last_key data res; cbn [parse_rows].
  { intros [= <-] Hdata. split; [done|]. auto. }
  assert (Hskip : parse_rows oldest rest last_key data = Returns res →
    complete_names data →
    complete_names res
    ∧ ∀ c, c ∈ res.*1 → c ∈ data.*1 ∨ c = last_key ∨ ∃ c1, [c; c1] ∈ cells :: rest).
  { intros Hr Hdata. destruct (IH _ _ _ Hr Hdata) as [Hres Hkeys].
    split; [done|]. intros c Hc.
    destruct (Hkeys c Hc) as [?|[?|(c1 & ?)]]; auto.
    right. right. exists c1. by right. }
  destruct cells as [|c0 [|c1 [|c2 [|c3 tl]]]]; try exact Hskip.
  - intros Hr Hdata. destruct (IH _ _ _ Hr Hdata) as [Hres Hkeys].
    split; [done|]. intros c Hc.
    destruct (Hkeys c Hc) as [?|[->|(c1' & ?)]]; auto.
    + right. right. exists c1. by left.
    + right. right. exists c1'. by right.
  - destruct (Str.split HYPHEN c2 !! 0%nat) as [d0|]; simpl; [|done].
    destruct (strptime (Str.strip isspace d0)) as [start|]; simpl; [|done].
    destruct (Str.split HYPHEN c2 !! 1%nat) as [d1|]; simpl; [|done].
    destruct (if bool_decide (Str.strip isspace d1 ≠ [])
              then strptime (Str.strip isspace d1) else Returns datetime_max)
      as [end_|]; simpl; [|done].
    destruct (oldest <? end_) eqn:Hold; simpl; [|exact Hskip].
    destruct (Z.ltb_spec 2 (Z.of_nat
                (length (map (Str.strip isspace) (rev (Str.split 44 c1))))))
      as [Hlen|_]; [|exact Hskip].
    intros Hr Hdata.
    destruct (IH _ _ _ Hr) as [Hres Hkeys].
    { apply dict_append_complete; [done|]. simpl. lia. }
    split; [done|]. intros c Hc.
    destruct (Hkeys c Hc) as [[?| ->]%dict_append_elem|[?|(c1' & ?)]]; auto.
    right. right. exists c1'. by right.
Qed.

(** On candidates with three name parts in every record the resolver
    raises nothing. *)
Lemma mach_key_with_code_returns (settlement : SettlementDataTuple candidates) :
  complete_names (sdt_data settlement) →
  ∃ r, mach_key_with_code settlement = Returns r.
Proof.
  intros Hdata.
  destruct (result_list_spec (sdt_key settlement) _ Hdata) as (entries & Hentries & _).
  unfold mach_key_with_code. rewrite Hentries. simpl.
  destruct (List.last (Some <$> entries) None); by eexists.
Qed.

End CandidateFacts.

(** X9. On candidates whose name records have three parts the resolver
    raises nothing. When it returns a value, the value carries the key of
    the query and a code under which a record passes the tests; when it
    returns [None], no record of any code passes them. *)
Theorem resolver_returns_a_matching_code `{PyEnv}
    (settlement : SettlementDataTuple candidates) :
  complete_names (sdt_data settlement) →
  ∃ r, mach_key_with_code settlement = Returns r
    ∧ match r with
      | Some v =>
          sdt_key v = sdt_key settlement
          ∧ ∃ names_list nd,
              (sdt_data v, names_list) ∈ sdt_data settlement ∧ nd ∈ names_list
              ∧ match_record (sdt_key settlement) (sdt_data v) nd
                = Returns [(snd_last nd, v)]
      | None =>
          ∀ code names_list nd,
            (code, names_list) ∈ sdt_data settlement → nd ∈ names_list →
            match_record (sdt_key settlement) code nd = Returns []
      end.
Proof.
  intros Hdata.
  destruct (result_list_spec (sdt_key settlement) _ Hdata)
    as (entries & Hentries & Hin & Hnone).
  unfold mach_key_with_code. rewrite Hentries. simpl.
  destruct entries as [|e0 entries _] using rev_ind.
  - eexists. split; [done|]. simpl. by apply Hnone.
  - rewrite fmap_app. change (Some <$> [e0]) with [Some e0].
    rewrite List.last_last. eexists. split; [done|]. simpl.
    destruct (Hin e0) as [Hkey (nl & nd & Hnl & Hnd & Hr)];
      [apply elem_of_app; right; by left|].
    split; [done|]. exists nl, nd. split_and!; [done..|].
    rewrite Hr. destruct e0 as [last v]. simpl in *.
    assert (2 < length (snd_name nd))%nat as Hlen.
    { unfold complete_names in Hdata. rewrite Forall_forall in Hdata.
      specialize (Hdata _ Hnl). rewrite Forall_forall in Hdata. by apply Hdata. }
    destruct (match_record_cases (sdt_key settlement) (sdt_data v) nd Hlen)
      as [Hc|Hc]; rewrite Hc in Hr; by simplify_eq.
Qed.

Lemma resolver_returns_a_matching_code_witness :
  ∃ r, mach_key_with_code (H := BgEnv.env)
         (mkSettlementDataTuple resolver_example_key resolver_example) = Returns r
       ∧ r = Some (mkSettlementDataTuple resolver_example_key (u"35379")).
Proof.
  destruct (resolver_returns_a_matching_code (H := BgEnv.env)
              (mkSettlementDataTuple resolver_example_key resolver_example))
    as (r & Hr & _).
  { repeat constructor; simpl; lia. }
  exists r. split; [done|].
  assert (mach_key_with_code (H := BgEnv.env)
            (mkSettlementDataTuple resolver_example_key resolver_example)
          = Returns (Some (mkSettlementDataTuple resolver_example_key (u"35379"))))
    as Hrun by (vm_compute; reflexivity).
  rewrite Hrun in Hr. by injection Hr as <-.
Defined.

(** X10. A page that [parse_raw_settlement_data] accepts gives candidates
    for the key of the query, with three name parts in every record and
    each code either empty or the first cell of a row of two cells of the
    fourth table from the end; on them the resolver raises nothing. *)
Theorem parsed_page_resolves `{PyEnv} (settlement : SettlementDataTuple Response)
    parsed :
  parse_raw_settlement_data settlement = Returns parsed →
  sdt_key parsed = sdt_key settlement
  ∧ complete_names (sdt_data parsed)
  ∧ (∀ code, code ∈ (sdt_data parsed).*1 →
       code = []
       ∨ ∃ table c1,
           text (sdt_data settlement)
             !! (length (text (sdt_data settlement)) - 4)%nat = Some table
           ∧ [code; c1] ∈ drop 2 table)
  ∧ ∃ r, mach_key_with_code parsed = Returns r.
Proof.
  unfold parse_raw_settlement_data. cbv zeta.
  case_bool_decide as Htables; simpl; [|done].
  destruct (text (sdt_data settlement) !! _) as [table|] eqn:Htable; simpl; [|done].
  destruct (strptime _) as [oldest|]; simpl; [|done].
  destruct (parse_rows oldest (drop 2 table) [] []) as [data|] eqn:Hrows; simpl;
    [|done].
  intros [= <-]. simpl.
  destruct (parse_rows_spec _ _ _ _ _ Hrows) as [Hcomplete Hkeys]; [constructor|].
  split_and!; [done|done| |].
  - intros code Hcode.
    destruct (Hkeys code Hcode) as [?%elem_of_nil|[->|(c1 & ?)]]; [done|by left|].
    right. by exists table, c1.
  - by apply (mach_key_with_code_returns
                (mkSettlementDataTuple (sdt_key settlement) data)).
Qed.

Lemma parsed_page_resolves_witness :
  ∃ parsed,
    parse_raw_settlement_data (H := BgEnv.env)
      (mkSettlementDataTuple resolver_example_key (mkResponse 200 example_page))
    = Returns parsed
    ∧ (sdt_data parsed).*1 = [u"35376"]
    ∧ complete_names (sdt_data parsed).
Proof.
  assert (Hrun :
    match parse_raw_settlement_data (H := BgEnv.env)
            (mkSettlementDataTuple resolver_example_key (mkResponse 200 example_page))
    with
    | Returns parsed => bool_decide ((sdt_data parsed).*1 = [u"35376"])
    | Raises _ => false
    end = true) by (vm_compute; reflexivity).
  destruct (parse_raw_settlement_data (H := BgEnv.env) _) as [parsed|] eqn:Hparsed;
    [|done].
  apply bool_decide_eq_true in Hrun.
  destruct (parsed_page_resolves (H := BgEnv.env) _ _ Hparsed) as (_ & Hcomplete & _).
  exists parsed. split_and!; [reflexivity|exact Hrun|exact Hcomplete].
Defined.

(** X11. When the attempts for an entry end with an exception, the
    [finally] block runs with the value that [val] has from an earlier
    entry: with no such value the exception is replaced by
    [UnboundLocalError]; with the value [None] the exception goes on; with a
    resolved value the two pickled maps are written once more, and the
    code of that value is now mapped to the name of the failing entry. *)
Theorem failed_attempts_reuse_previous_value
    (pipeline : SettlementDataTuple str → M (option (SettlementDataTuple str)))
    (l : Locals) (sdt : SettlementDataTuple str * triple) (w : World) e w1 :
  already_resolved l (sdt_key sdt.1) = false →
  attempts pipeline sdt.1 w = (Raises e, w1) →
  match val l with
  | None => disambiguate_step pipeline l sdt w = (Raises UnboundLocalError, w1)
  | Some None => disambiguate_step pipeline l sdt w = (Raises e, w1)
  | Some (Some v) =>
      ∃ w2, disambiguate_step pipeline l sdt w = (Raises e, w2)
        ∧ triple_to_ekatte (pickled w2)
          = Some (<[sdt_key v := sdt_data v]> (processed_sdts l))
        ∧ ekatte_to_triple (pickled w2)
          = Some (<[sdt_data v := sdt.2]> (reverse_dict l))
        ∧ requested w2 = requested w1 ∧ slept w2 = slept w1
  end.
Proof.
  intros Hnew Hfail. unfold disambiguate_step. rewrite Hnew, Hfail.
  unfold finally_block. destruct (val l) as [[v|]|]; [|done..].
  unfold mbind, M_bind, pickle_maps, pickle_reverse, set_pickled, mret, M_ret.
  simpl. by eexists.
Qed.

Lemma failed_attempts_reuse_previous_value_witness :
  ∃ l1 w1 w2,
    disambiguate_step (settlement_disambiguation (H := BgEnv.env))
      (mkLocals ∅ ∅ ∅ None) example_sdt
      (example_world [200; 500; 500; 500; 500]) = (Returns l1, w1)
    ∧ reverse_dict l1 !! (u"35376") = Some example_sdt.2
    ∧ disambiguate_step (settlement_disambiguation (H := BgEnv.env)) l1
        unknown_sdt w1 = (Raises ValueError, w2)
    ∧ ekatte_to_triple (pickled w2)
      = Some (<[u"35376" := unknown_sdt.2]> (reverse_dict l1)).
Proof.
  assert (Hrun :
    match disambiguate_step (settlement_disambiguation (H := BgEnv.env))
            (mkLocals ∅ ∅ ∅ None) example_sdt
            (example_world [200; 500; 500; 500; 500]) with
    | (Returns l1, w1) =>
        match val l1 with
        | Some (Some v) => Str.eqb (sdt_data v) (u"35376")
        | _ => false
        end
        && bool_decide (reverse_dict l1 !! (u"35376") = Some example_sdt.2)
        && negb (already_resolved l1 (sdt_key unknown_sdt.1))
        && match attempts (settlement_disambiguation (H := BgEnv.env))
                   unknown_sdt.1 w1 with
           | (Raises ValueError, _) => true
           | _ => false
           end
    | _ => false
    end = true) by (vm_compute; reflexivity).
  destruct (disambiguate_step (settlement_disambiguation (H := BgEnv.env))
              (mkLocals ∅ ∅ ∅ None) example_sdt
              (example_world [200; 500; 500; 500; 500]))
    as [[l1|e1] w1] eqn:Hfirst; [|done].
  apply andb_true_iff in Hrun as [Hrun Hfail].
  apply andb_true_iff in Hrun as [Hrun Hnew%negb_true_iff].
  apply andb_true_iff in Hrun as [Hval Hrev%bool_decide_eq_true].
  destruct (attempts (settlement_disambiguation (H := BgEnv.env)) unknown_sdt.1 w1)
    as [[r|[]] w1'] eqn:Hattempts; try done.
  pose proof (failed_attempts_reuse_previous_value _ l1 unknown_sdt w1 _ _
                Hnew Hattempts) as Hstep.
  destruct (val l1) as [[v|]|]; [|done..].
  destruct Hstep as (w2 & Hstep & _ & Hpickled & _).
  apply bool_decide_eq_true in Hval. rewrite Hval in Hpickled.
  exists l1, w1, w2. split_and!; [reflexivity|exact Hrev|exact Hstep|exact Hpickled].
Defined.

(** ** Records of the assembler *)

Section AssemblerRows.
Variable pl : ParsedLines.
Variable pairs : list (Z * Z).

Lemma attach_while_rows (cur nxt : Z) :
  (cur, nxt) ∈ pairs →
  ∀ (slice : list Z) (i : nat) acc c out,
  (∀ n k, slice !! n = Some k → (settlements_info pl).*1 !! (i + n)%nat = Some k) →
  length acc = i → rows_attached pl pairs acc →
  attach_while (municipality_ids pl) (settlements_info pl) cur nxt slice i acc
  = Returns (c, out) →
  length out = c ∧ rows_attached pl pairs out.
Proof.
  intros Hpair. induction slice as [|k slice IH]; intros i acc c out Hslice Hlen Hacc;
    cbn [attach_while]; [done|].
  destruct ((cur <? k) && (k <? nxt)) eqn:Hbetween; [|by intros [= <- <-]].
  destruct (dict_item (municipality_ids pl) cur) as [reg|] eqn:Hreg; simpl; [|done].
  destruct (dict_item (settlements_info pl) k) as [info|] eqn:Hinfo; simpl; [|done].
  apply IH.
  - intros n k' Hn. replace (S i + n)%nat with (i + S n)%nat by lia.
    by apply Hslice.
  - rewrite length_app. simpl. lia.
  - intros j row Hj. apply lookup_app_Some in Hj as [Hj|[Hge Hj]]; [by apply Hacc|].
    apply list_lookup_singleton_Some in Hj as [Hj <-].
    exists k, cur, nxt. split_and!; [|done|].
    + replace j with (i + 0)%nat by lia. by apply Hslice.
    + split; [lia|]. by exists reg, info.
Qed.

Lemma attach_for_rows (ps : list (Z * Z)) :
  (∀ p, p ∈ ps → p ∈ pairs) →
  ∀ (i : nat) acc c out,
  length acc = i → rows_attached pl pairs acc →
  attach_for (municipality_ids pl) (settlements_info pl) (settlements_info pl).*1
    ps i acc = Returns (c, out) →
  length out = c ∧ rows_attached pl pairs out.
Proof.
  induction ps as [|[cur nxt] ps IH]; intros Hps i acc c out Hlen Hacc;
    cbn [attach_for].
  - by intros [= <- <-].
  - destruct (attach_while _ _ cur nxt _ i acc) as [[c' out']|] eqn:Hwhile; simpl;
      [|done].
    apply attach_while_rows in Hwhile as [Hlen' Hout']; [|apply Hps; by left| |done..].
    + apply IH; [|done..]. intros p Hp. apply Hps. by right.
    + intros n k Hn. by rewrite lookup_drop in Hn.
Qed.

End AssemblerRows.

(** X12. The records that the assembler returns are made, in order, of the
    first settlement rows of the document: the record at position [j] comes
    from the row at position [j], which lies strictly between two
    consecutive headers, and it carries the region and the municipality of
    the first of the two. *)
Theorem assembler_attaches_leading_rows (data_tuple : DataTuple ParsedLines) out :
  parssed_lines_to_full_info_list data_tuple = Returns out →
  header_type out = header_type data_tuple
  ∧ table_type out = table_type data_tuple
  ∧ (length (data out) ≤ length (settlements_info (data data_tuple)))%nat
  ∧ rows_attached (data data_tuple)
      (reg_keys_pairs (municipality_ids (data data_tuple)).*1) (data out).
Proof.
  unfold parssed_lines_to_full_info_list, attach_all.
  destruct (attach_for _ _ _ _ _ _) as [[c rows]|] eqn:Hfor; simpl; [|done].
  intros [= <-]. simpl. split_and!; [done..| |].
  all: apply attach_for_rows with (pairs := reg_keys_pairs
         (municipality_ids (data data_tuple)).*1) in Hfor as [Hlen Hrows];
    [|done|done|by intros j row0 Hj; rewrite lookup_nil in Hj].
  - destruct rows as [|row rows _] using rev_ind; [simpl; lia|].
    destruct (Hrows (length rows) row) as (k & _ & _ & Hk & _).
    { by rewrite lookup_app_r, Nat.sub_diag by lia. }
    apply lookup_lt_Some in Hk. rewrite length_fmap in Hk.
    rewrite length_app. simpl. lia.
  - done.
Qed.

Lemma assembler_attaches_leading_rows_witness :
  ∃ out,
    parssed_lines_to_full_info_list (mkDataTuple trimmed_boundary_example New Quarterly)
    = Returns out
    ∧ length (data out) = 2%nat
    ∧ rows_attached trimmed_boundary_example [(2, 10); (10, 20)] (data out).
Proof.
  assert (Hrun :
    match parssed_lines_to_full_info_list
            (mkDataTuple trimmed_boundary_example New Quarterly) with
    | Returns out => bool_decide (length (data out) = 2%nat)
    | Raises _ => false
    end = true) by (vm_compute; reflexivity).
  destruct (parssed_lines_to_full_info_list _) as [out|] eqn:Hout; [|done].
  apply bool_decide_eq_true in Hrun.
  destruct (assembler_attaches_leading_rows _ _ Hout) as (_ & _ & _ & Hrows).
  exists out. split_and!; [reflexivity|exact Hrun|exact Hrows].
Defined.

(** ** The second loop of the disambiguation *)

Section SecondLoop.
Context `{PyEnv}.




End SecondLoop.



(** ** Frames of the periods *)

Section ProcessFacts.
Context `{PyEnv}.

Lemma process_data_loop_cons parsing_pipeline (dt : DataTuple str) rest acc :
  process_data_loop parsing_pipeline (Some dt :: rest) acc
  = (date_string ← lift (period_date_string dt);
     frame ← parsing_pipeline dt;
     process_data_loop parsing_pipeline rest
       (acc ++ [mkDataTuple (mkPeriodFrame date_string (data frame))
                  (header_type dt) (table_type dt)])).
Proof. reflexivity. Qed.

Lemma process_data_loop_frames parsing_pipeline
    (data_source : list (option (DataTuple str))) :
  ∀ acc w frames w',
  process_data_loop parsing_pipeline data_source acc w = (Returns frames, w') →
  ∃ new, frames = acc ++ new
         ∧ Forall2 (frame_of_descriptor parsing_pipeline) data_source new.
Proof.
  induction data_source as [|[dt|] rest IH]; intros acc w frames w'.
  - intros [= <- <-]. exists []. by rewrite app_nil_r.
  - rewrite process_data_loop_cons. unfold mbind at 1, M_bind, lift.
    destruct (period_date_string dt) as [date_string|] eqn:Hdate; [|done].
    unfold mbind at 1, M_bind.
    destruct (parsing_pipeline dt w) as [[frame|e] w1] eqn:Hframe; [|done].
    intros (new & -> & Hnew)%IH.
    eexists. split; [by rewrite <- app_assoc|].
    constructor; [|done]. exists dt. split_and!; [done..|].
    by exists w, frame, w1.
  - done.
Qed.

Lemma table_parsing_world (dt : DataTuple str) (w : World) r w' :
  table_parsing dt w = (r, w') → w' = w.
Proof.
  unfold table_parsing, raw_table_lines.
  unfold mbind, M_bind, get_world, mret, M_ret, lift.
  destruct (parse_lines _) as [parsed|]; [|by intros [= _ <-]].
  destruct (parssed_lines_to_full_info_list parsed) as [infos|]; by intros [= _ <-].
Qed.

Lemma process_data_loop_world (data_source : list (option (DataTuple str))) :
  ∀ acc w r w',
  process_data_loop table_parsing data_source acc w = (r, w') → w' = w.
Proof.
  induction data_source as [|[dt|] rest IH]; intros acc w r w'.
  - by intros [= _ <-].
  - rewrite process_data_loop_cons. unfold mbind at 1, M_bind, lift.
    destruct (period_date_string dt) as [date_string|]; [|by intros [= _ <-]].
    unfold mbind at 1, M_bind.
    destruct (table_parsing dt w) as [[frame|e] w1] eqn:Hframe;
      apply table_parsing_world in Hframe as ->; [|by intros [= _ <-]].
    apply IH.
  - by intros [= _ <-].
Qed.

Lemma process_data_pickles parsing_pipeline
    (data_source : list (option (DataTuple str))) (w : World) frames w' :
  process_data parsing_pipeline data_source w = (Returns frames, w') →
  length frames = length data_source
  ∧ data_frames_list (pickled w') = Some frames.
Proof.
  unfold process_data. unfold mbind at 1, M_bind.
  destruct (process_data_loop parsing_pipeline data_source [] w)
    as [[data_frame_list|e] w1] eqn:Hloop; [|done].
  unfold mbind, M_bind, set_pickled, mret, M_ret. intros [= <- <-].
  apply process_data_loop_frames in Hloop as (new & -> & Hnew).
  split; [|done]. symmetry. by eapply Forall2_length.
Qed.

End ProcessFacts.

(** X14. The frames that [process_data] returns and pickles stand, in
    order, for the descriptors of the data source: each has the types of its
    descriptor, the date string read from it, and the rows that the parsing
    pipeline returned for it; no descriptor is [None]. *)
Theorem process_data_frames `{PyEnv}
    (parsing_pipeline : DataTuple str → M (DataTuple (list FullSettlementInfo)))
    (data_source : list (option (DataTuple str))) (w : World) frames w' :
  process_data parsing_pipeline data_source w = (Returns frames, w') →
  Forall2 (frame_of_descriptor parsing_pipeline) data_source frames
  ∧ data_frames_list (pickled w') = Some frames.
Proof.
  unfold process_data. unfold mbind at 1, M_bind.
  destruct (process_data_loop parsing_pipeline data_source [] w)
    as [[data_frame_list|e] w1] eqn:Hloop; [|done].
  unfold mbind, M_bind, set_pickled, mret, M_ret. intros [= <- <-].
  by apply process_data_loop_frames in Hloop as (new & -> & Hnew).
Qed.

Lemma process_data_frames_witness :
  ∃ frames w',
    process_data (H := BgEnv.env) (table_parsing (H := BgEnv.env))
      [Some (mkDataTuple example_entry New Quarterly)] document_world
    = (Returns frames, w')
    ∧ (λ dt, (pf_date_string (data dt), length (pf_rows (data dt)))) <$> frames
      = [(u"03_2019", 1%nat)]
    ∧ data_frames_list (pickled w') = Some frames.
Proof.
  assert (Hrun :
    match process_data (H := BgEnv.env) (table_parsing (H := BgEnv.env))
            [Some (mkDataTuple example_entry New Quarterly)] document_world with
    | (Returns frames, _) =>
        bool_decide ((λ dt, (pf_date_string (data dt), length (pf_rows (data dt))))
                       <$> frames = [(u"03_2019", 1%nat)])
    | _ => false
    end = true) by (vm_compute; reflexivity).
  destruct (process_data (H := BgEnv.env) (table_parsing (H := BgEnv.env))
              [Some (mkDataTuple example_entry New Quarterly)] document_world)
    as [[frames|e] w'] eqn:Hprocess; [|done].
  apply bool_decide_eq_true in Hrun.
  destruct (process_data_frames (H := BgEnv.env) _ _ _ _ _ Hprocess) as [_ Hpickled].
  exists frames, w'. split_and!; [reflexivity|exact Hrun|exact Hpickled].
Defined.

(** ** The files of a run *)

Section FileFacts.
Context `{PyEnv}.

Lemma pipeline_files (sdt : SettlementDataTuple str) (w : World) r w' :
  settlement_disambiguation sdt w = (r, w') →
  pickled w' = pickled w ∧ csv_tables w' = csv_tables w
  ∧ csv_combined w' = csv_combined w.
Proof.
  rewrite pipeline_run. destruct (request_name sdt); by intros [= _ <-].
Qed.

Lemma attempts_files (sdt : SettlementDataTuple str) (w : World) r w' :
  attempts settlement_disambiguation sdt w = (r, w') →
  pickled w' = pickled w ∧ csv_tables w' = csv_tables w
  ∧ csv_combined w' = csv_combined w.
Proof.
  assert (Hstep : ∀ (rest : M (option (SettlementDataTuple str))) seconds w r w',
    (∀ w r w', rest w = (r, w') →
       pickled w' = pickled w ∧ csv_tables w' = csv_tables w
       ∧ csv_combined w' = csv_combined w) →
    try_except_ValueError (settlement_disambiguation sdt)
      (_ ← sleep seconds; rest) w = (r, w') →
    pickled w' = pickled w ∧ csv_tables w' = csv_tables w
    ∧ csv_combined w' = csv_combined w).
  { clear. intros rest seconds w r w' Hrest. unfold try_except_ValueError.
    destruct (settlement_disambiguation sdt w) as [r1 w1] eqn:H1.
    apply pipeline_files in H1 as (Hp1 & Ht1 & Hc1).
    destruct r1 as [v1|[]]; try (intros [= _ <-]; done).
    unfold mbind, M_bind, sleep. intros (Hp2 & Ht2 & Hc2)%Hrest.
    simpl in *. split_and!; congruence. }
  unfold attempts. intros Ha.
  eapply Hstep; [|exact Ha]. intros w1 r1 w1' H1.
  eapply Hstep; [|exact H1]. intros w2 r2 w2' H2.
  eapply Hstep; [|exact H2]. intros w3 r3 w3' H3.
  by apply pipeline_files in H3.
Qed.

Lemma finally_block_files (l : Locals) sdt (w : World) r w' :
  finally_block l sdt w = (r, w') →
  data_frames_list (pickled w') = data_frames_list (pickled w)
  ∧ csv_tables w' = csv_tables w ∧ csv_combined w' = csv_combined w.
Proof.
  unfold finally_block. destruct (val l) as [[v|]|].
  - unfold mbind, M_bind, pickle_maps, pickle_reverse, set_pickled, mret, M_ret.
    simpl. by intros [= _ <-].
  - unfold mret, M_ret. by intros [= _ <-].
  - unfold raise, lift. by intros [= _ <-].
Qed.

Lemma step_files (l : Locals) sdt (w : World) r w' :
  disambiguate_step settlement_disambiguation l sdt w = (r, w') →
  data_frames_list (pickled w') = data_frames_list (pickled w)
  ∧ csv_tables w' = csv_tables w ∧ csv_combined w' = csv_combined w.
Proof.
  unfold disambiguate_step.
  destruct (already_resolved l (sdt_key sdt.1)); [by intros [= _ <-]|].
  destruct (attempts _ _ w) as [[v|e] w1] eqn:Ha;
    apply attempts_files in Ha as (Hp & Ht & Hc).
  - intros (Hp' & Ht' & Hc')%finally_block_files. split_and!; congruence.
  - destruct (finally_block l sdt w1) as [rf wf] eqn:Hfin.
    apply finally_block_files in Hfin as (Hp' & Ht' & Hc').
    intros Heq. assert (w' = wf) as -> by (by destruct rf; inversion Heq).
    split_and!; congruence.
Qed.

Lemma loop_files (sdts : list (SettlementDataTuple str * triple)) :
  ∀ (l : Locals) (w : World) r w',
  disambiguate_loop settlement_disambiguation l sdts w = (r, w') →
  data_frames_list (pickled w') = data_frames_list (pickled w)
  ∧ csv_tables w' = csv_tables w ∧ csv_combined w' = csv_combined w.
Proof.
  induction sdts as [|sdt rest IH]; intros l w r w'; cbn [disambiguate_loop].
  - by intros [= _ <-].
  - unfold mbind, M_bind.
    destruct (disambiguate_step _ l sdt w) as [[l1|e] w1] eqn:Hstep;
      apply step_files in Hstep as (Hp & Ht & Hc).
    + intros (Hp' & Ht' & Hc')%IH. split_and!; congruence.
    + by intros [= _ <-].
Qed.

Lemma disambiguate_data_files (data_frame_list : list (DataTuple PeriodFrame))
    (w : World) coded w' :
  disambiguate_data settlement_disambiguation data_frame_list w = (Returns coded, w') →
  data_frames_list (pickled w') = data_frames_list (pickled w)
  ∧ data_frames_list_disambiguated (pickled w') = Some coded
  ∧ csv_tables w' = csv_tables w ∧ csv_combined w' = csv_combined w
  ∧ length coded = length data_frame_list
  ∧ Forall (λ dt, NoDup (cf_rows (data dt)).*1) coded.
Proof.
  unfold disambiguate_data. unfold mbind at 1, M_bind, lift.
  destruct (sdt_list_of data_frame_list) as [sdt_list|]; [|done].
  unfold mbind at 1, M_bind. unfold resolve_all.
  unfold mbind at 1, M_bind, get_world. unfold mbind at 1, M_bind.
  destruct (disambiguate_loop _ _ sdt_list w) as [[l|e] w1] eqn:Hloop; [|done].
  apply loop_files in Hloop as (Hp & Ht & Hc).
  unfold mbind at 1, M_bind, set_pickled. unfold mret at 1, M_ret.
  unfold mbind at 1, M_bind.
  destruct (disambiguate_frames _ _) as [frames|] eqn:Hframes; [|done].
  unfold mbind, M_bind, set_pickled, mret, M_ret. intros [= <- <-]. simpl.
  apply disambiguate_frames_rows in Hframes.
  split_and!; [done..| |].
  - symmetry. by eapply Forall2_length.
  - apply Forall_forall. intros frame Hin.
    apply list_elem_of_lookup in Hin as [i Hi].
    destruct (Forall2_lookup_r _ _ _ _ _ Hframes Hi) as (src & _ & Hout).
    by destruct (disambiguate_frame_rows _ _ _ Hout) as (_ & ? & _).
Qed.

Lemma combine_data_files (processed_data : list (DataTuple CodedFrame))
    (w : World) out w' :
  Forall (λ dt, NoDup (cf_rows (data dt)).*1) processed_data →
  combine_data processed_data w = (Returns out, w') →
  ∃ combined,
    out = [mkDataTuple combined Old Quarterly]
    ∧ combined_tables (pickled w') = Some combined
    ∧ length (columns combined) = (2 * length processed_data)%nat
    ∧ data_frames_list (pickled w') = data_frames_list (pickled w)
    ∧ data_frames_list_disambiguated (pickled w')
      = data_frames_list_disambiguated (pickled w)
    ∧ csv_tables w' = csv_tables w ∧ csv_combined w' = csv_combined w.
Proof.
  intros Hnd. unfold combine_data.
  destruct processed_data as [|dt rest]; [done|].
  apply Forall_cons in Hnd as [Hdt Hrest].
  destruct (combine_loop_merged rest [data dt] _ (merged_so_far_first _ Hdt) Hrest)
    as (merged & Hloop & Hcols & _).
  cbn [combine_loop]. rewrite Hloop. cbv zeta. unfold mbind, M_bind, lift.
  change (columns (fillna merged)) with (columns merged).
  destruct (astype_int_columns _ (wf_rows (fillna merged))) as [rows|]; [|done].
  unfold set_pickled, mret, M_ret. intros [= <- <-]. cbn.
  eexists. split_and!; [reflexivity..| |done|done|done|done].
  cbn [columns]. rewrite Hcols, length_app, length_fmap. simpl. lia.
Qed.

End FileFacts.

(** X15. A run of the processing pipeline that ends normally leaves one
    frame per descriptor in each of the two pickled lists, writes one file
    per period after the files that were there and in the order of the
    descriptors, and writes as the combined file the table that it pickles
    and returns, which has two columns per descriptor; the data
    configuration of such a run is not empty. *)
Theorem processing_pipeline_outputs `{PyEnv} (entries : list str) (w : World) out w' :
  processing_pipeline entries w = (Returns out, w') →
  ∃ frames coded combined,
    data_frames_list (pickled w') = Some frames
    ∧ data_frames_list_disambiguated (pickled w') = Some coded
    ∧ combined_tables (pickled w') = Some combined
    ∧ out = [mkDataTuple combined Old Quarterly]
    ∧ csv_combined w' = Some combined
    ∧ csv_tables w'
      = csv_tables w ++ ((λ dt, (cf_date_string (data dt), data dt)) <$> coded)
    ∧ length frames = length entries
    ∧ length coded = length entries
    ∧ length (columns combined) = (2 * length entries)%nat
    ∧ entries ≠ [].
Proof.
  unfold processing_pipeline. unfold mbind at 1, M_bind, lift.
  destruct (process_data_configuration entries) as [data_source|] eqn:Hconf; [|done].
  assert (length data_source = length entries) as Hsources.
  { clear -Hconf. revert data_source Hconf.
    induction entries as [|entry rest IH]; intros data_source; simpl.
    - by intros [= <-].
    - destruct (_data_tuple_from_entry entry); simpl; [|done].
      destruct (process_data_configuration rest) as [output|]; simpl; [|done].
      intros [= <-]. simpl. by rewrite (IH output). }
  unfold mbind at 1, M_bind.
  destruct (process_data table_parsing data_source w) as [[frames|e] w1] eqn:Hprocess;
    [|done].
  pose proof (process_data_pickles _ _ _ _ _ Hprocess) as [Hframes Hpickled1].
  assert (csv_tables w1 = csv_tables w ∧ csv_combined w1 = csv_combined w)
    as [Ht1 Hc1].
  { revert Hprocess. unfold process_data. unfold mbind at 1, M_bind.
    destruct (process_data_loop table_parsing data_source [] w)
      as [[l|e] w0] eqn:Hloop; [|done].
    apply process_data_loop_world in Hloop as ->.
    unfold mbind, M_bind, set_pickled, mret, M_ret. by intros [= _ <-]. }
  unfold mbind at 1, M_bind.
  destruct (disambiguate_data settlement_disambiguation frames w1)
    as [[coded|e] w2] eqn:Hcoded; [|done].
  apply disambiguate_data_files in Hcoded as (Hp2 & Hd2 & Ht2 & Hc2 & Hlen2 & Hnd).
  unfold mbind at 1, M_bind. rewrite store_data_list_run.
  unfold mbind at 1, M_bind.
  destruct (combine_data coded _) as [[combined_list|e] w4] eqn:Hcombine; [|done].
  assert (coded ≠ []) as Hnonempty.
  { intros ->. unfold combine_data in Hcombine. by simpl in Hcombine. }
  apply combine_data_files in Hcombine
    as (combined & -> & Hcomb & Hcols & Hp4 & Hd4 & Ht4 & Hc4); [|done].
  unfold store_combined_data, mbind, M_bind, mret, M_ret. intros [= <- <-].
  simpl in *. exists frames, coded, combined.
  split_and!; [congruence|congruence|done|done|done| |lia|lia|lia|].
  - by rewrite Ht4, Ht2, Ht1.
  - intros ->. destruct data_source; [|done]. destruct frames; [|done].
    by destruct coded.
Qed.

Lemma processing_pipeline_outputs_witness :
  ∃ out w',
    processing_pipeline (H := BgEnv.env) [example_entry] document_world
    = (Returns out, w')
    ∧ (λ dt, wf_rows (data dt)) <$> out = [[(u"35376", [CInt 120; CInt 95])]]
    ∧ ∃ combined, csv_combined w' = Some combined
                  ∧ combined_tables (pickled w') = Some combined.
Proof.
  assert (Hrun :
    match processing_pipeline (H := BgEnv.env) [example_entry] document_world with
    | (Returns out, _) =>
        bool_decide ((λ dt, wf_rows (data dt)) <$> out
                     = [[(u"35376", [CInt 120; CInt 95])]])
    | _ => false
    end = true) by (vm_compute; reflexivity).
  destruct (processing_pipeline (H := BgEnv.env) [example_entry] document_world)
    as [[out|e] w'] eqn:Hpipeline; [|done].
  apply bool_decide_eq_true in Hrun.
  destruct (processing_pipeline_outputs (H := BgEnv.env) _ _ _ _ Hpipeline)
    as (frames & coded & combined & _ & _ & Hpickled & _ & Hcsv & _).
  exists out, w'. split_and!; [reflexivity|exact Hrun|].
  exists combined. split; [exact Hcsv|exact Hpickled].
Defined.

(** ** Groups of digits *)

Section NumberGroups.
Context `{PyEnv}.
Import Regex.

(** A repetition that matches takes characters of its class, at least as
    many as its lower bound. *)
Lemma greedy_taken {R} (p : N → bool) (k : str → option R) (s : str) :
  ∀ lo hi r, greedy p lo hi k s = Some r →
  ∃ n, k (drop n s) = Some r ∧ Forall (λ c, p c = true) (take n s)
       ∧ (lo ≤ n ≤ length s)%nat.
Proof.
  induction s as [|c s IH]; intros lo hi r; cbn [greedy].
  - destruct lo; [|done]. intros Hk. exists 0%nat. split_and!; [done|constructor|done..].
  - assert (Hstop : match lo with O => k (c :: s) | S _ => None end = Some r →
      ∃ n, k (drop n (c :: s)) = Some r ∧ Forall (λ c, p c = true) (take n (c :: s))
           ∧ (lo ≤ n ≤ length (c :: s))%nat).
    { destruct lo; [|done]. intros Hk. exists 0%nat.
      split_and!; [done|constructor|done|simpl; lia]. }
    destruct (p c) eqn:Hc; [|exact Hstop].
    destruct (negb (bool_decide (hi = Some 0%nat))); [|exact Hstop]. cbn [andb].
    destruct (greedy p (Nat.pred lo) (Nat.pred <$> hi) k s) as [r'|] eqn:Hg;
      [|exact Hstop].
    intros [= <-]. destruct (IH _ _ _ Hg) as (n & Hn & Hall & Hlo).
    exists (S n). split_and!; [done|by constructor|lia|simpl; lia].
Qed.

Lemma run_number_group (r2 : list item) opened caps (s : str) res :
  run (RegexPatternWrapper.number_group ++ r2) opened caps s = Some res →
  ∃ num s', digit_string num ∧ run r2 opened (caps ++ [num]) s' = Some res.
Proof.
  change (RegexPatternWrapper.number_group ++ r2)
    with (Chr (fun c => only 124 c || only 33 c) :: star re_space
            :: Open :: plus re_digit :: Close :: star re_space :: r2).
  cbn [run]. destruct s as [|c s]; [done|].
  destruct (only 124 c || only 33 c); [|done].
  intros (n1 & Hrun)%greedy_inv. revert Hrun. generalize (drop n1 s). intros s1.
  cbn [run]. intros (n2 & Hrun & Hdigits & Hn2)%greedy_taken.
  cbn [run] in Hrun. apply greedy_inv in Hrun as (n3 & Hrun).
  rewrite length_drop in Hrun.
  replace (length s1 - (length s1 - n2))%nat with n2 in Hrun by lia.
  exists (take n2 s1), (drop n3 (drop n2 s1)). split; [|done].
  split; [|done]. intros Hnil%(f_equal length). rewrite length_take in Hnil.
  simpl in Hnil. lia.
Qed.

Lemma run_number_groups (n : nat) (r2 : list item) :
  ∀ opened caps (s : str) res,
  run (times n RegexPatternWrapper.number_group ++ r2) opened caps s = Some res →
  ∃ nums s', length nums = n ∧ Forall digit_string nums
             ∧ run r2 opened (caps ++ nums) s' = Some res.
Proof.
  induction n as [|n IH]; intros opened caps s res; cbn [times].
  - intros Hrun. exists [], s. by rewrite app_nil_r.
  - rewrite <- app_assoc. intros (num & s1 & Hnum & Hrun)%run_number_group.
    apply IH in Hrun as (nums & s2 & Hlen & Hnums & Hrun).
    exists (num :: nums), s2. rewrite <- app_assoc in Hrun.
    split_and!; [simpl; lia|by constructor|done].
Qed.

(** The groups of a match of the two patterns for settlement rows: the
    name, with the dot of the abbreviation, and three or six groups of
    digits. *)
Lemma settlement_row_groups (table_type : TableTypeEnum) (line : str) m :
  search (settlement_info_re table_type) line = Some m →
  ∃ g nums, m = g :: nums ∧ DOT ∈ g ∧ Forall digit_string nums
            ∧ (current_population_position table_type ≤ length nums)%nat.
Proof.
  intros Hm.
  assert (∃ n : nat,
    settlement_info_re table_type
    = group (RegexPatternWrapper.type_abbr ++ RegexPatternWrapper.name)
        ++ star re_space :: (times n RegexPatternWrapper.number_group ++ [])
    ∧ (current_population_position table_type ≤ n)%nat) as (n & Hre & Hn).
  { destruct table_type; [exists 3%nat|exists 6%nat]; split; simpl; (reflexivity || lia). }
  pose proof Hm as Hdot. rewrite Hre in Hdot.
  apply first_group_has_dot in Hdot as (g & Hg & Hdot & _).
  rewrite Hre in Hm. apply search_inv in Hm as (n0 & Hrun).
  revert Hrun. generalize (drop n0 line). intros s0.
  change (group (RegexPatternWrapper.type_abbr ++ RegexPatternWrapper.name)
            ++ star re_space :: (times n RegexPatternWrapper.number_group ++ []))
    with (Open :: Many RegexPatternWrapper.cap_letter 1 (Some 2%nat)
            :: Chr (only DOT)
            :: (RegexPatternWrapper.name
                  ++ Close :: star re_space
                  :: (times n RegexPatternWrapper.number_group ++ []))).
  cbn [run]. intros (n1 & Hrun)%greedy_inv.
  destruct (drop n1 s0) as [|ch s2]; [done|].
  destruct (only DOT ch); [|done].
  apply run_plain in Hrun as (n2 & Hrun); [|by repeat constructor].
  cbn [run] in Hrun. apply greedy_inv in Hrun as (n3 & Hrun).
  apply run_number_groups in Hrun as (nums & s' & Hlen & Hnums & Hrun).
  cbn [run] in Hrun. injection Hrun as <-.
  simpl in Hg. injection Hg as <-.
  eexists _, nums. split_and!; [reflexivity|done|done|lia].
Qed.

End NumberGroups.

(** X16. The two counts of a row that [parse_data_line] returns are
    non-empty strings of digits, and its name is made of an abbreviation
    without a dot, a dot, a space and a normalised name. *)
Theorem parsed_counts_are_digits `{PyEnv} (line : str) (table_type : TableTypeEnum)
    info :
  parse_data_line line table_type = Returns (Some info) →
  digit_string (permanent_residents info)
  ∧ digit_string (current_residents info)
  ∧ ∃ abbr rest,
      name info = Str.strip isspace (abbr ++ [DOT; SPACE] ++ fix_names rest)
      ∧ (DOT ∉ abbr) ∧ (DOT ∉ rest).
Proof.
  intros Hline.
  destruct (Regex.search (settlement_info_re table_type) line) as [m|] eqn:Hm;
    [|by rewrite parse_data_line_unmatched in Hline].
  destruct (settlement_row_groups _ _ _ Hm) as (g & nums & -> & Hdot & Hnums & Hlen).
  destruct (parse_data_line_matched _ _ _ Hm)
    as (g' & abbr & rest & permanent & current & Hg & Habbr & Hrest & Hp & Hc & Hrow).
  rewrite Hrow in Hline. injection Hline as <-. simpl.
  simpl in Hg. injection Hg as <-.
  rewrite Forall_forall in Hnums.
  pose proof (split_parts DOT g) as Hparts. rewrite Forall_forall in Hparts.
  split_and!.
  - apply Hnums. by eapply (list_elem_of_lookup_2 nums 0).
  - apply Hnums.
    apply (list_elem_of_lookup_2 nums (current_population_position table_type - 2)).
    rewrite <- Hc. by destruct table_type.
  - exists abbr, rest. split_and!; [done|..]; apply Hparts;
      by eapply list_elem_of_lookup_2.
Qed.

Lemma parsed_counts_are_digits_witness :
  ∃ info,
    parse_data_line (H := BgEnv.env) example_row_line Quarterly = Returns (Some info)
    ∧ digit_string (H := BgEnv.env) (permanent_residents info)
    ∧ digit_string (H := BgEnv.env) (current_residents info).
Proof.
  assert (Hrun :
    match parse_data_line (H := BgEnv.env) example_row_line Quarterly with
    | Returns (Some info) => true
    | _ => false
    end = true) by (vm_compute; reflexivity).
  destruct (parse_data_line (H := BgEnv.env) example_row_line Quarterly)
    as [[info|]|] eqn:Hline; try done.
  destruct (parsed_counts_are_digits (H := BgEnv.env) _ _ _ Hline)
    as (Hpermanent & Hcurrent & _).
  exists info. split_and!; [reflexivity|exact Hpermanent|exact Hcurrent].
Defined.

(** ** Exceptions of the pipeline, and what the loop records *)

Section LoopRecords.
Context `{PyEnv}.

(** Only [ValueError] leads to another attempt. *)
Lemma attempts_first pipeline (sdt : SettlementDataTuple str) (w : World) r w1 :
  pipeline sdt w = (r, w1) → r ≠ Raises ValueError →
  attempts pipeline sdt w = (r, w1).
Proof.
  intros Hfirst Hr. unfold attempts, try_except_ValueError. rewrite Hfirst.
  by destruct r as [v|[]].
Qed.

Lemma step_records (l : Locals) sdt (w : World) l' w' :
  disambiguate_step settlement_disambiguation l sdt w = (Returns l', w') →
  (∀ k, k ∈ failed l' → k ∈ failed l ∨ k = sdt_key sdt.1)
  ∧ (∀ k code, processed_sdts l' !! k = Some code →
       processed_sdts l !! k = Some code ∨ k = sdt_key sdt.1)
  ∧ (∀ code name, reverse_dict l' !! code = Some name →
       reverse_dict l !! code = Some name ∨ name = sdt.2).
Proof.
  unfold disambiguate_step.
  destruct (already_resolved l (sdt_key sdt.1)); [intros [= <- <-]; auto|].
  destruct (attempts _ _ w) as [[v|e] w1] eqn:Ha;
    [|by destruct (finally_block l sdt w1) as [[?|?] ?]].
  destruct (attempts_effect _ _ _ _ Ha) as (_ & _ & _ & Hkey).
  intros Hfin%finally_block_returns. simpl in Hfin. destruct v as [v|].
  - destruct Hfin as (-> & -> & -> & _). rewrite (Hkey v eq_refl).
    split_and!; [auto| |].
    + intros k code [[-> _]|[_ ?]]%lookup_insert_Some; auto.
    + intros code name [[_ <-]|[_ ?]]%lookup_insert_Some; auto.
  - destruct Hfin as (-> & -> & -> & _). split_and!; [|auto..].
    intros k [->%elem_of_singleton|?]%elem_of_union; auto.
Qed.

Lemma loop_records (sdts : list (SettlementDataTuple str * triple)) :
  ∀ (l : Locals) (w : World) l' w',
  disambiguate_loop settlement_disambiguation l sdts w = (Returns l', w') →
  (∀ k, k ∈ failed l' → k ∈ failed l ∨ ∃ sdt, sdt ∈ sdts ∧ sdt_key sdt.1 = k)
  ∧ (∀ k code, processed_sdts l' !! k = Some code →
       processed_sdts l !! k = Some code ∨ ∃ sdt, sdt ∈ sdts ∧ sdt_key sdt.1 = k)
  ∧ (∀ code name, reverse_dict l' !! code = Some name →
       reverse_dict l !! code = Some name ∨ ∃ sdt, sdt ∈ sdts ∧ sdt.2 = name).
Proof.
  induction sdts as [|sdt rest IH]; intros l w l' w'; cbn [disambiguate_loop].
  - intros [= <- <-]. auto.
  - unfold mbind, M_bind.
    destruct (disambiguate_step _ l sdt w) as [[l1|e] w1] eqn:Hstep; [|done].
    intros (Hf2 & Hp2 & Hr2)%IH.
    destruct (step_records _ _ _ _ _ Hstep) as (Hf1 & Hp1 & Hr1).
    split_and!.
    + intros k [[?| ->]%Hf1|(s & ? & ?)]%Hf2; auto.
      * right. exists sdt. split; [by left|done].
      * right. exists s. split; [by right|done].
    + intros k code [[?| ->]%Hp1|(s & ? & ?)]%Hp2; auto.
      * right. exists sdt. split; [by left|done].
      * right. exists s. split; [by right|done].
    + intros code name [[?| ->]%Hr1|(s & ? & ?)]%Hr2; auto.
      * right. exists sdt. split; [by left|done].
      * right. exists s. split; [by right|done].
Qed.

(** When the attempts end with an exception the [finally] block runs with
    the value that [val] has from an earlier entry. *)
Lemma step_after_failure
    (pipeline : SettlementDataTuple str → M (option (SettlementDataTuple str)))
    (l : Locals) (sdt : SettlementDataTuple str * triple) (w : World) e w1 :
  already_resolved l (sdt_key sdt.1) = false →
  attempts pipeline sdt.1 w = (Raises e, w1) →
  ∃ e' w2, disambiguate_step pipeline l sdt w = (Raises e', w2)
    ∧ e' = (if val l is None then UnboundLocalError else e)
    ∧ requested w2 = requested w1 ∧ slept w2 = slept w1.
Proof.
  intros Hnew Hfail. unfold disambiguate_step. rewrite Hnew, Hfail.
  unfold finally_block. destruct (val l) as [[v|]|]; [|by eexists _, _..].
  unfold mbind, M_bind, pickle_maps, pickle_reverse, set_pickled, mret, M_ret.
  simpl. by eexists _, _.
Qed.

End LoopRecords.

(** X17. A page with status 200 and fewer than four tables is not asked
    for again: the pipeline raises [IndexError] at the first attempt, after
    one request and without any sleep, and the iteration of the loop ends
    with that error, or with [UnboundLocalError] when no entry has bound
    [val] before. *)
Theorem malformed_page_is_not_retried `{PyEnv} (l : Locals)
    (sdt : SettlementDataTuple str * triple) (name : str) (w : World) :
  request_name sdt.1 = Returns name →
  status_code (nsi w (length (requested w)) name) = 200 →
  (length (text (nsi w (length (requested w)) name)) < 4)%nat →
  attempts settlement_disambiguation sdt.1 w
  = (Raises IndexError, after_requests [name] w)
  ∧ (already_resolved l (sdt_key sdt.1) = false →
     ∃ e w', disambiguate_step settlement_disambiguation l sdt w = (Raises e, w')
       ∧ e = (if val l is None then UnboundLocalError else IndexError)
       ∧ requested w' = requested w ++ [name] ∧ slept w' = slept w).
Proof.
  intros Hname Hstatus Htables.
  assert (Hattempts : attempts settlement_disambiguation sdt.1 w
                      = (Raises IndexError, after_requests [name] w)).
  { apply attempts_first; [|done].
    rewrite (pipeline_answers _ name) by done. f_equal.
    unfold resolve_response, parse_raw_settlement_data. cbv zeta. simpl.
    by rewrite bool_decide_eq_false_2 by lia. }
  split; [done|]. intros Hnew.
  destruct (step_after_failure _ l sdt w _ _ Hnew Hattempts)
    as (e & w' & Hstep & He & Hrequested & Hslept).
  exists e, w'. split_and!; [done|done| |done].
  by rewrite Hrequested.
Qed.

Lemma malformed_page_is_not_retried_witness :
  attempts (settlement_disambiguation (H := BgEnv.env)) example_sdt.1 short_page_world
  = (Raises IndexError, after_requests [u"КАЗАШКА РЕКА"] short_page_world).
Proof.
  refine (proj1 (malformed_page_is_not_retried (H := BgEnv.env) (mkLocals ∅ ∅ ∅ None)
                   example_sdt (u"КАЗАШКА РЕКА") short_page_world _ _ _)).
  - by vm_compute.
  - reflexivity.
  - simpl. lia.
Defined.

(** X18. After a run of the resolution loop that ends normally the set of
    failures is the pickled one and holds keys of the list only; an entry of
    the key-to-code map is an entry of the pickled map the run started from
    or has the key of an entry of the list, and an entry of the code-to-name
    map is one of the map the run started from or has the name of an entry
    of the list. *)
Theorem resolution_records_list_entries `{PyEnv}
    (sdts : list (SettlementDataTuple str * triple)) (w : World) l w' :
  resolve_all settlement_disambiguation sdts w = (Returns l, w') →
  failiures (pickled w') = Some (failed l)
  ∧ (∀ k, k ∈ failed l → ∃ sdt, sdt ∈ sdts ∧ sdt_key sdt.1 = k)
  ∧ (∀ k code, processed_sdts l !! k = Some code →
       default ∅ (triple_to_ekatte (pickled w)) !! k = Some code
       ∨ ∃ sdt, sdt ∈ sdts ∧ sdt_key sdt.1 = k)
  ∧ (∀ code name, reverse_dict l !! code = Some name →
       default ∅ (ekatte_to_triple (pickled w)) !! code = Some name
       ∨ ∃ sdt, sdt ∈ sdts ∧ sdt.2 = name).
Proof.
  unfold resolve_all, mbind, M_bind, get_world.
  destruct (disambiguate_loop _ _ sdts w) as [[l1|e] w1] eqn:Hloop; [|done].
  unfold set_pickled, mret, M_ret. intros [= <- <-]. simpl.
  destruct (loop_records _ _ _ _ _ Hloop) as (Hfailed & Hprocessed & Hreverse).
  split_and!; [done| |done..].
  intros k [Hk|?]%Hfailed; [|done]. simpl in Hk. by apply not_elem_of_empty in Hk.
Qed.

Lemma resolution_records_list_entries_witness :
  ∃ l w',
    resolve_all (settlement_disambiguation (H := BgEnv.env)) [unknown_sdt; example_sdt]
      (example_world []) = (Returns l, w')
    ∧ failiures (pickled w') = Some (failed l)
    ∧ failed l = {[sdt_key unknown_sdt.1]}.
Proof.
  assert (Hrun :
    match resolve_all (settlement_disambiguation (H := BgEnv.env))
            [unknown_sdt; example_sdt] (example_world []) with
    | (Returns l, _) => bool_decide (failed l = {[sdt_key unknown_sdt.1]})
    | _ => false
    end = true) by (vm_compute; reflexivity).
  destruct (resolve_all (settlement_disambiguation (H := BgEnv.env))
              [unknown_sdt; example_sdt] (example_world []))
    as [[l|e] w'] eqn:Hresolve; [|done].
  apply bool_decide_eq_true in Hrun.
  destruct (resolution_records_list_entries (H := BgEnv.env) _ _ _ _ Hresolve)
    as (Hpickled & _).
  exists l, w'. split_and!; [reflexivity|exact Hpickled|exact Hrun].
Defined.

(** ** Counts, from the lines of a document to the combined table *)

Section CountFacts.
Context `{PyEnv}.

Lemma parse_data_line_counts (line : str) (table_type : TableTypeEnum) info :
  parse_data_line line table_type = Returns (Some info) →
  digit_string (permanent_residents info) ∧ digit_string (current_residents info).
Proof.
  intros Hline.
  destruct (Regex.search (settlement_info_re table_type) line) as [m|] eqn:Hm;
    [|by rewrite parse_data_line_unmatched in Hline].
  destruct (settlement_row_groups _ _ _ Hm) as (g & nums & -> & _ & Hnums & Hlen).
  destruct (parse_data_line_matched _ _ _ Hm)
    as (g' & abbr & rest & permanent & current & _ & _ & _ & Hp & Hc & Hrow).
  rewrite Hrow in Hline. injection Hline as <-. simpl.
  rewrite Forall_forall in Hnums. split; apply Hnums.
  - by eapply (list_elem_of_lookup_2 nums 0).
  - apply (list_elem_of_lookup_2 nums (current_population_position table_type - 2)).
    rewrite <- Hc. by destruct table_type.
Qed.

Lemma dict_set_Forall {V} (P : Z * V → Prop) (d : list (Z * V)) (k : Z) (v : V) :
  Forall P d → P (k, v) → Forall P (dict_set d k v).
Proof.
  intros Hd Hv. unfold dict_set. case_bool_decide as Hk.
  - clear Hk. induction Hd as [|kv d Hkv _ IH]; [constructor|].
    simpl. constructor; [|done]. by case_bool_decide.
  - apply Forall_app. split; [done|]. by constructor.
Qed.

Lemma parse_lines_loop_counts (lines : list str) :
  ∀ (line_num : Z) header_type table_type region_attr ids infos parsed,
  Forall (λ kv : Z * SettlementInfo,
            digit_string (permanent_residents kv.2)
            ∧ digit_string (current_residents kv.2)) infos →
  parse_lines_loop lines line_num header_type table_type region_attr ids infos
  = Returns parsed →
  Forall (λ kv : Z * SettlementInfo,
            digit_string (permanent_residents kv.2)
            ∧ digit_string (current_residents kv.2)) (settlements_info parsed).
Proof.
  induction lines as [|line rest IH]; intros n ht tt attr mids sinfos parsed Hinfos;
    cbn [parse_lines_loop].
  - by intros [= <-].
  - destruct (parse_header_line attr line ht) as [[[id|]|e] attr']; simpl; [| |done].
    + by apply IH.
    + destruct (parse_data_line line tt) as [[info|]|e] eqn:Hline; simpl; [| |done].
      * apply IH. apply dict_set_Forall; [done|].
        by apply parse_data_line_counts in Hline.
      * by apply IH.
Qed.

Lemma dict_item_elem_of {V} (d : list (Z * V)) (k : Z) (v : V) :
  dict_item d k = Returns v → (k, v) ∈ d.
Proof.
  unfold dict_item.
  destruct (list_find _ d) as [[i [k' v']]|] eqn:Hfind; [|done].
  intros [= <-]. apply list_find_Some in Hfind as (Hi & Hk & _).
  simpl in Hk. subst k'. by eapply list_elem_of_lookup_2.
Qed.

Lemma assembler_counts (data_tuple : DataTuple ParsedLines) out :
  Forall (λ kv : Z * SettlementInfo,
            digit_string (permanent_residents kv.2)
            ∧ digit_string (current_residents kv.2))
    (settlements_info (data data_tuple)) →
  parssed_lines_to_full_info_list data_tuple = Returns out →
  Forall counts_are_digits (data out).
Proof.
  intros Hinfos. unfold parssed_lines_to_full_info_list, attach_all.
  destruct (attach_for _ _ _ _ _ _) as [[c rows]|] eqn:Hfor; simpl; [|done].
  intros [= <-]. simpl.
  apply attach_for_rows with (pairs := reg_keys_pairs
         (municipality_ids (data data_tuple)).*1) in Hfor as [_ Hrows];
    [|done|done|by intros j row0 Hj; rewrite lookup_nil in Hj].
  apply Forall_forall. intros row Hrow.
  apply list_elem_of_lookup in Hrow as [j Hj].
  destruct (Hrows j row Hj) as (k & cur & nxt & _ & _ & _ & reg & info & _ & Hinfo & ->).
  apply dict_item_elem_of in Hinfo. rewrite Forall_forall in Hinfos.
  exact (Hinfos _ Hinfo).
Qed.

Lemma table_parsing_counts (dt : DataTuple str) (w : World) frame w' :
  table_parsing dt w = (Returns frame, w') →
  Forall counts_are_digits (data frame).
Proof.
  unfold table_parsing, raw_table_lines.
  unfold mbind, M_bind, get_world, mret, M_ret, lift.
  destruct (parse_lines _) as [parsed|] eqn:Hparsed; [|done].
  destruct (parssed_lines_to_full_info_list parsed) as [infos|] eqn:Hinfos; [|done].
  intros [= Hframe _]. unfold full_info_list_to_data_frame in Hframe.
  destruct (data infos) eqn:Hdata; [done|]. injection Hframe as <-.
  eapply assembler_counts; [|exact Hinfos].
  unfold parse_lines in Hparsed.
  destruct (parse_lines_loop _ _ _ _ _ _ _) as [pl|] eqn:Hloop; simpl in Hparsed;
    [|done].
  injection Hparsed as <-. simpl.
  eapply parse_lines_loop_counts; [|exact Hloop]. constructor.
Qed.

Lemma coded_row_elem_of (df : CodedFrame) (c : str) x :
  coded_row df c = Some x → (c, x) ∈ cf_rows df.
Proof.
  unfold coded_row. intros Hx%list_elem_of_lookup_2.
  apply list_elem_of_fmap in Hx as ([c' x'] & -> & [Hc Hin]%list_elem_of_filter).
  simpl in *. by subst.
Qed.

Lemma int_cell_integer (c c' : cell) :
  int_cell c = Returns c' → ∃ z, c' = CInt z.
Proof.
  destruct c as [s|z|]; simpl; [|by intros [= <-]; eexists|done].
  destruct (int s); simpl; [|done]. intros [= <-]. by eexists.
Qed.

Lemma astype_int_column_returns (j : nat) (rows : list (str * list cell)) :
  (∀ r, r ∈ rows → (j < length r.2)%nat ∧ Forall convertible r.2) →
  ∃ rows', astype_int_column j rows = Returns rows'.
Proof.
  induction rows as [|[k cells] rows IH]; intros Hrows; cbn [astype_int_column];
    [by eexists|].
  destruct (Hrows (k, cells)) as [Hj Hcells]; [by left|]. simpl in *.
  destruct (lookup_lt_is_Some_2 cells j Hj) as [c Hc]. rewrite Hc.
  rewrite Forall_forall in Hcells.
  destruct (Hcells c) as [c' Hc']; [by eapply list_elem_of_lookup_2|].
  rewrite Hc'. simpl.
  destruct IH as [rest ->]; [intros r Hr; apply Hrows; by right|].
  simpl. by eexists.
Qed.

Lemma astype_int_columns_returns (js : list nat) :
  ∀ rows : list (str * list cell),
  (∀ r, r ∈ rows → (∀ j, j ∈ js → (j < length r.2)%nat) ∧ Forall convertible r.2) →
  ∃ rows', astype_int_columns js rows = Returns rows'.
Proof.
  induction js as [|j js IH]; intros rows Hrows; cbn [astype_int_columns];
    [by eexists|].
  destruct (astype_int_column_returns j rows) as [rows1 Hrows1].
  { intros r Hr. destruct (Hrows r Hr) as [Hlen Hconv]. split; [|done].
    apply Hlen. by left. }
  rewrite Hrows1. simpl. apply IH. intros r' Hr'.
  apply astype_int_column_rows in Hrows1.
  apply list_elem_of_lookup in Hr' as [i Hi].
  destruct (Forall2_lookup_r _ _ _ _ _ Hrows1 Hi)
    as (r & Hr & _ & c & c' & Hc & Hint & Heq).
  destruct (Hrows r) as [Hlen Hconv]; [by eapply list_elem_of_lookup_2|].
  rewrite Heq. split.
  - intros j' Hj'. rewrite length_insert. apply Hlen. by right.
  - apply Forall_insert; [done|].
    destruct (int_cell_integer _ _ Hint) as [z ->]. by exists (CInt z).
Qed.

(** The table that the loop of [combine_data] builds from frames whose
    counts are digits is accepted by the coercion to integers. *)
Lemma combine_data_returns (processed_data : list (DataTuple CodedFrame))
    (w : World) :
  (∀ s, digit_string s → ∃ z, int s = Returns z) →
  processed_data ≠ [] →
  Forall (λ dt, NoDup (cf_rows (data dt)).*1
                ∧ ∀ c x, (c, x) ∈ cf_rows (data dt) → counts_are_digits x)
    processed_data →
  ∃ out w', combine_data processed_data w = (Returns out, w').
Proof.
  intros Hint Hne Hdata. unfold combine_data.
  destruct processed_data as [|dt rest]; [done|].
  assert (Hnd : Forall (λ dt, NoDup (cf_rows (data dt)).*1) (dt :: rest))
    by (eapply Forall_impl; [exact Hdata|]; by intros ? [? _]).
  apply Forall_cons in Hnd as [Hdt Hrest].
  destruct (combine_loop_merged rest [data dt] _ (merged_so_far_first _ Hdt) Hrest)
    as (merged & Hloop & Hcols & Hrows).
  cbn [combine_loop]. rewrite Hloop.
  change ([data dt] ++ (data <$> rest)) with (data <$> (dt :: rest)) in *.
  set (frames := data <$> dt :: rest) in *.
  cbv zeta. unfold mbind, M_bind, lift.
  change (columns (fillna merged)) with (columns merged).
  destruct (astype_int_columns_returns (seq 0 (length (columns merged)))
              (wf_rows (fillna merged))) as [rows ->];
    [|unfold set_pickled, mret, M_ret; by eexists _, _].
  intros [k cells'] Hin. simpl.
  apply rows_of_elem in Hin. rewrite rows_of_fillna, Hrows in Hin.
  destruct (decide (covers frames k)) as [Hcov|Hcov];
    [|by apply elem_of_nil in Hin].
  apply list_elem_of_singleton in Hin as ->.
  split.
  - intros j Hj%elem_of_seq.
    rewrite length_fmap, merged_cells_length, <- Hcols. lia.
  - apply Forall_fmap, Forall_forall. intros cell Hcell. simpl.
    apply list_elem_of_bind in Hcell as (df & Hcell & Hdf).
    unfold merged_cells in Hcell.
    destruct (coded_row df k) as [x|] eqn:Hrow.
    + apply coded_row_elem_of in Hrow.
      apply list_elem_of_fmap in Hdf as (dt' & -> & Hdt').
      rewrite Forall_forall in Hdata.
      destruct (Hdata dt' Hdt') as [_ Hcounts].
      destruct (Hcounts k x Hrow) as [Hp Hc].
      apply elem_of_cons in Hcell as [->|Hcell].
      { destruct (Hint _ Hp) as [z Hz]. exists (CInt z). simpl. by rewrite Hz. }
      apply list_elem_of_singleton in Hcell as ->.
      destruct (Hint _ Hc) as [z Hz]. exists (CInt z). simpl. by rewrite Hz.
    + apply elem_of_cons in Hcell as [->|Hcell]; [by exists (CInt 0)|].
      apply list_elem_of_singleton in Hcell as ->. by exists (CInt 0).
Qed.

Lemma process_data_counts (data_source : list (option (DataTuple str)))
    (w : World) frames w' :
  process_data table_parsing data_source w = (Returns frames, w') →
  Forall (λ fr, Forall counts_are_digits (pf_rows (data fr))) frames.
Proof.
  unfold process_data. unfold mbind at 1, M_bind.
  destruct (process_data_loop table_parsing data_source [] w)
    as [[data_frame_list|e] w1] eqn:Hloop; [|done].
  unfold mbind, M_bind, set_pickled, mret, M_ret. intros [= <- _].
  apply process_data_loop_frames in Hloop as (new & -> & Hnew).
  apply Forall_forall. intros fr Hfr. simpl in Hfr.
  apply list_elem_of_lookup in Hfr as [i Hi].
  destruct (Forall2_lookup_r _ _ _ _ _ Hnew Hi)
    as (src & _ & dt & _ & _ & _ & _ & w0 & frame & w2 & Hframe & ->).
  by eapply table_parsing_counts.
Qed.

Lemma disambiguate_data_counts pipeline
    (data_frame_list : list (DataTuple PeriodFrame)) (w : World) coded w' :
  Forall (λ fr, Forall counts_are_digits (pf_rows (data fr))) data_frame_list →
  disambiguate_data pipeline data_frame_list w = (Returns coded, w') →
  length coded = length data_frame_list
  ∧ Forall (λ dt, NoDup (cf_rows (data dt)).*1
                  ∧ ∀ c x, (c, x) ∈ cf_rows (data dt) → counts_are_digits x) coded.
Proof.
  intros Hcounts Hrun.
  destruct (disambiguate_data_returns _ _ _ _ _ Hrun)
    as (sdt_list & l & w1 & _ & _ & Hframes & _).
  apply disambiguate_frames_rows in Hframes.
  split; [symmetry; by eapply Forall2_length|].
  apply Forall_forall. intros out Hout.
  apply list_elem_of_lookup in Hout as [i Hi].
  destruct (Forall2_lookup_r _ _ _ _ _ Hframes Hi) as (src & Hsrc & Hframe).
  destruct (disambiguate_frame_rows _ _ _ Hframe) as (_ & Hnd & Hrows).
  split; [done|]. intros c x [Hx _]%Hrows.
  rewrite Forall_forall in Hcounts.
  specialize (Hcounts src (list_elem_of_lookup_2 _ _ _ Hsrc)).
  rewrite Forall_forall in Hcounts. by apply Hcounts.
Qed.

End CountFacts.

(** X19. When [int] accepts every non-empty string of digits, the counts
    read from the lines of the documents reach [combine_data] as strings of
    digits, and [combine_data] raises nothing: for period tables made by
    [process_data] with the table parsing pipeline from a data source that
    is not empty and coded by [disambiguate_data], with any settlement
    pipeline, the merge, the filling and the coercion to integers return. *)
Theorem combine_data_accepts_parsed_counts `{PyEnv}
    (pipeline : SettlementDataTuple str → M (option (SettlementDataTuple str)))
    (data_source : list (option (DataTuple str))) (w : World) frames w1 coded w2 :
  (∀ s, digit_string s → ∃ z, int s = Returns z) →
  data_source ≠ [] →
  process_data table_parsing data_source w = (Returns frames, w1) →
  disambiguate_data pipeline frames w1 = (Returns coded, w2) →
  Forall (λ dt, ∀ c x, (c, x) ∈ cf_rows (data dt) → counts_are_digits x) coded
  ∧ ∀ w3, ∃ out w4, combine_data coded w3 = (Returns out, w4).
Proof.
  intros Hint Hne Hprocess Hcoded.
  pose proof (process_data_counts _ _ _ _ Hprocess) as Hcounts.
  destruct (process_data_pickles _ _ _ _ _ Hprocess) as [Hlen _].
  destruct (disambiguate_data_counts _ _ _ _ _ Hcounts Hcoded) as [Hlen' Hdata].
  split.
  - eapply Forall_impl; [exact Hdata|]. by intros ? [_ ?].
  - intros w3. apply combine_data_returns; [done| |done].
    intros ->. destruct frames; [|done]. by destruct data_source.
Qed.

Lemma int_digits_accepts (s : str) :
  digit_string (H := BgEnv.env) s → ∃ z, int (PyEnv := BgEnv.env) s = Returns z.
Proof.
  intros [Hne Hdigits]. simpl. unfold BgEnv.int_digits.
  rewrite bool_decide_eq_true_2 by done.
  assert (forallb BgEnv.digit s = true) as ->; [|by eexists].
  apply forallb_forall. intros c Hc%list_elem_of_In.
  rewrite Forall_forall in Hdigits. by apply Hdigits.
Qed.

Lemma combine_data_accepts_parsed_counts_witness :
  ∃ frames w1 coded w2 out w3,
    process_data (H := BgEnv.env) (table_parsing (H := BgEnv.env))
      [Some (mkDataTuple example_entry New Quarterly)] document_world
    = (Returns frames, w1)
    ∧ disambiguate_data (H := BgEnv.env) (settlement_disambiguation (H := BgEnv.env))
        frames w1 = (Returns coded, w2)
    ∧ combine_data (H := BgEnv.env) coded w2 = (Returns out, w3).
Proof.
  assert (Hrun :
    match process_data (H := BgEnv.env) (table_parsing (H := BgEnv.env))
            [Some (mkDataTuple example_entry New Quarterly)] document_world with
    | (Returns frames, w1) =>
        match disambiguate_data (H := BgEnv.env)
                (settlement_disambiguation (H := BgEnv.env)) frames w1 with
        | (Returns _, _) => true
        | _ => false
        end
    | _ => false
    end = true) by (vm_compute; reflexivity).
  destruct (process_data (H := BgEnv.env) (table_parsing (H := BgEnv.env))
              [Some (mkDataTuple example_entry New Quarterly)] document_world)
    as [[frames|e] w1] eqn:Hprocess; [|done].
  destruct (disambiguate_data (H := BgEnv.env)
              (settlement_disambiguation (H := BgEnv.env)) frames w1)
    as [[coded|e] w2] eqn:Hcoded; [|done].
  assert (Hne : [Some (mkDataTuple example_entry New Quarterly)] ≠ []) by done.
  destruct (combine_data_accepts_parsed_counts (H := BgEnv.env) _ _ _ _ _ _ _
              int_digits_accepts Hne Hprocess Hcoded) as [_ Hcombine].
  destruct (Hcombine w2) as (out & w3 & Hout).
  exists frames, w1, coded, w2, out, w3.
  split_and!; [reflexivity|exact Hcoded|exact Hout].
Defined.
